(** * Image-generation client of the AstrBot OpenAI image plugin

    A shallow embedding of [utils/ttp.py] (key rotator, image store,
    request builder, response extractor, retry loop) and of
    [MyPlugin._normalize_api_keys] from [main.py], with the properties
    of the design document proved against it.

    Python strings are modelled as [string], one [ascii] per code point
    in the range U+0000..U+00FF.  JSON numbers are integers. *)

From Stdlib Require Import Bool Arith ZArith Lia List Ascii String.
From Stdlib Require Import DecimalString.
From Stdlib Require DecimalPos.
Import ListNotations.
Set Warnings "-register-all".
Open Scope string_scope.
Open Scope list_scope.
Open Scope nat_scope.

(* ------------------------------------------------------------------ *)
(** * Python string operations used by the sources *)

Module PyStr.

(** [str.isspace] on one code point (also what [\s] matches). *)
Definition is_space (c : ascii) : bool :=
  let n := nat_of_ascii c in
  (((9 <=? n) && (n <=? 13)) || ((28 <=? n) && (n <=? 32))
   || (n =? 133) || (n =? 160))%nat.

Definition is_empty (s : string) : bool :=
  match s with EmptyString => true | String _ _ => false end.

(** Truthiness of a [str]. *)
Definition truthy (s : string) : bool := negb (is_empty s).

Fixpoint lstrip (s : string) : string :=
  match s with
  | EmptyString => EmptyString
  | String c s' => if is_space c then lstrip s' else s
  end.

Fixpoint rstrip (s : string) : string :=
  match s with
  | EmptyString => EmptyString
  | String c s' =>
      let r := rstrip s' in
      if is_space c && is_empty r then EmptyString else String c r
  end.

(** [s.strip()] *)
Definition strip (s : string) : string := rstrip (lstrip s).

(** [s.rstrip(ch)] for a one-character argument. *)
Fixpoint rstrip_char (ch : ascii) (s : string) : string :=
  match s with
  | EmptyString => EmptyString
  | String c s' =>
      let r := rstrip_char ch s' in
      if Ascii.eqb c ch && is_empty r then EmptyString else String c r
  end.

(** [s.startswith(p)] *)
Definition startswith (p s : string) : bool := String.prefix p s.

(** [p in s] for strings. *)
Fixpoint contains (p s : string) : bool :=
  startswith p s ||
  match s with
  | EmptyString => false
  | String _ s' => contains p s'
  end.

(** [s.split(sep)] for a one-character separator: never empty. *)
Fixpoint split (sep : ascii) (s : string) : list string :=
  match s with
  | EmptyString => [EmptyString]
  | String c s' =>
      if Ascii.eqb c sep then EmptyString :: split sep s'
      else match split sep s' with
           | h :: t => String c h :: t
           | [] => [String c EmptyString]
           end
  end.

(** Position of the first [sep]: the text before it and the text after. *)
Fixpoint cut (sep : ascii) (s : string) : option (string * string) :=
  match s with
  | EmptyString => None
  | String c s' =>
      if Ascii.eqb c sep then Some (EmptyString, s')
      else match cut sep s' with
           | Some (h, t) => Some (String c h, t)
           | None => None
           end
  end.

(** [s.split(sep, 1)] *)
Definition split1 (sep : ascii) (s : string) : list string :=
  match cut sep s with
  | Some (h, t) => [h; t]
  | None => [s]
  end.

(** [c.lower()] on U+0000..U+00FF. *)
Definition lower_char (c : ascii) : ascii :=
  let n := nat_of_ascii c in
  if (((65 <=? n) && (n <=? 90))
      || ((192 <=? n) && (n <=? 222) && negb (n =? 215)))%nat
  then ascii_of_nat (n + 32) else c.

Fixpoint lower (s : string) : string :=
  match s with
  | EmptyString => EmptyString
  | String c s' => String (lower_char c) (lower s')
  end.

(** [str(n)] for an [int]. *)
Definition of_Z (n : Z) : string := NilEmpty.string_of_int (Z.to_int n).

End PyStr.

(* ------------------------------------------------------------------ *)
(** * JSON values as Python sees them after [json.loads] *)

Inductive json : Type :=
| JNull
| JBool (b : bool)
| JNum (n : Z)
| JStr (s : string)
| JList (l : list json)
| JObj (d : list (string * json)).

(** Exceptions raised inside the client. [NetworkError] stands for
    [aiohttp.ClientError] and [asyncio.TimeoutError], which have a
    handler of their own in the retry loop. *)
Inductive exn : Type :=
| TypeError | KeyError | IndexError | AttributeError | ValueError
| Base64Error | OSError | NetworkError.

Inductive exc (A : Type) : Type :=
| Ok (a : A)
| Raise (e : exn).
Arguments Ok {A} a.
Arguments Raise {A} e.

Definition bind {A B} (m : exc A) (k : A -> exc B) : exc B :=
  match m with
  | Ok a => k a
  | Raise e => Raise e
  end.

Declare Scope exc_scope.
Delimit Scope exc_scope with exc.
Notation "x <- m ;; k" := (bind m (fun x => k))
  (at level 61, m at next level, right associativity) : exc_scope.
Notation "' pat <- m ;; k" := (bind m (fun x => match x with pat => k end))
  (at level 61, pat pattern, m at next level, right associativity) : exc_scope.

Module Py.

(** [bool(v)] *)
Definition truthy (v : json) : bool :=
  match v with
  | JNull => false
  | JBool b => b
  | JNum n => negb (Z.eqb n 0)
  | JStr s => PyStr.truthy s
  | JList l => match l with [] => false | _ => true end
  | JObj d => match d with [] => false | _ => true end
  end.

(** Dictionary lookup by key; a [dict] is an association list whose
    first binding of a key stands. *)
Fixpoint lookup (k : string) (d : list (string * json)) : option json :=
  match d with
  | [] => None
  | (k', v) :: d' => if String.eqb k k' then Some v else lookup k d'
  end.

Definition is_str (s : string) (v : json) : bool :=
  match v with JStr s' => String.eqb s s' | _ => false end.

(** [k in v] for a string [k]. *)
Definition contains (k : string) (v : json) : exc bool :=
  match v with
  | JObj d => Ok (match lookup k d with Some _ => true | None => false end)
  | JList l => Ok (existsb (is_str k) l)
  | JStr s => Ok (PyStr.contains k s)
  | _ => Raise TypeError
  end.

(** [v[k]] for a string [k]. *)
Definition getitem (k : string) (v : json) : exc json :=
  match v with
  | JObj d => match lookup k d with Some x => Ok x | None => Raise KeyError end
  | _ => Raise TypeError
  end.

(** [v[0]] *)
Definition getitem0 (v : json) : exc json :=
  match v with
  | JList (x :: _) => Ok x
  | JList [] => Raise IndexError
  | JStr (String c _) => Ok (JStr (String c EmptyString))
  | JStr EmptyString => Raise IndexError
  | JObj _ => Raise KeyError
  | _ => Raise TypeError
  end.

(** [v.get(k, dflt)] *)
Definition get (k : string) (dflt : json) (v : json) : exc json :=
  match v with
  | JObj d => Ok (match lookup k d with Some x => x | None => dflt end)
  | _ => Raise AttributeError
  end.

End Py.

(* ------------------------------------------------------------------ *)
(** * Key rotator: [ImageGeneratorState] *)

Record ImageGeneratorState : Type := mkState {
  last_saved_image : option string * option string;
  api_key_index : nat
}.

(** [ImageGeneratorState.__init__] *)
Definition init_state : ImageGeneratorState :=
  {| last_saved_image := (None, None); api_key_index := 0 |}.

(** [get_next_api_key]: the key under the cursor; [ValueError] on an
    empty list. *)
Definition get_next_api_key (api_keys : list string)
    (st : ImageGeneratorState) : exc string :=
  match api_keys with
  | [] => Raise ValueError
  | _ :: _ =>
      match nth_error api_keys (api_key_index st mod List.length api_keys) with
      | Some current_key => Ok current_key
      | None => Raise IndexError
      end
  end.

(** [rotate_to_next_api_key] *)
Definition rotate_to_next_api_key (api_keys : list string)
    (st : ImageGeneratorState) : ImageGeneratorState :=
  if 1 <? List.length api_keys then
    {| last_saved_image := last_saved_image st;
       api_key_index := (api_key_index st + 1) mod List.length api_keys |}
  else st.

(** [update_saved_image] *)
Definition update_saved_image (url path : string)
    (st : ImageGeneratorState) : ImageGeneratorState :=
  {| last_saved_image := (Some url, Some path);
     api_key_index := api_key_index st |}.

(** [get_saved_image_info] *)
Definition get_saved_image_info (st : ImageGeneratorState)
    : option string * option string :=
  last_saved_image st.

(* ------------------------------------------------------------------ *)
(** * Credential normalization *)

Section Normalize.

(** [str(v)] of a list or a dict is its [repr]; the sources never look
    inside it. *)
Variable py_repr : json -> string.

(** [str(v)] *)
Definition py_str (v : json) : string :=
  match v with
  | JNull => "None"
  | JBool true => "True"
  | JBool false => "False"
  | JNum n => PyStr.of_Z n
  | JStr s => s
  | JList _ | JObj _ => py_repr v
  end.

(** [item is None] negated. *)
Definition not_null (v : json) : bool :=
  match v with JNull => false | _ => true end.

(** [keys.append(k)] guarded by [if k:] *)
Definition append_if_nonempty (keys : list string) (k : string)
    : list string :=
  if PyStr.truthy k then keys ++ [k] else keys.

(** [MyPlugin._normalize_api_keys] *)
Definition _normalize_api_keys (value : json) : list string :=
  match value with
  | JNull => []
  | JStr s =>
      fold_left
        (fun keys part => append_if_nonempty keys (PyStr.strip part))
        (PyStr.split "," s) []
  | JList l =>
      fold_left
        (fun keys item =>
           match item with
           | JNull => keys
           | _ => append_if_nonempty keys (PyStr.strip (py_str item))
           end)
        l []
  | _ => []
  end.

(** The key list [generate_image_openai] builds from its [api_key]
    argument. *)
Definition client_api_keys (api_key : json) : list string :=
  match api_key with
  | JList l =>
      filter PyStr.truthy (map (fun k => PyStr.strip (py_str k)) l)
  | _ =>
      if Py.truthy api_key then [PyStr.strip (py_str api_key)] else []
  end.

End Normalize.

(* ------------------------------------------------------------------ *)
(** * The two response patterns *)

Module Re.

(** The fragment of [re] the two module-level patterns use: a sequence
    of character classes, each taken once, optionally, or greedily one
    or more times. *)
Inductive quant : Type := One | Opt | Plus.

Record item : Type := mkItem { accepts : ascii -> bool; rep : quant }.

Definition regex : Type := list item.

(** Backtracking match anchored at the start of [s]; the result is the
    matched text. Greedy: the longest repetition is tried first. *)
Fixpoint match_here (r : regex) (s : string) {struct r} : option string :=
  match r with
  | [] => Some EmptyString
  | it :: r' =>
      match rep it with
      | One =>
          match s with
          | String c s' =>
              if accepts it c
              then option_map (String c) (match_here r' s')
              else None
          | EmptyString => None
          end
      | Opt =>
          match s with
          | String c s' =>
              if accepts it c then
                match match_here r' s' with
                | Some m => Some (String c m)
                | None => match_here r' s
                end
              else match_here r' s
          | EmptyString => match_here r' s
          end
      | Plus =>
          (fix more (s : string) : option string :=
             match s with
             | String c s' =>
                 if accepts it c then
                   match more s' with
                   | Some m => Some (String c m)
                   | None => option_map (String c) (match_here r' s')
                   end
                 else None
             | EmptyString => None
             end) s
      end
  end.

(** [pattern.search(s).group(1)] when the whole pattern is one group:
    the leftmost match. *)
Fixpoint search (r : regex) (s : string) : option string :=
  match match_here r s with
  | Some m => Some m
  | None =>
      match s with
      | EmptyString => None
      | String _ s' => search r s'
      end
  end.

Fixpoint lit (s : string) : regex :=
  match s with
  | EmptyString => []
  | String c s' => mkItem (Ascii.eqb c) One :: lit s'
  end.

Definition in_range (lo hi : nat) (c : ascii) : bool :=
  (lo <=? nat_of_ascii c) && (nat_of_ascii c <=? hi).

Definition alnum (c : ascii) : bool :=
  in_range 97 122 c || in_range 65 90 c || in_range 48 57 c.

Definition one_of (s : string) (c : ascii) : bool :=
  existsb (Ascii.eqb c) (list_ascii_of_string s).

End Re.

(** [[a-zA-Z0-9.+-]] *)
Definition mime_char (c : ascii) : bool := Re.alnum c || Re.one_of ".+-" c.

(** [[A-Za-z0-9+/=]] *)
Definition b64_char (c : ascii) : bool := Re.alnum c || Re.one_of "+/=" c.

(** [[^\s)]] *)
Definition url_char (c : ascii) : bool :=
  negb (PyStr.is_space c || Ascii.eqb c ")").

(** [(data:image/[a-zA-Z0-9.+-]+;base64,[A-Za-z0-9+/=]+)] *)
Definition _DATA_URL_PATTERN : Re.regex :=
  Re.lit "data:image/" ++ [Re.mkItem mime_char Re.Plus]
  ++ Re.lit ";base64," ++ [Re.mkItem b64_char Re.Plus].

(** [(https?://[^\s)]+)] *)
Definition _HTTP_URL_PATTERN : Re.regex :=
  Re.lit "http" ++ [Re.mkItem (Ascii.eqb "s") Re.Opt]
  ++ Re.lit "://" ++ [Re.mkItem url_char Re.Plus].

(* ------------------------------------------------------------------ *)
(** * Request builder *)

Definition nl : string := String (ascii_of_nat 10) EmptyString.

(** The instruction text of the [messages] format. *)
Definition instruction (prompt : string) : string :=
  ("Generate an image based on the following description, and respond with either a direct image URL "
   ++ "or a single data:image/*;base64,... string." ++ nl ++ nl
   ++ "Description: " ++ prompt)%string.

(** A reference image as the data URL both formats start from. *)
Definition as_data_url (base64_image : string) : string :=
  if PyStr.startswith "data:image/" base64_image then base64_image
  else ("data:image/png;base64," ++ base64_image)%string.

Definition text_entry (prompt : string) : json :=
  JObj [("type", JStr "text"); ("text", JStr (instruction prompt))].

Definition image_entry (base64_image : string) : json :=
  JObj [("type", JStr "image_url");
        ("image_url", JObj [("url", JStr (as_data_url base64_image))])].

Definition inline_part (base64_image : string) : json :=
  JObj [("inline_data",
         JObj [("mime_type", JStr "image/png");
               ("data", JStr (last (PyStr.split1 "," (as_data_url base64_image))
                                   EmptyString))])].

(** [mode = (api_format or "openai").lower()] *)
Definition mode_of (api_format : option string) : string :=
  PyStr.lower
    (match api_format with
     | Some f => if PyStr.truthy f then f else "openai"
     | None => "openai"
     end).

Definition is_openai (mode : string) : bool := String.eqb mode "openai".

(** [input_images] is [None] or a list; both [None] and [[]] are falsy. *)
Definition images_of (input_images : option (list string)) : list string :=
  match input_images with Some l => l | None => [] end.

(** The [messages]-format content: the list built by the appends, then
    collapsed to the bare text when it has one element. *)
Definition openai_content (prompt : string)
    (input_images : option (list string)) : json :=
  let message_content :=
    fold_left (fun acc base64_image => acc ++ [image_entry base64_image])
              (images_of input_images) [text_entry prompt] in
  if List.length message_content =? 1 then JStr (instruction prompt)
  else JList message_content.

(** The request body. *)
Definition build_payload (mode model prompt : string)
    (input_images : option (list string)) : json :=
  if is_openai mode then
    JObj [("model", JStr model);
          ("messages",
           JList [JObj [("role", JStr "user");
                        ("content", openai_content prompt input_images)]])]
  else
    let parts :=
      fold_left (fun acc base64_image => acc ++ [inline_part base64_image])
                (images_of input_images) [JObj [("text", JStr prompt)]] in
    JObj [("model", JStr model);
          ("contents",
           JList [JObj [("role", JStr "user"); ("parts", JList parts)]])].

(** The request URL. *)
Definition build_url (mode model : string) (api_base : option string)
    : string :=
  let base_url :=
    PyStr.rstrip_char "/"
      (match api_base with
       | Some b => if PyStr.truthy b then b else "https://api.openai.com"
       | None => "https://api.openai.com"
       end) in
  if is_openai mode then (base_url ++ "/v1/chat/completions")%string
  else if PyStr.contains "v1beta" base_url then base_url
  else (base_url ++ "/v1beta/models/" ++ model ++ ":generateContent")%string.

(* ------------------------------------------------------------------ *)
(** * Response extractor *)

(** The three locals the extractor fills: [image_url] and
    [base64_string] start as [None], [image_format] as ["png"]. *)
Record found : Type := mkFound {
  image_url : json;
  image_format : string;
  base64_string : json
}.

Definition nothing_found : found :=
  {| image_url := JNull; image_format := "png"; base64_string := JNull |}.

Definition set_base64 (fmt payload : string) (f : found) : found :=
  {| image_url := image_url f; image_format := fmt;
     base64_string := JStr payload |}.

Definition set_url (u : json) (f : found) : found :=
  {| image_url := u; image_format := image_format f;
     base64_string := base64_string f |}.

(** The body of each [try] that takes a data URL apart:
    [header, base64_part = text.split(",", 1)] and
    [header.split("/")[1].split(";")[0]]. *)
Definition parse_data_url (text : string) : exc (string * string) :=
  match PyStr.split1 "," text with
  | [header; base64_part] =>
      match nth_error (PyStr.split "/" header) 1 with
      | Some sub =>
          match PyStr.split ";" sub with
          | fmt :: _ => Ok (fmt, base64_part)
          | [] => Raise IndexError
          end
      | None => Raise IndexError
      end
  | _ => Raise ValueError
  end.

(** [try: ... except Exception: logger.warning(...)] around it. *)
Definition try_data_url (text : string) (f : found) : found :=
  match parse_data_url text with
  | Ok (fmt, payload) => set_base64 fmt payload f
  | Raise _ => f
  end.

(** [isinstance(content, str)] branch. *)
Definition extract_from_string (content : string) (f : found) : found :=
  let text := PyStr.strip content in
  if PyStr.startswith "data:image/" text then try_data_url text f
  else if PyStr.startswith "http://" text || PyStr.startswith "https://" text
  then set_url (JStr text) f
  else
    match Re.search _DATA_URL_PATTERN text with
    | Some candidate => try_data_url candidate f
    | None =>
        match Re.search _HTTP_URL_PATTERN text with
        | Some u => set_url (JStr u) f
        | None => f
        end
    end.

(** [item.get("type") in {"image_url", "output_image"}]: a list or a
    dict is unhashable. *)
Definition is_image_type (ty : json) : exc bool :=
  match ty with
  | JStr s => Ok (String.eqb s "image_url" || String.eqb s "output_image")
  | JList _ | JObj _ => Raise TypeError
  | _ => Ok false
  end.

(** The [candidate] of one entry: [Some c] when the entry is a dict of
    an image type whose [image_url] (or [url]) leads to a non-empty
    string [c], [None] when the entry is passed over. *)
Definition candidate_of (item : json) : exc (option string) :=
  match item with
  | JObj _ =>
      (ty <- Py.get "type" JNull item;;
       is_img <- is_image_type ty;;
       if is_img then
         first <- Py.get "image_url" JNull item;;
         second <- Py.get "url" JNull item;;
         let url_obj := if Py.truthy first then first else second in
         candidate <- match url_obj with
                      | JObj _ => Py.get "url" JNull url_obj
                      | _ => Ok url_obj
                      end;;
         match candidate with
         | JStr c => Ok (if PyStr.truthy c then Some c else None)
         | _ => Ok None
         end
       else Ok None)%exc
  | _ => Ok None
  end.

(** One iteration of [for item in content]; the flag says [break]. *)
Definition scan_item (item : json) (f : found) : exc (found * bool) :=
  (candidate <- candidate_of item;;
   match candidate with
   | Some c =>
       if PyStr.startswith "data:image/" c
       then Ok (try_data_url c f, false)
       else Ok (set_url (JStr c) f, true)
   | None => Ok (f, false)
   end)%exc.

(** [isinstance(content, list)] branch. *)
Fixpoint extract_from_list (content : list json) (f : found) : exc found :=
  match content with
  | [] => Ok f
  | item :: rest =>
      ('(f', brk) <- scan_item item f;;
       if brk then Ok f' else extract_from_list rest f')%exc
  end.

(** The [data[0]] fallback. *)
Definition data_fallback (data : json) (f : found) : exc found :=
  if negb (Py.truthy (image_url f)) && negb (Py.truthy (base64_string f))
  then
    (has_data <- Py.contains "data" data;;
     if has_data then
       d <- Py.getitem "data" data;;
       if Py.truthy d then
         item0 <- Py.getitem0 d;;
         has_url <- Py.contains "url" item0;;
         if has_url then
           u <- Py.getitem "url" item0;;
           Ok (set_url u f)
         else
           has_b64 <- Py.contains "b64_json" item0;;
           if has_b64 then
             b <- Py.getitem "b64_json" item0;;
             Ok {| image_url := image_url f; image_format := "png";
                   base64_string := b |}
           else Ok f
       else Ok f
     else Ok f)%exc
  else Ok f.

(** [response.status == 200 and "choices" in data and data["choices"]] *)
Definition has_choices (status : Z) (data : json) : exc bool :=
  if Z.eqb status 200 then
    (has <- Py.contains "choices" data;;
     if has then
       choices <- Py.getitem "choices" data;;
       Ok (Py.truthy choices)
     else Ok false)%exc
  else Ok false.

(** Everything between the test on [choices] and the saving of the
    image. *)
Definition extract (data : json) : exc found :=
  (choices <- Py.getitem "choices" data;;
   choice <- Py.getitem0 choices;;
   message <- Py.get "message" (JObj []) choice;;
   content <- Py.get "content" JNull message;;
   f <- match content with
        | JStr s => Ok (extract_from_string s nothing_found)
        | JList l => extract_from_list l nothing_found
        | _ => Ok nothing_found
        end;;
   data_fallback data f)%exc.

(* ------------------------------------------------------------------ *)
(** * The world the client runs in *)

Inductive level : Type := DEBUG | INFO | WARNING | ERROR.

(** One constructor per [logger] call site (the extractor's warnings,
    which change nothing else, are left out). *)
Inductive log_site : Type :=
| CleanedUp (name : string)
| CleanupFileError (name : string)
| ImageSaved (path : string)
| FileSize (n : nat)
| Base64DecodeFailed
| SaveFailed
| RotatedTo (index : nat)
| NoApiKey
| Retrying (retry_attempt : nat) (delay : nat)
| ResponseStatus (status : Z)
| ResponseKeys
| DownloadSucceeded (path : string)
| DownloadFailed (url : string)
| Base64Succeeded
| NoImageData
| ApiError (retry_attempt : nat)
| NetworkFailed (retry_attempt : nat)
| UnexpectedException
| RetriesExhausted.

Inductive event : Type :=
| Log (lv : level) (site : log_site)
| Post (retry_attempt : nat) (url : string) (current_key : string)
| Sleep (delay : nat)
| Rotate
| Get (url : string).

Record file : Type := mkFile {
  f_name : string;
  f_mtime : Z;
  f_data : string
}.

(** The module-level [_state], the images directory and what has
    happened so far (oldest event first). *)
Record world : Type := mkWorld {
  state : ImageGeneratorState;
  dir_exists : bool;
  files : list file;
  trace : list event
}.

Inductive post_outcome : Type :=
| PostRaise (e : exn)
| PostResponse (status : Z) (data : json).

Inductive get_outcome : Type :=
| GetRaise (e : exn)
| GetResponse (status : Z) (body : string).

(** What the outside answers during one attempt: the clock, the file
    system, the name generator and the two HTTP peers. *)
Record io : Type := mkIo {
  io_now : Z;
  io_mkdir_ok : bool;
  io_unlink_ok : string -> bool;
  io_stem : string;
  io_write_ok : bool;
  io_post : string -> json -> string -> post_outcome;
  io_get : string -> get_outcome
}.

(** State and exceptions together. *)
Definition M (A : Type) : Type := world -> world * exc A.

Definition ret {A} (a : A) : M A := fun w => (w, Ok a).

Definition raise {A} (e : exn) : M A := fun w => (w, Raise e).

Definition bindM {A B} (m : M A) (k : A -> M B) : M B :=
  fun w =>
    match m w with
    | (w', Ok a) => k a w'
    | (w', Raise e) => (w', Raise e)
    end.

Definition lift {A} (x : exc A) : M A := fun w => (w, x).

Declare Scope io_scope.
Delimit Scope io_scope with io.
Notation "x <- m ;; k" := (bindM m (fun x => k))
  (at level 61, m at next level, right associativity) : io_scope.
Notation "m ;;; k" := (bindM m (fun _ => k))
  (at level 61, right associativity) : io_scope.

Definition emit (e : event) : M unit :=
  fun w => ({| state := state w; dir_exists := dir_exists w;
               files := files w; trace := trace w ++ [e] |}, Ok tt).

Definition log (lv : level) (site : log_site) : M unit := emit (Log lv site).

Definition modify_state (g : ImageGeneratorState -> ImageGeneratorState)
    : M unit :=
  fun w => ({| state := g (state w); dir_exists := dir_exists w;
               files := files w; trace := trace w |}, Ok tt).

Definition set_files (fs : list file) : M unit :=
  fun w => ({| state := state w; dir_exists := dir_exists w;
               files := fs; trace := trace w |}, Ok tt).

(** [except Exception] with a handler that cannot fail. *)
Definition catch {A} (m : M A) (h : exn -> world -> world * A)
    : world -> world * A :=
  fun w =>
    match m w with
    | (w', Ok a) => (w', a)
    | (w', Raise e) => h e w'
    end.

(** The module-level [rotate_to_next_api_key]: the call is recorded,
    the cursor moves only with more than one key. *)
Definition rotate (api_keys : list string) : M unit :=
  (emit Rotate;;;
   modify_state (rotate_to_next_api_key api_keys);;;
   if 1 <? List.length api_keys
   then fun w => log INFO (RotatedTo (api_key_index (state w))) w
   else ret tt)%io.

(* ------------------------------------------------------------------ *)
(** * Image store *)

Definition endswith (suffix s : string) : bool :=
  (String.length suffix <=? String.length s)
  && String.eqb suffix
       (substring (String.length s - String.length suffix)
                  (String.length suffix) s).

(** [fnmatch] for a pattern [prefix*suffix]. *)
Definition glob_match (pat : string * string) (name : string) : bool :=
  let (prefix, suffix) := pat in
  PyStr.startswith prefix name && endswith suffix name
  && (String.length prefix + String.length suffix <=? String.length name).

Definition image_patterns : list (string * string) :=
  [("gemini_image_", ".png"); ("gemini_image_", ".jpg");
   ("gemini_image_", ".jpeg"); ("openai_image_", ".png");
   ("openai_image_", ".jpg"); ("openai_image_", ".jpeg")].

(** Retention window, in seconds. *)
Definition retention : Z := 15 * 60.

Section Store.

Variable env : io.

(** The inner [for file_path in images_dir.glob(pattern)]. *)
Fixpoint sweep (pat : string * string) (todo : list file)
    (kept : list file) (logs : list event) : list file * list event :=
  match todo with
  | [] => (kept, logs)
  | f :: rest =>
      if glob_match pat (f_name f) then
        if Z.ltb (f_mtime f) (io_now env - retention) then
          if io_unlink_ok env (f_name f)
          then sweep pat rest kept
                 (logs ++ [Log INFO (CleanedUp (f_name f))])
          else sweep pat rest (kept ++ [f])
                 (logs ++ [Log WARNING (CleanupFileError (f_name f))])
        else sweep pat rest (kept ++ [f]) logs
      else sweep pat rest (kept ++ [f]) logs
  end.

(** [cleanup_old_images]: never raises. *)
Definition cleanup_old_images : M unit :=
  fun w =>
    if negb (dir_exists w) then (w, Ok tt)
    else
      let (fs, logs) :=
        fold_left
          (fun acc pat => sweep pat (fst acc) [] (snd acc))
          image_patterns (files w, []) in
      ({| state := state w; dir_exists := dir_exists w; files := fs;
          trace := trace w ++ logs |}, Ok tt).

(** [images_dir.mkdir(exist_ok=True)] *)
Definition mkdir : M unit :=
  fun w =>
    if io_mkdir_ok env
    then ({| state := state w; dir_exists := true; files := files w;
             trace := trace w |}, Ok tt)
    else (w, Raise OSError).

(** [async with aiofiles.open(path, "wb") as f: await f.write(data)] *)
Definition write_file (name data : string) : M unit :=
  fun w =>
    if io_write_ok env
    then ({| state := state w; dir_exists := dir_exists w;
             files :=
               filter (fun f => negb (String.eqb (f_name f) name)) (files w)
               ++ [mkFile name (io_now env) data];
             trace := trace w |}, Ok tt)
    else (w, Raise OSError).

(** [base64.b64decode] is taken as given; [images_dir] is the string of
    [Path(__file__).parent.parent / "images"] and [absolute] is
    [Path.absolute]. *)
Variable b64decode : string -> exc string.
Variable images_dir : string.
Variable absolute : string -> string.

Definition path_of (name : string) : string :=
  (images_dir ++ "/" ++ name)%string.

Definition file_url_of (image_path : string) : string :=
  ("file://" ++ absolute image_path)%string.

(** [base64.b64decode(base64_string)]: only a [str] is decoded. *)
Definition decode_payload (base64_string : json) : exc string :=
  match base64_string with
  | JStr s => b64decode s
  | _ => Raise TypeError
  end.

(** Name of the file an inline image is saved under. *)
Definition gemini_name (image_format : string) : string :=
  ("gemini_image_" ++ io_stem env ++ "." ++ image_format)%string.

(** The [try] block of [save_base64_image]. *)
Definition save_base64_image_body (base64_string : json)
    (image_format : string) : M bool :=
  (mkdir;;;
   cleanup_old_images;;;
   image_data <- lift (decode_payload base64_string);;
   let name := gemini_name image_format in
   let image_path := path_of name in
   write_file name image_data;;;
   modify_state (update_saved_image (file_url_of image_path) image_path);;;
   log INFO (ImageSaved (absolute image_path));;;
   log DEBUG (FileSize (String.length image_data));;;
   ret true)%io.

(** [save_base64_image] *)
Definition save_base64_image (base64_string : json) (image_format : string)
    : world -> world * bool :=
  catch (save_base64_image_body base64_string image_format)
        (fun e w =>
           match e with
           | Base64Error => (fst (log ERROR Base64DecodeFailed w), false)
           | _ => (fst (log ERROR SaveFailed w), false)
           end).

End Store.

(* ------------------------------------------------------------------ *)
(** * Generation client *)

(** What [generate_image_openai] returns: [(image_url, image_path)],
    [(None, None)] on failure. *)
Definition result : Type := (option string * option string)%type.

Definition no_result : result := (None, None).

(** How one pass through the loop body ends. *)
Inductive outcome : Type :=
| Return (r : result)
| Next.

(** [data.get("error", {}).get("message", f"HTTP {status}")], or the
    bare status line when [data] is not a dict. *)
Definition error_message (status : Z) (data : json) : exc json :=
  let http := JStr ("HTTP " ++ PyStr.of_Z status)%string in
  match data with
  | JObj _ =>
      (err <- Py.get "error" (JObj []) data;;
       Py.get "message" http err)%exc
  | _ => Ok http
  end.

Section Client.

(** The outside, attempt by attempt. *)
Variable env : nat -> io.
Variable b64decode : string -> exc string.
Variable images_dir : string.
Variable absolute : string -> string.

Variable url : string.
Variable payload : json.
Variable api_keys : list string.

(** [if image_url:] with its [session.get]. [None] is falling out of
    the [if]. *)
Definition download (a : nat) (image_url : json) : M (option result) :=
  if Py.truthy image_url then
    match image_url with
    | JStr u =>
        (emit (Get u);;;
         match io_get (env a) u with
         | GetRaise e => raise e
         | GetResponse status body =>
             if Z.eqb status 200 then
               mkdir (env a);;;
               cleanup_old_images (env a);;;
               let name := ("openai_image_" ++ io_stem (env a) ++ ".png")%string in
               let image_path := path_of images_dir name in
               write_file (env a) name body;;;
               modify_state
                 (update_saved_image (file_url_of absolute image_path)
                                     image_path);;;
               log INFO (DownloadSucceeded (absolute image_path));;;
               ret (Some (Some (file_url_of absolute image_path),
                          Some image_path))
             else
               log ERROR (DownloadFailed u);;;
               ret None
         end)%io
    | _ => raise TypeError
    end
  else ret None.

(** [if base64_string:] with its [save_base64_image]. *)
Definition save_inline (a : nat) (base64_string : json)
    (image_format : string) : M (option result) :=
  if Py.truthy base64_string then
    (saved <- (fun w =>
                 let (w', ok) :=
                   save_base64_image (env a) b64decode images_dir absolute
                                     base64_string image_format w in
                 (w', Ok ok));;
     if saved then
       log INFO Base64Succeeded;;;
       fun w => (w, Ok (Some (get_saved_image_info (state w))))
     else ret None)%io
  else ret None.

(** The branch taken when the body has usable [choices]. *)
Definition on_choices (a : nat) (data : json) : M outcome :=
  (f <- lift (extract data);;
   downloaded <- download a (image_url f);;
   match downloaded with
   | Some r => ret (Return r)
   | None =>
       saved <- save_inline a (base64_string f) (image_format f);;
       match saved with
       | Some r => ret (Return r)
       | None => log INFO NoImageData;;; ret (Return no_result)
       end
   end)%io.

(** The pass up to the request: the key under the cursor, the backoff
    on every pass but the first, and the [session.post]. *)
Definition before_post (a : nat) : M string :=
  (current_key <- (fun w => (w, get_next_api_key api_keys (state w)));;
   (if 0 <? a then
      let delay := Nat.min (2 ^ a) 10 in
      log INFO (Retrying a delay);;; emit (Sleep delay)
    else ret tt);;;
   emit (Post a url current_key);;;
   ret current_key)%io.

(** The statements after the [if] on [choices]: the provider error. *)
Definition on_error (a : nat) (status : Z) (data : json) : M outcome :=
  (_ <- lift (error_message status data);;
   log WARNING (ApiError a);;;
   rotate api_keys;;;
   ret Next)%io.

(** The pass once the JSON body is there. *)
Definition after_post (a : nat) (status : Z) (data : json) : M outcome :=
  ((if a =? 0 then
      log DEBUG (ResponseStatus status);;;
      match data with
      | JObj _ => log DEBUG ResponseKeys
      | _ => ret tt
      end
    else ret tt);;;
   ok <- lift (has_choices status data);;
   if ok then on_choices a data else on_error a status data)%io.

(** The [try] block of one pass. *)
Definition attempt_body (a : nat) : M outcome :=
  (current_key <- before_post a;;
   match io_post (env a) url payload current_key with
   | PostRaise e => raise e
   | PostResponse status data => after_post a status data
   end)%io.

(** The two [except] clauses: both rotate and let the loop go on. *)
Definition on_exception (a : nat) (e : exn) (w : world) : world * outcome :=
  match e with
  | NetworkError =>
      (fst ((log WARNING (NetworkFailed a);;; rotate api_keys)%io w), Next)
  | _ =>
      (fst ((log ERROR UnexpectedException;;; rotate api_keys)%io w), Next)
  end.

(** One pass of the loop. *)
Definition attempt (a : nat) : world -> world * outcome :=
  catch (attempt_body a) (on_exception a).

(** [for retry_attempt in range(max_retry_attempts)] and what follows
    it. *)
Fixpoint retry_loop (attempts : list nat) (w : world) : world * result :=
  match attempts with
  | [] => (fst (log ERROR RetriesExhausted w), no_result)
  | a :: rest =>
      match attempt a w with
      | (w', Return r) => (w', r)
      | (w', Next) => retry_loop rest w'
      end
  end.

Definition attempts_of (n : Z) : list nat := seq 0 (Z.to_nat n).

End Client.

(** [generate_image_openai] *)
Definition generate_image_openai
    (env : nat -> io) (py_repr : json -> string)
    (b64decode : string -> exc string)
    (images_dir : string) (absolute : string -> string)
    (prompt : string) (api_key : json) (model : string)
    (input_images : option (list string)) (api_base : option string)
    (api_format : option string) (max_retry_attempts : Z)
    (w : world) : world * result :=
  let mode := mode_of api_format in
  let api_keys := client_api_keys py_repr api_key in
  match api_keys with
  | [] => (fst (log ERROR NoApiKey w), no_result)
  | _ :: _ =>
      retry_loop env b64decode images_dir absolute
        (build_url mode model api_base)
        (build_payload mode model prompt input_images)
        api_keys (attempts_of max_retry_attempts) w
  end.

(* ------------------------------------------------------------------ *)
(** * Reading a trace *)

Definition is_post (e : event) : bool :=
  match e with Post _ _ _ => true | _ => false end.

Definition is_rotate (e : event) : bool :=
  match e with Rotate => true | _ => false end.

Definition is_log (e : event) : bool :=
  match e with Log _ _ => true | _ => false end.

(** Number of requests sent to the provider. *)
Definition posts (t : list event) : nat := List.length (filter is_post t).

(** Number of calls of [rotate_to_next_api_key]. *)
Definition rotations (t : list event) : nat :=
  List.length (filter is_rotate t).

(** A provider answer that is not a usable 200. *)
Definition provider_fails (p : post_outcome) : Prop :=
  match p with
  | PostRaise _ => True
  | PostResponse status _ => status <> 200%Z
  end.


(* ------------------------------------------------------------------ *)
(** * What the patterns mean *)

(** The texts a pattern accepts, without any matching strategy. *)
Inductive matches : Re.regex -> string -> Prop :=
| matches_nil : matches [] EmptyString
| matches_one it r c m :
    Re.rep it = Re.One -> Re.accepts it c = true -> matches r m ->
    matches (it :: r) (String c m)
| matches_opt_skip it r m :
    Re.rep it = Re.Opt -> matches r m -> matches (it :: r) m
| matches_opt_take it r c m :
    Re.rep it = Re.Opt -> Re.accepts it c = true -> matches r m ->
    matches (it :: r) (String c m)
| matches_plus_last it r c m :
    Re.rep it = Re.Plus -> Re.accepts it c = true -> matches r m ->
    matches (it :: r) (String c m)
| matches_plus_more it r c m :
    Re.rep it = Re.Plus -> Re.accepts it c = true -> matches (it :: r) m ->
    matches (it :: r) (String c m).

(** [m] occurs in [s]. *)
Definition embedded (m s : string) : Prop :=
  exists pre post, s = (pre ++ m ++ post)%string.

(** Every character of [s] satisfies [p]. *)
Fixpoint all_chars (p : ascii -> bool) (s : string) : bool :=
  match s with
  | EmptyString => true
  | String c s' => p c && all_chars p s'
  end.

(** A data-image URI with format [fmt] and base64 payload [payload]. *)
Definition data_uri (fmt payload : string) : string :=
  ("data:image/" ++ fmt ++ ";base64," ++ payload)%string.

(** A character that ends neither the media type nor the header. *)
Definition fmt_char (c : ascii) : bool :=
  negb (Re.one_of "/;," c).

(** A character other than the separator [sep]. *)
Definition differs (sep : ascii) (c : ascii) : bool := negb (Ascii.eqb c sep).

Definition starts_http (text : string) : bool :=
  PyStr.startswith "http://" text || PyStr.startswith "https://" text.

(** The entry is a dict whose [type] is one of the two image types. *)
Definition declares_image (item : json) : bool :=
  match item with
  | JObj d =>
      match Py.lookup "type" d with
      | Some (JStr s) => String.eqb s "image_url" || String.eqb s "output_image"
      | _ => false
      end
  | _ => false
  end.

(** From [w] to [w'] nothing was sent and no rotation was asked for:
    the trace grew by log lines only. *)
Definition only_logged (w w' : world) : Prop :=
  exists logs, trace w' = trace w ++ logs /\ forallb is_log logs = true.

(** The image URL of [f] is fetched and the answer is not a 200. *)
Definition download_fails (e : io) (f : found) : Prop :=
  exists u status body,
    image_url f = JStr u /\ u <> ""
    /\ io_get e u = GetResponse status body /\ status <> 200%Z.

(** The inline payload of [f] is handed to [save_base64_image], which
    cannot make the directory, decode the payload or write the file. *)
Definition inline_save_fails (e : io) (b64decode : string -> exc string)
    (f : found) : Prop :=
  Py.truthy (base64_string f) = true
  /\ (io_mkdir_ok e = false
      \/ (exists x, decode_payload b64decode (base64_string f) = Raise x)
      \/ io_write_ok e = false).

(** An image reference was extracted and could not be persisted. *)
Definition persisting_fails (e : io) (b64decode : string -> exc string)
    (f : found) : Prop :=
  (download_fails e f
   /\ (Py.truthy (base64_string f) = false \/ inline_save_fails e b64decode f))
  \/ (Py.truthy (image_url f) = false /\ inline_save_fails e b64decode f).

(** An answer the loop treats as a provider error. *)
Definition not_usable (p : post_outcome) : Prop :=
  match p with
  | PostRaise _ => True
  | PostResponse status data => has_choices status data <> Ok true
  end.

(* ------------------------------------------------------------------ *)
(** * Sample surroundings for the worked cases *)

(** A process just started: [_state] as constructed, no images
    directory yet, nothing done. *)
Definition fresh_world : world :=
  {| state := init_state; dir_exists := false; files := []; trace := [] |}.

(** A working file system, a provider that always answers [p] and an
    image host that always answers [g]. *)
Definition io_with (p : post_outcome) (g : get_outcome) : io :=
  {| io_now := 1767225600;
     io_mkdir_ok := true;
     io_unlink_ok := fun _ => true;
     io_stem := "20260101_000000_0a1b2c3d";
     io_write_ok := true;
     io_post := fun _ _ _ => p;
     io_get := fun _ => g |}.

(** A chat-completion body with one choice. *)
Definition chat_response (content : json) : json :=
  JObj [("choices", JList [JObj [("message", JObj [("content", content)])]])].

(** A generate-content body with one candidate carrying an inline
    image. *)
Definition candidates_response : json :=
  JObj [("candidates",
         JList [JObj [("content",
                       JObj [("parts",
                              JList [JObj [("inlineData",
                                            JObj [("mimeType", JStr "image/png");
                                                  ("data", JStr "QUJD")])]])])]])].

(* ------------------------------------------------------------------ *)
(** * The plugin: configuration lists, group filter, rate limit *)

Section Plugin.

Variable py_repr : json -> string.

(** [MyPlugin._normalize_id_list] *)
Definition _normalize_id_list (value : json) : list string :=
  match value with
  | JNull => []
  | JStr s =>
      fold_left
        (fun ids part =>
           let gid := PyStr.strip part in
           if PyStr.truthy gid then ids ++ [gid] else ids)
        (PyStr.split "," s) []
  | JList l =>
      fold_left
        (fun ids item =>
           match item with
           | JNull => ids
           | _ =>
               let gid := PyStr.strip (py_str py_repr item) in
               if PyStr.truthy gid then ids ++ [gid] else ids
           end)
        l []
  | _ => []
  end.

(** [config.get(key, default)] on the plugin's [config] dict. *)
Definition config_get (key : string) (default : json)
    (config : list (string * json)) : json :=
  match Py.lookup key config with
  | Some v => v
  | None => default
  end.

(** [str(config.get("group_filter_mode", "none") or "none").strip().lower()]
    of [__init__]. *)
Definition group_filter_mode_of (config : list (string * json)) : string :=
  let v := config_get "group_filter_mode" (JStr "none") config in
  PyStr.lower
    (PyStr.strip (py_str py_repr (if Py.truthy v then v else JStr "none"))).

(** [self._normalize_id_list(config.get("group_filter_list"))] of
    [__init__]. *)
Definition group_filter_list_of (config : list (string * json))
    : list string :=
  _normalize_id_list (config_get "group_filter_list" JNull config).

(** [gid in self.group_filter_list] *)
Definition in_list (gid : string) (l : list string) : bool :=
  existsb (String.eqb gid) l.

(** The [try: event.get_group_id() except AttributeError: None] that
    opens both checks; any other exception goes on to the caller. *)
Definition group_id_of (get_group_id : exc json) : exc json :=
  match get_group_id with
  | Ok g => Ok g
  | Raise AttributeError => Ok JNull
  | Raise e => Raise e
  end.

(** [MyPlugin._is_group_allowed] (its log lines left out). *)
Definition _is_group_allowed (group_filter_mode : string)
    (group_filter_list : list string) (get_group_id : exc json) : exc bool :=
  (group_id <- group_id_of get_group_id;;
   if negb (Py.truthy group_id) then Ok true
   else
     let gid := py_str py_repr group_id in
     let mode :=
       if PyStr.truthy group_filter_mode then group_filter_mode else "none" in
     if String.eqb mode "whitelist" then Ok (in_list gid group_filter_list)
     else if String.eqb mode "blacklist"
     then Ok (negb (in_list gid group_filter_list))
     else Ok true)%exc.

(** ** Rate limit *)

(** [time.time()] gives a float; the limiter only ever asks whether
    [now - window_start >= period], which is kept as given. *)
Variable time : Type.
Variable elapsed_ge : time -> time -> Z -> bool.

(** [dict.get(key)] *)
Fixpoint dict_get {V} (key : string) (d : list (string * V)) : option V :=
  match d with
  | [] => None
  | (k, v) :: d' => if String.eqb key k then Some v else dict_get key d'
  end.

(** [d[key] = v]: the binding is replaced where it stands, or added at
    the end. *)
Fixpoint dict_set {V} (key : string) (v : V) (d : list (string * V))
    : list (string * V) :=
  match d with
  | [] => [(key, v)]
  | (k, x) :: d' =>
      if String.eqb key k then (k, v) :: d' else (k, x) :: dict_set key v d'
  end.

(** The three attributes the limiter reads and writes. *)
Record limiter : Type := mkLimiter {
  rate_limit_max_calls_per_group : Z;
  rate_limit_period_seconds : Z;
  _rate_limit_state : list (string * (time * Z))
}.

Definition with_state (self : limiter) (s : list (string * (time * Z)))
    : limiter :=
  {| rate_limit_max_calls_per_group := rate_limit_max_calls_per_group self;
     rate_limit_period_seconds := rate_limit_period_seconds self;
     _rate_limit_state := s |}.

(** [MyPlugin._check_and_consume_rate_limit]; [now] is what
    [time.time()] answers. *)
Definition _check_and_consume_rate_limit (self : limiter)
    (get_group_id : exc json) (now : time) : limiter * exc bool :=
  if (rate_limit_max_calls_per_group self <=? 0)%Z
     || (rate_limit_period_seconds self <=? 0)%Z
  then (self, Ok true)
  else
    match group_id_of get_group_id with
    | Raise e => (self, Raise e)
    | Ok group_id =>
        if negb (Py.truthy group_id) then (self, Ok true)
        else
          let gid := py_str py_repr group_id in
          let (window_start, count) :=
            match dict_get gid (_rate_limit_state self) with
            | Some entry => entry
            | None => (now, 0%Z)
            end in
          let (window_start, count) :=
            if elapsed_ge now window_start (rate_limit_period_seconds self)
            then (now, 0%Z) else (window_start, count) in
          if (rate_limit_max_calls_per_group self <=? count)%Z
          then (self, Ok false)
          else
            (with_state self
               (dict_set gid (window_start, (count + 1)%Z)
                         (_rate_limit_state self)),
             Ok true)
    end.

(** A run of calls, each with its event and its clock reading; the
    answers in order. A call that raises ends the run. *)
Fixpoint rate_limit_calls (self : limiter) (calls : list (exc json * time))
    : limiter * list bool :=
  match calls with
  | [] => (self, [])
  | (g, now) :: rest =>
      match _check_and_consume_rate_limit self g now with
      | (self', Ok b) =>
          let (self'', bs) := rate_limit_calls self' rest in (self'', b :: bs)
      | (self', Raise _) => (self', [])
      end
  end.

End Plugin.

Arguments rate_limit_max_calls_per_group {time} _.
Arguments rate_limit_period_seconds {time} _.
Arguments _rate_limit_state {time} _.
Arguments with_state {time} _ _.

(* ------------------------------------------------------------------ *)
(** * More ways to read a trace *)

(** The keys the requests were sent with, in order. *)
Definition sent_keys (t : list event) : list string :=
  flat_map (fun e => match e with Post _ _ k => [k] | _ => [] end) t.

(** The backoff delays, in order. *)
Definition sleeps (t : list event) : list nat :=
  flat_map (fun e => match e with Sleep d => [d] | _ => [] end) t.

(** [min(2 ** retry_attempt, 10)] *)
Definition backoff (retry_attempt : nat) : nat :=
  Nat.min (2 ^ retry_attempt) 10.

(** What makes the sweep delete a file: a known name, an age beyond
    the retention window and an [unlink] that goes through
    ([io_unlink_ok] answers for the whole inner [try]: a [stat] that
    raises keeps the file just as a failed [unlink] does). *)
Definition swept (env : io) (f : file) : bool :=
  existsb (fun pat => glob_match pat (f_name f)) image_patterns
  && Z.ltb (f_mtime f) (io_now env - retention)
  && io_unlink_ok env (f_name f).

(** Where a match stops: at the end of the text or before a character
    the class refuses. *)
Definition stops_at (acc : ascii -> bool) (post : string) : Prop :=
  match post with
  | EmptyString => True
  | String c _ => acc c = false
  end.

Definition is_dict (v : json) : bool :=
  match v with JObj _ => true | _ => false end.

(** Name of the file a downloaded image is saved under. *)
Definition openai_name (env : io) : string :=
  ("openai_image_" ++ io_stem env ++ ".png")%string.

(* ------------------------------------------------------------------ *)
(** * The global override layer *)

Module GlobalConfig.

(** The attributes [_load_global_config] reads and writes. *)
Record plugin : Type := mkPlugin {
  openai_api_keys : list string;
  openai_api_base : string;
  api_format : string;
  model_name : string;
  max_retry_attempts : Z;
  _global_config_loaded : bool
}.

Section Load.

Variable py_repr : json -> string.

(** [int(s)] for a [str]; [None] is [ValueError]. *)
Variable int_of_str : string -> option Z.

(** [int(v)] *)
Definition py_int (v : json) : exc Z :=
  match v with
  | JNum n => Ok n
  | JBool b => Ok (if b then 1%Z else 0%Z)
  | JStr s =>
      match int_of_str s with
      | Some n => Ok n
      | None => Raise ValueError
      end
  | JNull | JList _ | JObj _ => Raise TypeError
  end.

(** Attribute updates and exceptions together: what was assigned before
    an exception stays assigned. *)
Definition step : Type := plugin -> plugin * exc unit.

Definition seq_step (a b : step) : step :=
  fun self =>
    match a self with
    | (self', Ok _) => b self'
    | (self', Raise e) => (self', Raise e)
    end.

(** [if key in plugin_config: <assign from plugin_config[key]>] *)
Definition when_present (plugin_config : json) (key : string)
    (assign : json -> plugin -> plugin) : step :=
  fun self =>
    match Py.contains key plugin_config with
    | Raise e => (self, Raise e)
    | Ok false => (self, Ok tt)
    | Ok true =>
        match Py.getitem key plugin_config with
        | Raise e => (self, Raise e)
        | Ok v => (assign v self, Ok tt)
        end
    end.

(** [str(v).strip() or current] *)
Definition stripped_or (v : json) (current : string) : string :=
  let s := PyStr.strip (py_str py_repr v) in
  if PyStr.truthy s then s else current.

Definition set_model_name (v : json) (self : plugin) : plugin :=
  {| openai_api_keys := openai_api_keys self;
     openai_api_base := openai_api_base self;
     api_format := api_format self;
     model_name := stripped_or v (model_name self);
     max_retry_attempts := max_retry_attempts self;
     _global_config_loaded := _global_config_loaded self |}.

Definition set_api_keys (v : json) (self : plugin) : plugin :=
  {| openai_api_keys := _normalize_api_keys py_repr v;
     openai_api_base := openai_api_base self;
     api_format := api_format self;
     model_name := model_name self;
     max_retry_attempts := max_retry_attempts self;
     _global_config_loaded := _global_config_loaded self |}.

Definition set_api_base (v : json) (self : plugin) : plugin :=
  {| openai_api_keys := openai_api_keys self;
     openai_api_base := stripped_or v (openai_api_base self);
     api_format := api_format self;
     model_name := model_name self;
     max_retry_attempts := max_retry_attempts self;
     _global_config_loaded := _global_config_loaded self |}.

(** The inner [try: int(...) except (TypeError, ValueError)]. *)
Definition set_max_retry_attempts (v : json) (self : plugin) : plugin :=
  match py_int v with
  | Ok n =>
      {| openai_api_keys := openai_api_keys self;
         openai_api_base := openai_api_base self;
         api_format := api_format self;
         model_name := model_name self;
         max_retry_attempts := n;
         _global_config_loaded := _global_config_loaded self |}
  | Raise _ => self
  end.

Definition set_api_format (v : json) (self : plugin) : plugin :=
  let fmt := PyStr.lower (PyStr.strip (py_str py_repr v)) in
  if String.eqb fmt "openai" || String.eqb fmt "gemini" then
    {| openai_api_keys := openai_api_keys self;
       openai_api_base := openai_api_base self;
       api_format := fmt;
       model_name := model_name self;
       max_retry_attempts := max_retry_attempts self;
       _global_config_loaded := _global_config_loaded self |}
  else self.

Definition mark_loaded (self : plugin) : plugin :=
  {| openai_api_keys := openai_api_keys self;
     openai_api_base := openai_api_base self;
     api_format := api_format self;
     model_name := model_name self;
     max_retry_attempts := max_retry_attempts self;
     _global_config_loaded := true |}.

(** The five overrides, in the order of the source. *)
Definition overrides (plugin_config : json) : step :=
  seq_step (when_present plugin_config "model_name" set_model_name)
    (seq_step (when_present plugin_config "openai_api_key" set_api_keys)
       (seq_step (when_present plugin_config "openai_api_base" set_api_base)
          (seq_step
             (when_present plugin_config "max_retry_attempts"
                           set_max_retry_attempts)
             (when_present plugin_config "api_format" set_api_format)))).

(** [MyPlugin._load_global_config] (its log lines left out);
    [global_get] is what [sp.global_get] answers. *)
Definition _load_global_config (global_get : exc json) (self : plugin)
    : plugin :=
  if _global_config_loaded self then self
  else
    match global_get with
    | Raise _ => mark_loaded self
    | Ok plugin_config => mark_loaded (fst (overrides plugin_config self))
    end.

End Load.

End GlobalConfig.

(** Every counter a lookup can see lies between 1 and the limit. *)
Definition counts_bounded {time : Type} (limit : Z)
    (d : list (string * (time * Z))) : Prop :=
  forall gid window_start count,
    dict_get gid d = Some (window_start, count) ->
    (1 <= count <= limit)%Z.

(** The limiter as [__init__] leaves it: no group seen yet. *)
Definition fresh_limiter (time : Type) (max_calls period : Z)
    : limiter time :=
  {| rate_limit_max_calls_per_group := max_calls;
     rate_limit_period_seconds := period;
     _rate_limit_state := [] |}.

(** The window test on a clock that counts whole seconds. *)
Definition elapsed_ge_Z (now window_start period : Z) : bool :=
  (period <=? now - window_start)%Z.

(** The image URL is there and fetching or storing it raises: it is no
    string, the request itself fails, or the answer is a 200 whose
    bytes cannot be put on disk. *)
Definition download_breaks (e : io) (v : json) : Prop :=
  Py.truthy v = true
  /\ match v with
     | JStr u =>
         (exists x, io_get e u = GetRaise x)
         \/ (exists body,
               io_get e u = GetResponse 200 body
               /\ (io_mkdir_ok e = false \/ io_write_ok e = false))
     | _ => True
     end.

(** The description a text command works on: the explicit argument when
    there is one, else what follows the first space of the stripped
    [message_str] ([image_description] in [/生图], [edit_description]
    in [/改图]). *)
Definition description_from (explicit message_str : string) : string :=
  if PyStr.truthy explicit then explicit
  else
    match PyStr.split1 " " (PyStr.strip message_str) with
    | [_; rest] => PyStr.strip rest
    | _ => EmptyString
    end.
(* ------------------------------------------------------------------ *)
(** * Properties of the key rotator *)

Lemma get_next_api_key_nonempty (api_keys : list string)
    (st : ImageGeneratorState) :
  api_keys <> [] ->
  exists k,
    nth_error api_keys (api_key_index st mod List.length api_keys) = Some k
    /\ get_next_api_key api_keys st = Ok k.
Proof.
  intros Hne. unfold get_next_api_key.
  destruct api_keys as [|k0 rest]; [congruence|].
  remember (k0 :: rest) as keys eqn:E.
  assert (Hlt : api_key_index st mod List.length keys < List.length keys).
  { apply Nat.mod_upper_bound. subst keys. simpl. lia. }
  apply nth_error_Some in Hlt.
  destruct (nth_error keys (api_key_index st mod List.length keys)) as [k|];
    [|congruence].
  exists k. split; reflexivity.
Qed.

Lemma rotate_iter_index (api_keys : list string) (st : ImageGeneratorState)
    (k : nat) :
  1 < List.length api_keys ->
  api_key_index (Nat.iter (S k) (rotate_to_next_api_key api_keys) st)
  = (api_key_index st + S k) mod List.length api_keys.
Proof.
  intros HN. induction k as [|k IH].
  - simpl. unfold rotate_to_next_api_key.
    apply Nat.ltb_lt in HN. rewrite HN. reflexivity.
  - change (Nat.iter (S (S k)) (rotate_to_next_api_key api_keys) st)
      with (rotate_to_next_api_key api_keys
              (Nat.iter (S k) (rotate_to_next_api_key api_keys) st)).
    unfold rotate_to_next_api_key at 1.
    pose proof HN as HN'. apply Nat.ltb_lt in HN'. rewrite HN'.
    cbn [api_key_index]. rewrite IH.
    rewrite Nat.Div0.add_mod_idemp_l. f_equal. lia.
Qed.

Lemma rotate_full_cycle (api_keys : list string)
    (st : ImageGeneratorState) :
  1 < List.length api_keys ->
  api_key_index
    (Nat.iter (List.length api_keys) (rotate_to_next_api_key api_keys) st)
  mod List.length api_keys
  = api_key_index st mod List.length api_keys.
Proof.
  intros HN.
  pose proof (rotate_iter_index api_keys st (List.length api_keys - 1) HN)
    as H.
  replace (S (List.length api_keys - 1)) with (List.length api_keys) in H
    by lia.
  rewrite H, Nat.Div0.mod_mod.
  replace (api_key_index st + List.length api_keys)
    with (api_key_index st + 1 * List.length api_keys) by lia.
  apply Nat.Div0.mod_add.
Qed.

(** C7: [current()] is the key at [cursor mod N] and fails on an empty
    set; [advance()] moves the cursor to [(cursor + 1) mod N] when
    [N > 1] and changes nothing when [N <= 1]; after [N] advances on
    [N > 1] keys [current()] answers as before. *)
Theorem key_rotator_cyclic (api_keys : list string)
    (st : ImageGeneratorState) :
  let N := List.length api_keys in
  (api_keys = [] -> get_next_api_key api_keys st = Raise ValueError)
  /\ (api_keys <> [] ->
      exists k, nth_error api_keys (api_key_index st mod N) = Some k
                /\ get_next_api_key api_keys st = Ok k)
  /\ (1 < N ->
      api_key_index (rotate_to_next_api_key api_keys st)
      = (api_key_index st + 1) mod N)
  /\ (N <= 1 -> rotate_to_next_api_key api_keys st = st)
  /\ (1 < N ->
      get_next_api_key api_keys
        (Nat.iter N (rotate_to_next_api_key api_keys) st)
      = get_next_api_key api_keys st).
Proof.
  intro N. repeat split.
  - intros ->. reflexivity.
  - apply get_next_api_key_nonempty.
  - intros HN. apply (rotate_iter_index api_keys st 0 HN).
  - intros HN. unfold rotate_to_next_api_key.
    destruct (Nat.ltb_spec 1 (List.length api_keys)) as [H|H];
      [unfold N in HN; lia | reflexivity].
  - intros HN. subst N. unfold get_next_api_key.
    now rewrite (rotate_full_cycle api_keys st HN).
Qed.

(** Three keys, cursor at 4: three advances bring the same key back. *)
Lemma key_rotator_cyclic_witness :
  get_next_api_key ["a"; "b"; "c"]
    (Nat.iter 3 (rotate_to_next_api_key ["a"; "b"; "c"])
       {| last_saved_image := (None, None); api_key_index := 4 |})
  = get_next_api_key ["a"; "b"; "c"]
      {| last_saved_image := (None, None); api_key_index := 4 |}
  /\ rotate_to_next_api_key ["a"]
       {| last_saved_image := (None, None); api_key_index := 4 |}
     = {| last_saved_image := (None, None); api_key_index := 4 |}.
Proof.
  split.
  - apply (key_rotator_cyclic ["a"; "b"; "c"]
             {| last_saved_image := (None, None); api_key_index := 4 |}).
    simpl. lia.
  - apply (key_rotator_cyclic ["a"]
             {| last_saved_image := (None, None); api_key_index := 4 |}).
    simpl. lia.
Defined.

(* ------------------------------------------------------------------ *)
(** * Properties of credential normalization *)

Lemma fold_append_if_nonempty {A} (g : A -> string) (l : list A)
    (acc : list string) :
  fold_left (fun keys x => append_if_nonempty keys (g x)) l acc
  = acc ++ filter PyStr.truthy (map g l).
Proof.
  revert acc. induction l as [|x l IH]; intros acc; simpl.
  - now rewrite app_nil_r.
  - rewrite IH. unfold append_if_nonempty.
    destruct (PyStr.truthy (g x)); simpl.
    + now rewrite <- app_assoc.
    + reflexivity.
Qed.

Lemma fold_skip_null (g : json -> string) (l : list json)
    (acc : list string) :
  fold_left
    (fun keys item =>
       match item with
       | JNull => keys
       | _ => append_if_nonempty keys (g item)
       end) l acc
  = acc ++ filter PyStr.truthy (map g (filter not_null l)).
Proof.
  revert acc. induction l as [|x l IH]; intros acc; simpl.
  - now rewrite app_nil_r.
  - rewrite IH. destruct x; simpl; try reflexivity;
      unfold append_if_nonempty;
      match goal with
      | |- context [PyStr.truthy ?k] => destruct (PyStr.truthy k)
      end; simpl; try reflexivity; now rewrite <- app_assoc.
Qed.

Lemma truthy_nonempty (k : string) : PyStr.truthy k = true -> k <> "".
Proof. destruct k; simpl; [discriminate | discriminate]. Qed.

(** C8: [None] gives the empty list; a string is split on commas, each
    part stripped, empty parts dropped; a list has its non-null elements
    stringified and stripped, empty results dropped; every other value
    gives the empty list without an error; the output holds non-empty
    strings only. *)
Theorem normalize_api_keys_contract (py_repr : json -> string)
    (value : json) :
  _normalize_api_keys py_repr JNull = []
  /\ (forall s,
        _normalize_api_keys py_repr (JStr s)
        = filter PyStr.truthy (map PyStr.strip (PyStr.split "," s)))
  /\ (forall l,
        _normalize_api_keys py_repr (JList l)
        = filter PyStr.truthy
            (map (fun item => PyStr.strip (py_str py_repr item))
                 (filter not_null l)))
  /\ Forall (fun k => k <> "") (_normalize_api_keys py_repr value)
  /\ _normalize_api_keys py_repr (JStr "a, b,, c") = ["a"; "b"; "c"]
  /\ _normalize_api_keys py_repr (JStr "") = []
  /\ _normalize_api_keys py_repr (JList []) = []
  /\ _normalize_api_keys py_repr (JList [JStr "a"; JNum 5; JNull])
     = ["a"; "5"].
Proof.
  assert (HS : forall s,
             _normalize_api_keys py_repr (JStr s)
             = filter PyStr.truthy (map PyStr.strip (PyStr.split "," s))).
  { intros s. unfold _normalize_api_keys.
    now rewrite fold_append_if_nonempty. }
  assert (HL : forall l,
             _normalize_api_keys py_repr (JList l)
             = filter PyStr.truthy
                 (map (fun item => PyStr.strip (py_str py_repr item))
                      (filter not_null l))).
  { intros l. unfold _normalize_api_keys.
    now rewrite fold_skip_null. }
  repeat split; try reflexivity; try assumption.
  destruct value; try (simpl; constructor).
  - rewrite HS. apply Forall_forall. intros k Hk.
    apply filter_In in Hk. now apply truthy_nonempty.
  - rewrite HL. apply Forall_forall. intros k Hk.
    apply filter_In in Hk. now apply truthy_nonempty.
Qed.

Lemma rstrip_idempotent (s : string) :
  PyStr.rstrip (PyStr.rstrip s) = PyStr.rstrip s.
Proof.
  induction s as [|c s IH]; [reflexivity|]. simpl.
  destruct (PyStr.is_space c) eqn:Hc; simpl.
  - destruct (PyStr.rstrip s) eqn:Hr; simpl; [reflexivity|].
    rewrite Hc. simpl in IH. simpl. rewrite IH. reflexivity.
  - rewrite Hc. simpl. now rewrite IH.
Qed.

Lemma lstrip_head (s : string) :
  PyStr.lstrip s = ""
  \/ exists c t, PyStr.lstrip s = String c t /\ PyStr.is_space c = false.
Proof.
  induction s as [|c s IH]; simpl; [now left|].
  destruct (PyStr.is_space c) eqn:Hc; [exact IH|].
  right. now exists c, s.
Qed.

Lemma strip_idempotent (s : string) :
  PyStr.strip (PyStr.strip s) = PyStr.strip s.
Proof.
  unfold PyStr.strip.
  destruct (lstrip_head s) as [-> | (c & t & -> & Hc)]; [reflexivity|].
  simpl. rewrite Hc. simpl. rewrite Hc. simpl. rewrite Hc. simpl.
  now rewrite rstrip_idempotent.
Qed.

Lemma normalized_keys_stripped (py_repr : json -> string) (value : json) :
  Forall (fun k => PyStr.strip k = k /\ PyStr.truthy k = true)
         (_normalize_api_keys py_repr value).
Proof.
  assert (H : forall (A : Type) (g : A -> string) (l : list A),
             Forall (fun k => PyStr.strip k = k /\ PyStr.truthy k = true)
                    (filter PyStr.truthy
                       (map (fun x => PyStr.strip (g x)) l))).
  { intros A g l. apply Forall_forall. intros k Hk.
    apply filter_In in Hk. destruct Hk as [Hin Ht]. split; [|exact Ht].
    apply in_map_iff in Hin. destruct Hin as (x & <- & _).
    apply strip_idempotent. }
  destruct value; try (simpl; constructor).
  - unfold _normalize_api_keys. rewrite fold_append_if_nonempty.
    apply (H string (fun x => x)).
  - unfold _normalize_api_keys. rewrite fold_skip_null.
    apply (H json (py_str py_repr)).
Qed.

(** The list [main.py] hands over is taken as it is by the key
    preparation at the head of [generate_image_openai]. *)
Lemma client_api_keys_of_normalized (py_repr : json -> string)
    (value : json) :
  client_api_keys py_repr
    (JList (map JStr (_normalize_api_keys py_repr value)))
  = _normalize_api_keys py_repr value.
Proof.
  unfold client_api_keys.
  pose proof (normalized_keys_stripped py_repr value) as H.
  induction H as [|k l [Hs Ht] _ IH]; [reflexivity|].
  simpl. rewrite Hs, Ht. now rewrite IH.
Qed.

(* ------------------------------------------------------------------ *)
(** * Properties of the request builder *)

Lemma fold_append_map {A B} (g : A -> B) (l : list A) (acc : list B) :
  fold_left (fun acc x => acc ++ [g x]) l acc = acc ++ map g l.
Proof.
  revert acc. induction l as [|x l IH]; intros acc; simpl.
  - now rewrite app_nil_r.
  - rewrite IH. now rewrite <- app_assoc.
Qed.

Lemma openai_content_cases (prompt : string)
    (input_images : option (list string)) :
  openai_content prompt input_images
  = match images_of input_images with
    | [] => JStr (instruction prompt)
    | imgs => JList (text_entry prompt :: map image_entry imgs)
    end.
Proof.
  unfold openai_content. rewrite fold_append_map.
  destruct (images_of input_images) as [|i l]; reflexivity.
Qed.

(** C9: in the [messages] format the body holds one user message; with
    no reference image its content is the instruction string, which is
    the fixed request for a direct image URL or a single
    [data:image/*;base64,...] string, two line feeds, [Description: ]
    and the prompt; with reference images it is the list of the
    instruction text entry followed by one image entry per image, in
    order, and an image that does not start with [data:image/] is sent
    as [data:image/png;base64,] followed by it. *)
Theorem format_a_request (mode model prompt : string)
    (input_images : option (list string)) :
  is_openai mode = true ->
  let text :=
    ("Generate an image based on the following description, and respond with either a direct image URL or a single data:image/*;base64,... string."
     ++ String "010" (String "010" ("Description: " ++ prompt)))%string in
  let url_entry (u : string) :=
    JObj [("type", JStr "image_url"); ("image_url", JObj [("url", JStr u)])] in
  exists content,
    build_payload mode model prompt input_images
    = JObj [("model", JStr model);
            ("messages",
             JList [JObj [("role", JStr "user"); ("content", content)]])]
    /\ (images_of input_images = [] -> content = JStr text)
    /\ (images_of input_images <> [] ->
        exists entries,
          content = JList (JObj [("type", JStr "text"); ("text", JStr text)]
                           :: entries)
          /\ List.length entries = List.length (images_of input_images)
          /\ forall i img,
               nth_error (images_of input_images) i = Some img ->
               (PyStr.startswith "data:image/" img = false ->
                nth_error entries i
                = Some (url_entry ("data:image/png;base64," ++ img)%string))
               /\ (PyStr.startswith "data:image/" img = true ->
                   nth_error entries i = Some (url_entry img))).
Proof.
  intros Hmode text url_entry. unfold build_payload. rewrite Hmode.
  rewrite openai_content_cases. eexists. split; [reflexivity|].
  split.
  - intros ->. reflexivity.
  - intros Hne. exists (map image_entry (images_of input_images)).
    destruct (images_of input_images) as [|i0 l] eqn:E; [congruence|].
    split; [reflexivity|]. split; [apply length_map|].
    intros i img Hnth. rewrite nth_error_map, Hnth. simpl.
    unfold image_entry, as_data_url, url_entry.
    split; intros H; now rewrite H.
Qed.

(** One bare base64 image, mode spelled [OpenAI]. *)
Lemma format_a_request_witness :
  build_payload (mode_of (Some "OpenAI")) "gpt-image-1" "a cat"
                (Some ["QUJD"])
  = JObj [("model", JStr "gpt-image-1");
          ("messages",
           JList [JObj [("role", JStr "user");
                        ("content",
                         JList [JObj [("type", JStr "text");
                                      ("text",
                                       JStr ("Generate an image based on the following description, and respond with either a direct image URL or a single data:image/*;base64,... string."
                                             ++ String "010"
                                                  (String "010"
                                                     "Description: a cat")))]; 
                                JObj [("type", JStr "image_url");
                                      ("image_url",
                                       JObj [("url",
                                              JStr "data:image/png;base64,QUJD")])]])]])].
Proof.
  destruct (format_a_request (mode_of (Some "OpenAI")) "gpt-image-1" "a cat"
              (Some ["QUJD"]) eq_refl)
    as (content & Hp & _ & Hl).
  destruct Hl as (entries & Hc & Hlen & Hnth); [simpl; discriminate|].
  rewrite Hp, Hc. simpl in Hlen, Hnth.
  destruct entries as [|e [|e' l]]; try discriminate Hlen.
  destruct (Hnth 0 "QUJD" eq_refl) as [He _].
  specialize (He eq_refl). simpl in He. injection He as ->. reflexivity.
Defined.

(* ------------------------------------------------------------------ *)
(** * Properties of the patterns *)

Lemma append_nil_r (s : string) : (s ++ "")%string = s.
Proof. induction s as [|c s IH]; simpl; [reflexivity | now rewrite IH]. Qed.

Lemma append_assoc (a b c : string) :
  ((a ++ b) ++ c)%string = (a ++ (b ++ c))%string.
Proof. induction a as [|x a IH]; simpl; [reflexivity | now rewrite IH]. Qed.

Lemma match_here_plus (acc : ascii -> bool) (r : Re.regex) (s : string) :
  Re.match_here (Re.mkItem acc Re.Plus :: r) s
  = match s with
    | String c s' =>
        if acc c then
          match Re.match_here (Re.mkItem acc Re.Plus :: r) s' with
          | Some m => Some (String c m)
          | None => option_map (String c) (Re.match_here r s')
          end
        else None
    | EmptyString => None
    end.
Proof. destruct s; reflexivity. Qed.

(** What the matcher returns is accepted by the pattern and starts the
    text. *)
Lemma match_here_sound (r : Re.regex) :
  forall s m, Re.match_here r s = Some m ->
              matches r m /\ exists rest, s = (m ++ rest)%string.
Proof.
  induction r as [|[acc q] r IH]; intros s m H.
  - simpl in H. injection H as <-. split; [constructor | now exists s].
  - destruct q.
    + simpl in H. destruct s as [|c s']; [discriminate|].
      destruct (acc c) eqn:Hc; [|discriminate].
      destruct (Re.match_here r s') as [m'|] eqn:Hm; [|discriminate].
      injection H as <-. destruct (IH _ _ Hm) as [Hmat [rest ->]].
      split; [now apply matches_one | now exists rest].
    + simpl in H. destruct s as [|c s'].
      * destruct (IH _ _ H) as [Hmat Hrest].
        split; [now apply matches_opt_skip | exact Hrest].
      * destruct (acc c) eqn:Hc.
        -- destruct (Re.match_here r s') as [m'|] eqn:Hm.
           ++ injection H as <-. destruct (IH _ _ Hm) as [Hmat [rest ->]].
              split; [now apply matches_opt_take | now exists rest].
           ++ destruct (IH _ _ H) as [Hmat Hrest].
              split; [now apply matches_opt_skip | exact Hrest].
        -- destruct (IH _ _ H) as [Hmat Hrest].
           split; [now apply matches_opt_skip | exact Hrest].
    + revert m H. induction s as [|c s' IHs]; intros m H;
        rewrite match_here_plus in H; [discriminate|].
      destruct (acc c) eqn:Hc; [|discriminate].
      destruct (Re.match_here (Re.mkItem acc Re.Plus :: r) s') as [m'|].
      * injection H as <-. destruct (IHs _ eq_refl) as [Hmat [rest ->]].
        split; [now apply matches_plus_more | now exists rest].
      * destruct (Re.match_here r s') as [m'|] eqn:Hm; [|discriminate].
        injection H as <-. destruct (IH _ _ Hm) as [Hmat [rest ->]].
        split; [now apply matches_plus_last | now exists rest].
Qed.

(** Whenever some start of the text is accepted, the matcher finds a
    match. *)
Lemma match_here_complete (r : Re.regex) (m : string) :
  matches r m ->
  forall rest, exists m', Re.match_here r (m ++ rest)%string = Some m'.
Proof.
  induction 1 as [ | [acc q] r c m Hq Hc _ IH | [acc q] r m Hq _ IH
                   | [acc q] r c m Hq Hc _ IH | [acc q] r c m Hq Hc _ IH
                   | [acc q] r c m Hq Hc _ IH ];
    intros rest; try (simpl in Hq; subst q); try (simpl in Hc).
  - now exists EmptyString.
  - destruct (IH rest) as [m' Hm']. exists (String c m').
    simpl. now rewrite Hc, Hm'.
  - destruct (IH rest) as [m' Hm']. simpl.
    destruct (m ++ rest)%string as [|c s'] eqn:E; [now exists m'|].
    destruct (acc c); [|now exists m'].
    destruct (Re.match_here r s') as [m''|]; [now eexists | now exists m'].
  - destruct (IH rest) as [m' Hm']. exists (String c m').
    simpl. now rewrite Hc, Hm'.
  - destruct (IH rest) as [m' Hm'].
    change (String c m ++ rest)%string with (String c (m ++ rest)%string).
    rewrite match_here_plus, Hc.
    destruct (Re.match_here (Re.mkItem acc Re.Plus :: r) (m ++ rest))
      as [m''|]; [now eexists|].
    rewrite Hm'. now eexists.
  - destruct (IH rest) as [m' Hm'].
    change (String c m ++ rest)%string with (String c (m ++ rest)%string).
    rewrite match_here_plus, Hc, Hm'. now eexists.
Qed.

Lemma search_sound (r : Re.regex) (s m : string) :
  Re.search r s = Some m -> matches r m /\ embedded m s.
Proof.
  induction s as [|c s IH]; simpl.
  - destruct (Re.match_here r "") as [m'|] eqn:Hm; [|discriminate].
    intros H. injection H as <-.
    destruct (match_here_sound _ _ _ Hm) as [Hmat [rest Hrest]].
    split; [exact Hmat | now exists EmptyString, rest].
  - destruct (Re.match_here r (String c s)) as [m'|] eqn:Hm.
    + intros H. injection H as <-.
      destruct (match_here_sound _ _ _ Hm) as [Hmat [rest Hrest]].
      split; [exact Hmat | now exists EmptyString, rest].
    + intros H. destruct (IH H) as [Hmat (pre & post & ->)].
      split; [exact Hmat | now exists (String c pre), post].
Qed.

Lemma search_complete (r : Re.regex) (s : string) :
  Re.search r s = None -> forall m, embedded m s -> ~ matches r m.
Proof.
  induction s as [|c s IH]; intros H m (pre & post & E) Hmat.
  - destruct pre; [|discriminate]. simpl in E.
    destruct (match_here_complete _ _ Hmat post) as [m' Hm'].
    rewrite <- E in Hm'. simpl in H. now rewrite Hm' in H.
  - simpl in H.
    destruct (Re.match_here r (String c s)) as [m'|] eqn:Hm; [discriminate|].
    destruct pre as [|c' pre].
    + simpl in E. destruct (match_here_complete _ _ Hmat post) as [m' Hm'].
      rewrite <- E in Hm'. congruence.
    + simpl in E. injection E as _ E.
      apply (IH H m); [now exists pre, post | exact Hmat].
Qed.

Lemma matches_lit (s : string) (r : Re.regex) (m : string) :
  matches (Re.lit s ++ r) m ->
  exists m', m = (s ++ m')%string /\ matches r m'.
Proof.
  revert m. induction s as [|c s IH]; intros m H; simpl in H.
  - now exists m.
  - inversion H as [ | it r0 c0 m0 Hq Hc Hm | it r0 m0 Hq | it r0 c0 m0 Hq
                   | it r0 c0 m0 Hq | it r0 c0 m0 Hq ]; subst;
      simpl in Hq; try discriminate.
    simpl in Hc. apply Ascii.eqb_eq in Hc. subst c0.
    destruct (IH _ Hm) as (m' & -> & Hm'). now exists m'.
Qed.

Lemma matches_plus (acc : ascii -> bool) (r : Re.regex) (m : string) :
  matches (Re.mkItem acc Re.Plus :: r) m ->
  exists run m', m = (run ++ m')%string /\ run <> ""
                 /\ all_chars acc run = true /\ matches r m'.
Proof.
  remember (Re.mkItem acc Re.Plus :: r) as R eqn:ER.
  induction 1 as [ | it r0 c m Hq Hc Hm _ | it r0 m Hq Hm _
                   | it r0 c m Hq Hc Hm _ | it r0 c m Hq Hc Hm _
                   | it r0 c m Hq Hc Hm IH ];
    try discriminate; injection ER as -> ->; simpl in Hq; try discriminate;
    simpl in Hc.
  - exists (String c ""), m. simpl. rewrite Hc. repeat split; congruence.
  - destruct (IH eq_refl) as (run & m' & -> & _ & Hall & Hm').
    exists (String c run), m'. simpl. rewrite Hc, Hall.
    repeat split; congruence.
Qed.

Lemma matches_opt (acc : ascii -> bool) (r : Re.regex) (m : string) :
  matches (Re.mkItem acc Re.Opt :: r) m ->
  matches r m
  \/ exists c m', m = String c m' /\ acc c = true /\ matches r m'.
Proof.
  inversion 1 as [ | it r0 c0 m0 Hq Hc Hm | it r0 m0 Hq Hm
                 | it r0 c0 m0 Hq Hc Hm | it r0 c0 m0 Hq
                 | it r0 c0 m0 Hq ]; subst; simpl in Hq; try discriminate.
  - now left.
  - right. now exists c0, m0.
Qed.

(** What the data-URL pattern accepts. *)
Lemma data_url_pattern_shape (c : string) :
  matches _DATA_URL_PATTERN c ->
  exists fmt payload,
    c = data_uri fmt payload
    /\ fmt <> "" /\ all_chars mime_char fmt = true
    /\ payload <> "" /\ all_chars b64_char payload = true.
Proof.
  unfold _DATA_URL_PATTERN. intros H.
  apply matches_lit in H. destruct H as (m1 & -> & H).
  apply matches_plus in H. destruct H as (fmt & m2 & -> & Hf & Hfa & H).
  apply matches_lit in H. destruct H as (m3 & -> & H).
  apply matches_plus in H. destruct H as (payload & m4 & -> & Hp & Hpa & H).
  inversion H; subst. exists fmt, payload. unfold data_uri.
  rewrite append_nil_r. repeat split; assumption.
Qed.

(** What the URL pattern accepts. *)
Lemma http_url_pattern_shape (u : string) :
  matches _HTTP_URL_PATTERN u ->
  exists rest,
    (u = ("http://" ++ rest)%string \/ u = ("https://" ++ rest)%string)
    /\ rest <> "" /\ all_chars url_char rest = true.
Proof.
  unfold _HTTP_URL_PATTERN. intros H.
  apply matches_lit in H. destruct H as (m1 & -> & H).
  apply matches_opt in H.
  destruct H as [H | (c & m2 & -> & Hc & H)].
  - apply matches_lit in H. destruct H as (m3 & -> & H).
    apply matches_plus in H. destruct H as (rest & m4 & -> & Hr & Hra & H).
    inversion H; subst. exists rest. rewrite append_nil_r.
    repeat split; [now left | assumption | assumption].
  - apply Ascii.eqb_eq in Hc. subst c.
    apply matches_lit in H. destruct H as (m3 & -> & H).
    apply matches_plus in H. destruct H as (rest & m4 & -> & Hr & Hra & H).
    inversion H; subst. exists rest. rewrite append_nil_r.
    repeat split; [now right | assumption | assumption].
Qed.

(* ------------------------------------------------------------------ *)
(** * Taking a data URL apart *)

Lemma all_chars_impl (p q : ascii -> bool) (s : string) :
  (forall c, p c = true -> q c = true) ->
  all_chars p s = true -> all_chars q s = true.
Proof.
  intros Hpq. induction s as [|c s IH]; simpl; [reflexivity|].
  intros H. apply andb_true_iff in H. destruct H as [Hc Hs].
  now rewrite (Hpq _ Hc), IH.
Qed.

Lemma all_chars_app (p : ascii -> bool) (a b : string) :
  all_chars p (a ++ b)%string = all_chars p a && all_chars p b.
Proof.
  induction a as [|c a IH]; simpl; [reflexivity|].
  now rewrite IH, andb_assoc.
Qed.

Lemma cut_app_nosep (sep : ascii) (a b : string) :
  all_chars (differs sep) a = true ->
  PyStr.cut sep (a ++ b)%string
  = match PyStr.cut sep b with
    | Some (h, t) => Some ((a ++ h)%string, t)
    | None => None
    end.
Proof.
  induction a as [|c a IH]; simpl; intros H.
  - destruct (PyStr.cut sep b) as [[h t]|]; reflexivity.
  - apply andb_true_iff in H. destruct H as [Hc Ha].
    unfold differs in Hc. apply negb_true_iff in Hc. rewrite Hc.
    rewrite (IH Ha). destruct (PyStr.cut sep b) as [[h t]|]; reflexivity.
Qed.

Lemma split_nonempty (sep : ascii) (s : string) : PyStr.split sep s <> [].
Proof.
  destruct s as [|c s]; simpl; [discriminate|].
  destruct (Ascii.eqb c sep); [discriminate|].
  destruct (PyStr.split sep s); discriminate.
Qed.

Lemma split_app_nosep (sep : ascii) (a b : string) :
  all_chars (differs sep) a = true ->
  PyStr.split sep (a ++ b)%string
  = match PyStr.split sep b with
    | h :: t => (a ++ h)%string :: t
    | [] => []
    end.
Proof.
  induction a as [|c a IH]; simpl; intros H.
  - destruct (PyStr.split sep b) eqn:E; [|reflexivity].
    now apply split_nonempty in E.
  - apply andb_true_iff in H. destruct H as [Hc Ha].
    unfold differs in Hc. apply negb_true_iff in Hc. rewrite Hc.
    rewrite (IH Ha). destruct (PyStr.split sep b) eqn:E; [|reflexivity].
    now apply split_nonempty in E.
Qed.

Lemma fmt_char_differs (sep : ascii) (s : string) :
  In sep ["/"; ";"; ","]%char ->
  all_chars fmt_char s = true -> all_chars (differs sep) s = true.
Proof.
  intros Hsep. apply all_chars_impl. intros c Hc.
  unfold fmt_char, Re.one_of in Hc. simpl in Hc.
  apply negb_true_iff in Hc.
  repeat (apply orb_false_iff in Hc; destruct Hc as [? Hc]).
  unfold differs. apply negb_true_iff.
  simpl in Hsep. destruct Hsep as [<- | [<- | [<- | []]]]; assumption.
Qed.

Lemma mime_char_fmt_char (c : ascii) : mime_char c = true -> fmt_char c = true.
Proof.
  intros H. unfold fmt_char, Re.one_of. simpl.
  destruct (Ascii.eqb_spec c "/") as [-> | _]; [discriminate H|].
  destruct (Ascii.eqb_spec c ";") as [-> | _]; [discriminate H|].
  destruct (Ascii.eqb_spec c ",") as [-> | _]; [discriminate H|].
  reflexivity.
Qed.

(** A data-image URI whose format holds none of [/ ; ,] comes apart
    into that format and the payload. *)
Lemma parse_data_url_ok (fmt payload : string) :
  all_chars fmt_char fmt = true ->
  parse_data_url (data_uri fmt payload) = Ok (fmt, payload).
Proof.
  intros Hf. unfold parse_data_url, PyStr.split1, data_uri.
  assert (Hd : forall sep, In sep ["/"; ";"; ","]%char ->
                           all_chars (differs sep) fmt = true).
  { intros sep Hsep. now apply fmt_char_differs. }
  rewrite <- append_assoc.
  rewrite cut_app_nosep
    by (rewrite all_chars_app; simpl; apply Hd; simpl; tauto).
  change (PyStr.cut "," (";base64," ++ payload)%string)
    with (Some (";base64", payload)).
  cbv iota beta.
  change (("data:image/" ++ fmt) ++ ";base64")%string
    with ("data:image" ++ String "/" (fmt ++ ";base64"))%string.
  rewrite (split_app_nosep "/" "data:image") by reflexivity.
  change (PyStr.split "/" (String "/" (fmt ++ ";base64")))
    with (EmptyString :: PyStr.split "/" (fmt ++ ";base64")%string).
  rewrite (split_app_nosep "/" fmt) by (apply Hd; simpl; tauto).
  change (PyStr.split "/" ";base64") with [";base64"].
  cbv iota beta. cbn [nth_error].
  rewrite (split_app_nosep ";" fmt) by (apply Hd; simpl; tauto).
  change (PyStr.split ";" ";base64") with [EmptyString; "base64"].
  cbv iota beta. now rewrite append_nil_r.
Qed.

(** Without a comma nothing is taken from the text. *)
Lemma try_data_url_no_comma (text : string) (f : found) :
  PyStr.cut "," text = None -> try_data_url text f = f.
Proof.
  intros H. unfold try_data_url, parse_data_url, PyStr.split1.
  now rewrite H.
Qed.

(* ------------------------------------------------------------------ *)
(** * Properties of the response extractor: string content *)

Lemma starts_http_of_shape (u rest : string) :
  u = ("http://" ++ rest)%string \/ u = ("https://" ++ rest)%string ->
  starts_http u = true.
Proof.
  intros [-> | ->]; unfold starts_http, PyStr.startswith;
    destruct rest; reflexivity.
Qed.

Lemma try_data_url_fields (text : string) (f : found) :
  image_url (try_data_url text f) = image_url f
  /\ (forall fmt payload,
        parse_data_url text = Ok (fmt, payload) ->
        image_format (try_data_url text f) = fmt
        /\ base64_string (try_data_url text f) = JStr payload)
  /\ (forall e, parse_data_url text = Raise e -> try_data_url text f = f).
Proof.
  unfold try_data_url.
  destruct (parse_data_url text) as [[fmt0 payload0]|e0]; simpl.
  - split; [reflexivity|]. split; [|discriminate].
    intros fmt payload E. injection E as <- <-. now split.
  - split; [reflexivity|]. split; [discriminate | reflexivity].
Qed.

(** C6: on a string content, after [strip], the rules are tried in this
    order and the first that applies decides what is stored in
    [image_url], [image_format] and [base64_string]: (a) the text starts
    with [data:image/]: format and payload are parsed out of it, the
    payload being all that follows the first comma, and nothing is
    stored when it has no comma; (b) it starts with [http://] or
    [https://]: the text is the remote URL; (c) the leftmost embedded
    data-image URI: its format and payload; (d) the leftmost embedded
    http(s) URL; when none applies nothing is stored. *)
Theorem string_content_rules (content : string) (f : found) :
  let text := PyStr.strip content in
  let r := extract_from_string content f in
  (PyStr.startswith "data:image/" text = true ->
     image_url r = image_url f
     /\ (forall fmt payload,
           text = data_uri fmt payload -> all_chars fmt_char fmt = true ->
           image_format r = fmt /\ base64_string r = JStr payload)
     /\ (forall fmt payload,
           parse_data_url text = Ok (fmt, payload) ->
           image_format r = fmt /\ base64_string r = JStr payload)
     /\ (PyStr.cut "," text = None -> r = f))
  /\ (PyStr.startswith "data:image/" text = false ->
      starts_http text = true ->
      image_url r = JStr text
      /\ image_format r = image_format f
      /\ base64_string r = base64_string f)
  /\ (PyStr.startswith "data:image/" text = false ->
      starts_http text = false ->
      forall candidate,
        Re.search _DATA_URL_PATTERN text = Some candidate ->
        embedded candidate text
        /\ exists fmt payload,
             candidate = data_uri fmt payload
             /\ image_format r = fmt
             /\ base64_string r = JStr payload
             /\ image_url r = image_url f)
  /\ (PyStr.startswith "data:image/" text = false ->
      starts_http text = false ->
      Re.search _DATA_URL_PATTERN text = None ->
      forall u,
        Re.search _HTTP_URL_PATTERN text = Some u ->
        embedded u text /\ starts_http u = true
        /\ image_url r = JStr u
        /\ image_format r = image_format f
        /\ base64_string r = base64_string f)
  /\ (PyStr.startswith "data:image/" text = false ->
      starts_http text = false ->
      Re.search _DATA_URL_PATTERN text = None ->
      Re.search _HTTP_URL_PATTERN text = None ->
      r = f
      /\ forall m, embedded m text ->
                   ~ matches _DATA_URL_PATTERN m
                   /\ ~ matches _HTTP_URL_PATTERN m).
Proof.
  intros text r. subst r. unfold extract_from_string. fold text.
  fold (starts_http text).
  repeat apply conj.
  - intros Ha. rewrite Ha.
    destruct (try_data_url_fields text f) as (Hu & Hok & Hraise).
    split; [exact Hu|]. split; [|split].
    + intros fmt payload E Hf. apply Hok.
      now rewrite E, parse_data_url_ok.
    + exact Hok.
    + intros Hcut. apply (Hraise ValueError).
      unfold parse_data_url, PyStr.split1. now rewrite Hcut.
  - intros Ha Hb. rewrite Ha, Hb. now repeat split.
  - intros Ha Hb candidate Hc. rewrite Ha, Hb, Hc.
    destruct (search_sound _ _ _ Hc) as [Hmat Hemb].
    split; [exact Hemb|].
    destruct (data_url_pattern_shape _ Hmat)
      as (fmt & payload & E & _ & Hfa & _ & _).
    exists fmt, payload. split; [exact E|].
    destruct (try_data_url_fields candidate f) as (Hu & Hok & _).
    destruct (Hok fmt payload) as [Hfmt Hpay].
    { rewrite E. apply parse_data_url_ok.
      apply (all_chars_impl mime_char);
        [exact mime_char_fmt_char | exact Hfa]. }
    now repeat split.
  - intros Ha Hb Hc u Hd. rewrite Ha, Hb, Hc, Hd.
    destruct (search_sound _ _ _ Hd) as [Hmat Hemb].
    destruct (http_url_pattern_shape _ Hmat) as (rest & Hshape & _ & _).
    repeat split; [exact Hemb | now apply (starts_http_of_shape u rest)].
  - intros Ha Hb Hc Hd. rewrite Ha, Hb, Hc, Hd. split; [reflexivity|].
    intros m Hm. split.
    + now apply (search_complete _ _ Hc).
    + now apply (search_complete _ _ Hd).
Qed.

(** The three texts of the design document, and one with blanks in
    front of the link. *)
Lemma string_content_rules_witness :
  (image_url
     (extract_from_string "Here: https://x/y.png more text" nothing_found)
   = JStr "https://x/y.png"
   /\ base64_string
        (extract_from_string "Here: https://x/y.png more text" nothing_found)
      = JNull)
  /\ (image_format
        (extract_from_string "data:image/jpeg;base64,QQ==" nothing_found)
      = "jpeg"
      /\ base64_string
           (extract_from_string "data:image/jpeg;base64,QQ==" nothing_found)
         = JStr "QQ=="
      /\ image_url
           (extract_from_string "data:image/jpeg;base64,QQ==" nothing_found)
         = JNull)
  /\ image_url (extract_from_string "  https://x/y.png" nothing_found)
     = JStr "https://x/y.png"
  /\ extract_from_string "no picture here" nothing_found
     = {| image_url := JNull; image_format := "png";
          base64_string := JNull |}.
Proof.
  repeat apply conj.
  - destruct (string_content_rules "Here: https://x/y.png more text"
                nothing_found) as (_ & _ & _ & Hd & _).
    apply (Hd eq_refl eq_refl eq_refl "https://x/y.png" eq_refl).
  - destruct (string_content_rules "Here: https://x/y.png more text"
                nothing_found) as (_ & _ & _ & Hd & _).
    apply (Hd eq_refl eq_refl eq_refl "https://x/y.png" eq_refl).
  - destruct (string_content_rules "data:image/jpeg;base64,QQ=="
                nothing_found) as (Ha & _).
    destruct (Ha eq_refl) as (_ & Hshape & _).
    apply (Hshape "jpeg" "QQ==" eq_refl eq_refl).
  - destruct (string_content_rules "data:image/jpeg;base64,QQ=="
                nothing_found) as (Ha & _).
    destruct (Ha eq_refl) as (_ & Hshape & _).
    apply (Hshape "jpeg" "QQ==" eq_refl eq_refl).
  - destruct (string_content_rules "data:image/jpeg;base64,QQ=="
                nothing_found) as (Ha & _).
    destruct (Ha eq_refl) as (Hu & _). exact Hu.
  - destruct (string_content_rules "  https://x/y.png" nothing_found)
      as (_ & Hb & _).
    apply (Hb eq_refl eq_refl).
  - destruct (string_content_rules "no picture here" nothing_found)
      as (_ & _ & _ & _ & He).
    apply (He eq_refl eq_refl eq_refl eq_refl).
Defined.

(* ------------------------------------------------------------------ *)
(** * Properties of the response extractor: list content *)

(** C3 as stated fails: an image entry that carries a data URI does not
    end the scan, and a later entry changes what is extracted. *)
Lemma list_scan_not_first_match :
  ~ (forall (pre : list json) (item : json) (rest : list json) (f : found),
       Forall (fun x => declares_image x = false) pre ->
       declares_image item = true ->
       extract_from_list (pre ++ item :: rest) f
       = extract_from_list (pre ++ [item]) f).
Proof.
  intros H.
  specialize
    (H []
       (JObj [("type", JStr "image_url");
              ("image_url",
               JObj [("url", JStr "data:image/png;base64,AAAA")])])
       [JObj [("type", JStr "image_url");
              ("image_url", JObj [("url", JStr "https://x/y.png")])]]
       nothing_found (Forall_nil _) eq_refl).
  vm_compute in H. discriminate H.
Qed.

Lemma candidate_declares_image (item : json) (c : string) :
  candidate_of item = Ok (Some c) -> declares_image item = true.
Proof.
  destruct item as [| | | | |d]; try discriminate.
  unfold candidate_of, declares_image, Py.get. simpl.
  destruct (Py.lookup "type" d) as [[| | |s| |]|]; simpl; try discriminate.
  destruct (String.eqb s "image_url" || String.eqb s "output_image");
    [reflexivity | discriminate].
Qed.

Lemma scan_passes_over (item : json) (rest : list json) (f : found) :
  candidate_of item = Ok None ->
  extract_from_list (item :: rest) f = extract_from_list rest f.
Proof. intros Hn. simpl. unfold scan_item. now rewrite Hn. Qed.

Lemma scan_data_uri (item : json) (rest : list json) (f : found)
    (c fmt payload : string) :
  candidate_of item = Ok (Some c) ->
  PyStr.startswith "data:image/" c = true ->
  parse_data_url c = Ok (fmt, payload) ->
  extract_from_list (item :: rest) f
  = extract_from_list rest
      {| image_url := image_url f; image_format := fmt;
         base64_string := JStr payload |}.
Proof.
  intros Hc Hd Hp. simpl. unfold scan_item. rewrite Hc. simpl. rewrite Hd.
  simpl. unfold try_data_url. now rewrite Hp.
Qed.

(** C3, amended: the entries are scanned in order.  An entry that is
    not a dict, or a dict whose [type] is not one of the two image
    types, or an image entry without a non-empty string candidate, is
    passed over; a dict whose [type] is a list or a dict makes the set
    test raise [TypeError].  An image entry whose candidate is a data
    URI stores format and payload (nothing when the URI has no comma)
    and the scan goes on with the entries after it.  An image entry
    whose candidate is any other string stores it as the remote URL and
    ends the scan: no entry after it has any influence. *)
Theorem list_scan_stops_at_literal_url (pre : list json) (item : json)
    (rest : list json) (f : found) :
  ((forall x, In x pre -> candidate_of x = Ok None) ->
     extract_from_list (pre ++ rest) f = extract_from_list rest f)
  /\ (declares_image item = false ->
      (forall d, item = JObj d ->
                 match Py.lookup "type" d with
                 | Some (JList _) | Some (JObj _) => False
                 | _ => True
                 end) ->
      extract_from_list (item :: rest) f = extract_from_list rest f)
  /\ (forall d, item = JObj d ->
                match Py.lookup "type" d with
                | Some (JList _) | Some (JObj _) => True
                | _ => False
                end ->
                extract_from_list (item :: rest) f = Raise TypeError)
  /\ (declares_image item = true ->
      (candidate_of item = Ok None ->
         extract_from_list (item :: rest) f = extract_from_list rest f)
      /\ (forall c,
            candidate_of item = Ok (Some c) ->
            PyStr.startswith "data:image/" c = false ->
            extract_from_list (item :: rest) f
            = Ok {| image_url := JStr c; image_format := image_format f;
                    base64_string := base64_string f |}
            /\ extract_from_list (pre ++ item :: rest) f
               = extract_from_list (pre ++ [item]) f)
      /\ (forall c,
            candidate_of item = Ok (Some c) ->
            PyStr.startswith "data:image/" c = true ->
            (forall fmt payload,
               c = data_uri fmt payload -> all_chars fmt_char fmt = true ->
               extract_from_list (item :: rest) f
               = extract_from_list rest
                   {| image_url := image_url f; image_format := fmt;
                      base64_string := JStr payload |})
            /\ (forall fmt payload,
                  parse_data_url c = Ok (fmt, payload) ->
                  extract_from_list (item :: rest) f
                  = extract_from_list rest
                      {| image_url := image_url f; image_format := fmt;
                         base64_string := JStr payload |})
            /\ (PyStr.cut "," c = None ->
                extract_from_list (item :: rest) f
                = extract_from_list rest f))).
Proof.
  split; [|split; [|split]].
  - clear item. revert f. induction pre as [|x pre IH]; intros f Hpre.
    + reflexivity.
    + change ((x :: pre) ++ rest) with (x :: (pre ++ rest)).
      rewrite scan_passes_over by (apply Hpre; now left).
      apply IH. intros y Hy. apply Hpre. now right.
  - intros Hn Hh. apply scan_passes_over.
    destruct item as [| | | | |d]; try reflexivity.
    specialize (Hh d eq_refl).
    unfold declares_image in Hn. unfold candidate_of, Py.get. simpl.
    destruct (Py.lookup "type" d) as [[| | |s| |]|]; simpl;
      try reflexivity; try contradiction.
    now rewrite Hn.
  - intros d -> Hty. simpl. unfold scan_item, candidate_of, Py.get. simpl.
    destruct (Py.lookup "type" d) as [[| | |s| |]|]; simpl;
      try contradiction; reflexivity.
  - intros _. split; [|split].
    + apply scan_passes_over.
    + intros c Hc Hd.
      assert (Hs : forall f', scan_item item f'
                              = Ok (set_url (JStr c) f', true)).
      { intros f'. unfold scan_item. rewrite Hc. simpl. now rewrite Hd. }
      split.
      * simpl. now rewrite Hs.
      * revert f. induction pre as [|x pre IH]; intros f; simpl.
        -- now rewrite Hs.
        -- destruct (scan_item x f) as [[f' brk]|e]; simpl; [|reflexivity].
           destruct brk; [reflexivity | apply IH].
    + intros c Hc Hd. split; [|split].
      * intros fmt payload E Hf.
        apply (scan_data_uri item rest f c fmt payload Hc Hd).
        rewrite E. now apply parse_data_url_ok.
      * intros fmt payload Hp.
        now apply (scan_data_uri item rest f c fmt payload).
      * intros Hcut. simpl. unfold scan_item. rewrite Hc. simpl.
        rewrite Hd. simpl. now rewrite try_data_url_no_comma.
Qed.

(** A text entry, a link, then a second link that is never looked at;
    an inline image followed by a link, both of which are stored; an
    entry whose [type] is a list. *)
Lemma list_scan_stops_at_literal_url_witness :
  extract_from_list
    [JStr "text";
     JObj [("type", JStr "image_url");
           ("image_url", JObj [("url", JStr "https://x/y.png")])];
     JObj [("type", JStr "output_image"); ("url", JStr "https://z")]]
    nothing_found
  = Ok {| image_url := JStr "https://x/y.png"; image_format := "png";
          base64_string := JNull |}
  /\ extract_from_list
       [JObj [("type", JStr "image_url");
              ("image_url",
               JObj [("url", JStr "data:image/jpeg;base64,QQ==")])];
        JObj [("type", JStr "output_image"); ("url", JStr "https://z")]]
       nothing_found
     = Ok {| image_url := JStr "https://z"; image_format := "jpeg";
             base64_string := JStr "QQ==" |}
  /\ extract_from_list
       [JObj [("type", JList [])];
        JObj [("type", JStr "output_image"); ("url", JStr "https://z")]]
       nothing_found
     = Raise TypeError.
Proof.
  split; [|split].
  - destruct (list_scan_stops_at_literal_url
                []
                (JStr "text")
                [JObj [("type", JStr "image_url");
                       ("image_url", JObj [("url", JStr "https://x/y.png")])];
                 JObj [("type", JStr "output_image");
                       ("url", JStr "https://z")]]
                nothing_found) as (_ & Hskip & _).
    rewrite (Hskip eq_refl) by (intros d; discriminate).
    destruct (list_scan_stops_at_literal_url
                []
                (JObj [("type", JStr "image_url");
                       ("image_url", JObj [("url", JStr "https://x/y.png")])])
                [JObj [("type", JStr "output_image");
                       ("url", JStr "https://z")]]
                nothing_found) as (_ & _ & _ & Himg).
    destruct (Himg eq_refl) as (_ & Hurl & _).
    exact (proj1 (Hurl "https://x/y.png" eq_refl eq_refl)).
  - destruct (list_scan_stops_at_literal_url
                []
                (JObj [("type", JStr "image_url");
                       ("image_url",
                        JObj [("url", JStr "data:image/jpeg;base64,QQ==")])])
                [JObj [("type", JStr "output_image");
                       ("url", JStr "https://z")]]
                nothing_found) as (_ & _ & _ & Himg).
    destruct (Himg eq_refl) as (_ & _ & Hdata).
    destruct (Hdata "data:image/jpeg;base64,QQ==" eq_refl eq_refl)
      as (Hshape & _).
    rewrite (Hshape "jpeg" "QQ==" eq_refl eq_refl).
    destruct (list_scan_stops_at_literal_url
                []
                (JObj [("type", JStr "output_image");
                       ("url", JStr "https://z")])
                []
                {| image_url := JNull; image_format := "jpeg";
                   base64_string := JStr "QQ==" |}) as (_ & _ & _ & Himg2).
    destruct (Himg2 eq_refl) as (_ & Hurl & _).
    exact (proj1 (Hurl "https://z" eq_refl eq_refl)).
  - destruct (list_scan_stops_at_literal_url
                []
                (JObj [("type", JList [])])
                [JObj [("type", JStr "output_image");
                       ("url", JStr "https://z")]]
                nothing_found) as (_ & _ & Hraise & _).
    exact (Hraise [("type", JList [])] eq_refl I).
Defined.

(* ------------------------------------------------------------------ *)
(** * Properties of the image store *)

Lemma posts_app (a b : list event) : posts (a ++ b) = posts a + posts b.
Proof. unfold posts. now rewrite filter_app, length_app. Qed.

Lemma rotations_app (a b : list event) :
  rotations (a ++ b) = rotations a + rotations b.
Proof. unfold rotations. now rewrite filter_app, length_app. Qed.

Lemma only_logs_counts (l : list event) :
  forallb is_log l = true -> posts l = 0 /\ rotations l = 0.
Proof.
  induction l as [|e l IH]; simpl; [now split|].
  intros H. apply andb_true_iff in H. destruct H as [He Hl].
  destruct (IH Hl) as [Hp Hr]. destruct e; try discriminate.
  unfold posts, rotations in *. simpl. now split.
Qed.

Lemma only_logs_app (a b : list event) :
  forallb is_log a = true -> forallb is_log b = true ->
  forallb is_log (a ++ b) = true.
Proof. intros Ha Hb. now rewrite forallb_app, Ha, Hb. Qed.

Lemma sweep_logs (env : io) (pat : string * string) (todo : list file) :
  forall kept logs,
    forallb is_log logs = true ->
    forallb is_log (snd (sweep env pat todo kept logs)) = true.
Proof.
  induction todo as [|f todo IH]; intros kept logs H; simpl; [exact H|].
  destruct (glob_match pat (f_name f)); [|now apply IH].
  destruct (Z.ltb (f_mtime f) (io_now env - retention)); [|now apply IH].
  destruct (io_unlink_ok env (f_name f)); apply IH;
    now apply only_logs_app.
Qed.

(** The sweep touches the directory listing and the log, nothing else. *)
Lemma cleanup_frame (env : io) (w : world) :
  exists fs logs,
    cleanup_old_images env w
    = ({| state := state w; dir_exists := dir_exists w; files := fs;
          trace := trace w ++ logs |}, Ok tt)
    /\ forallb is_log logs = true.
Proof.
  unfold cleanup_old_images. destruct (dir_exists w) eqn:Hd; cbn [negb].
  - assert (H : forall pats acc,
               forallb is_log (snd acc) = true ->
               forallb is_log
                 (snd (fold_left
                         (fun acc pat => sweep env pat (fst acc) [] (snd acc))
                         pats acc)) = true).
    { induction pats as [|p pats IH]; intros acc Hacc; simpl; [exact Hacc|].
      apply IH. now apply sweep_logs. }
    specialize (H image_patterns (files w, []) eq_refl).
    destruct (fold_left _ image_patterns (files w, [])) as [fs logs].
    now exists fs, logs.
  - exists (files w), []. split; [|reflexivity].
    destruct w; simpl in *. now rewrite app_nil_r, Hd.
Qed.

Arguments cleanup_old_images : simpl never.

(** The three ways [save_base64_image] can go. *)
Lemma save_base64_image_outcome (env : io)
    (b64decode : string -> exc string) (images_dir : string)
    (absolute : string -> string) (base64_string : json)
    (image_format : string) (w : world) :
  let run :=
    save_base64_image env b64decode images_dir absolute
                      base64_string image_format w in
  (snd run = false <->
     io_mkdir_ok env = false
     \/ (exists e, decode_payload b64decode base64_string = Raise e)
     \/ io_write_ok env = false)
  /\ (snd run = false ->
      state (fst run) = state w
      /\ exists site, In (Log ERROR site) (trace (fst run))
                      /\ (site = Base64DecodeFailed \/ site = SaveFailed))
  /\ (snd run = true ->
      exists image_data,
        decode_payload b64decode base64_string = Ok image_data
        /\ In (mkFile (gemini_name env image_format) (io_now env) image_data)
              (files (fst run))
        /\ last_saved_image (state (fst run))
           = (Some (file_url_of absolute
                      (path_of images_dir (gemini_name env image_format))),
              Some (path_of images_dir (gemini_name env image_format))))
  /\ only_logged w (fst run).
Proof.
  unfold save_base64_image, catch, save_base64_image_body, bindM, mkdir, lift,
    only_logged.
  destruct (io_mkdir_ok env) eqn:Hmk.
  - match goal with
    | |- context [cleanup_old_images env ?w1] =>
        destruct (cleanup_frame env w1) as (fs & logs & -> & Hlogs)
    end.
    destruct (decode_payload b64decode base64_string) as [image_data|e]
      eqn:Hdec.
    + unfold write_file. destruct (io_write_ok env) eqn:Hwr; simpl.
      * split; [|split; [|split]].
        -- split; [discriminate|].
           intros [H | [[e H] | H]]; discriminate.
        -- discriminate.
        -- intros _. exists image_data. repeat split.
           apply in_or_app. right. now left.
        -- repeat rewrite <- app_assoc. eexists. split; [reflexivity|].
           now rewrite forallb_app, Hlogs.
      * split; [|split; [|split]].
        -- split; [intros _; now right; right | reflexivity].
        -- intros _. split; [reflexivity|].
           exists SaveFailed. split; [|now right].
           apply in_or_app. right. now left.
        -- discriminate.
        -- repeat rewrite <- app_assoc. eexists. split; [reflexivity|].
           now rewrite forallb_app, Hlogs.
    + destruct e; simpl;
        (split;
         [ split; [intros _; right; left; eexists; reflexivity | reflexivity]
         | split;
           [ intros _; split; [reflexivity|]; eexists; split;
             [ apply in_or_app; right; left; reflexivity
             | first [left; reflexivity | right; reflexivity] ]
           | split;
             [ discriminate
             | repeat rewrite <- app_assoc; eexists;
               split; [reflexivity | now rewrite forallb_app, Hlogs] ] ] ]).
  - simpl. split; [|split; [|split]].
    + split; [intros _; now left | reflexivity].
    + intros _. split; [reflexivity|].
      exists SaveFailed. split; [|now right].
      apply in_or_app. right. now left.
    + discriminate.
    + now exists [Log ERROR SaveFailed].
Qed.

(** C10: [save_base64_image] answers [False] exactly when the directory
    cannot be made, the payload cannot be decoded or the file cannot be
    written; then the saved-image record is the one from before the call
    and the failure is in the log. It answers [True] only with the
    decoded bytes in the new file, and the record then names that
    file. *)
Theorem save_failure_keeps_record (env : io)
    (b64decode : string -> exc string) (images_dir : string)
    (absolute : string -> string) (base64_string : json)
    (image_format : string) (w : world) :
  let run :=
    save_base64_image env b64decode images_dir absolute
                      base64_string image_format w in
  (snd run = false <->
     io_mkdir_ok env = false
     \/ (exists e, decode_payload b64decode base64_string = Raise e)
     \/ io_write_ok env = false)
  /\ (snd run = false ->
      last_saved_image (state (fst run)) = last_saved_image (state w)
      /\ state (fst run) = state w
      /\ exists site, In (Log ERROR site) (trace (fst run))
                      /\ (site = Base64DecodeFailed \/ site = SaveFailed))
  /\ (snd run = true ->
      exists image_data,
        decode_payload b64decode base64_string = Ok image_data
        /\ In (mkFile (gemini_name env image_format) (io_now env) image_data)
              (files (fst run))
        /\ last_saved_image (state (fst run))
           = (Some (file_url_of absolute
                      (path_of images_dir (gemini_name env image_format))),
              Some (path_of images_dir (gemini_name env image_format)))).
Proof.
  intro run.
  destruct (save_base64_image_outcome env b64decode images_dir absolute
              base64_string image_format w) as (Hiff & Hfalse & Htrue & _).
  fold run in Hiff, Hfalse, Htrue.
  split; [exact Hiff|]. split; [|exact Htrue].
  intros H. destruct (Hfalse H) as [Hst Hlog].
  split; [now rewrite Hst|]. now split.
Qed.

(** A payload that does not decode: the record stays as it was. *)
Lemma save_failure_keeps_record_witness :
  state (fst (save_base64_image
                (mkIo 0 true (fun _ => true) "20260101_000000_abcdef12" true
                      (fun _ _ _ => PostRaise NetworkError)
                      (fun _ => GetRaise NetworkError))
                (fun _ => Raise Base64Error) "/plugin/images" (fun p => p)
                (JStr "!!") "png"
                (mkWorld (mkState (Some "file:///old", Some "/old") 3)
                         true [] [])))
  = mkState (Some "file:///old", Some "/old") 3.
Proof.
  apply (save_failure_keeps_record
           (mkIo 0 true (fun _ => true) "20260101_000000_abcdef12" true
                 (fun _ _ _ => PostRaise NetworkError)
                 (fun _ => GetRaise NetworkError))
           (fun _ => Raise Base64Error) "/plugin/images" (fun p => p)
           (JStr "!!") "png"
           (mkWorld (mkState (Some "file:///old", Some "/old") 3)
                    true [] [])).
  reflexivity.
Defined.

(* ------------------------------------------------------------------ *)
(** * Properties of the retry loop *)

Lemma only_logged_counts (w w' : world) :
  only_logged w w' ->
  posts (trace w') = posts (trace w)
  /\ rotations (trace w') = rotations (trace w).
Proof.
  intros (logs & -> & Hl). destruct (only_logs_counts _ Hl) as [Hp Hr].
  rewrite posts_app, rotations_app, Hp, Hr. lia.
Qed.

Lemma only_logged_refl (w : world) : only_logged w w.
Proof. exists []. now rewrite app_nil_r. Qed.

Lemma only_logged_trans (w1 w2 w3 : world) :
  only_logged w1 w2 -> only_logged w2 w3 -> only_logged w1 w3.
Proof.
  intros (l1 & E1 & H1) (l2 & E2 & H2). exists (l1 ++ l2).
  rewrite E2, E1, <- app_assoc. split; [reflexivity|].
  now apply only_logs_app.
Qed.

Lemma only_logged_In (w w' : world) (e : event) :
  only_logged w w' -> In e (trace w) -> In e (trace w').
Proof. intros (logs & -> & _) H. apply in_or_app. now left. Qed.

Ltac tally :=
  unfold posts, rotations; simpl;
  repeat rewrite filter_app; repeat rewrite length_app; simpl; lia.

(** A call of [rotate_to_next_api_key] is one rotation in the trace and
    sends nothing. *)
Lemma rotate_frame (api_keys : list string) (w : world) :
  exists w',
    rotate api_keys w = (w', Ok tt)
    /\ posts (trace w') = posts (trace w)
    /\ rotations (trace w') = rotations (trace w) + 1
    /\ state w' = rotate_to_next_api_key api_keys (state w)
    /\ files w' = files w.
Proof.
  unfold rotate, bindM, emit, modify_state, log, ret. simpl.
  destruct (1 <? List.length api_keys); simpl; eexists;
    (split; [reflexivity|]); simpl; repeat split; tally.
Qed.

Section Loop.

Variable env : nat -> io.
Variable b64decode : string -> exc string.
Variable images_dir : string.
Variable absolute : string -> string.
Variable url : string.
Variable payload : json.
Variable api_keys : list string.

Hypothesis keys_configured : api_keys <> [].

Lemma on_exception_frame (a : nat) (e : exn) (w : world) :
  exists w',
    on_exception api_keys a e w = (w', Next)
    /\ posts (trace w') = posts (trace w)
    /\ rotations (trace w') = rotations (trace w) + 1.
Proof.
  assert (H : forall lv site,
             exists w',
               fst ((log lv site;;; rotate api_keys)%io w) = w'
               /\ posts (trace w') = posts (trace w)
               /\ rotations (trace w') = rotations (trace w) + 1).
  { intros lv site. unfold bindM, log, emit at 1.
    match goal with
    | |- context [rotate api_keys ?w1] =>
        destruct (rotate_frame api_keys w1) as (w' & -> & Hp & Hr & _)
    end.
    exists w'. simpl in *. split; [reflexivity|].
    rewrite Hp, Hr. split; tally. }
  unfold on_exception.
  destruct e;
    match goal with
    | |- context [(log ?lv ?site;;; rotate api_keys)%io w] =>
        destruct (H lv site) as (w' & <- & Hp & Hr)
    end; eexists; (split; [reflexivity|]); now split.
Qed.

(** Up to the request: one [Post], the state untouched. *)
Lemma before_post_frame (a : nat) (w : world) :
  exists key w1,
    before_post url api_keys a w = (w1, Ok key)
    /\ get_next_api_key api_keys (state w) = Ok key
    /\ state w1 = state w
    /\ posts (trace w1) = posts (trace w) + 1
    /\ rotations (trace w1) = rotations (trace w)
    /\ (forall e, In e (trace w) -> In e (trace w1)).
Proof.
  destruct (get_next_api_key_nonempty api_keys (state w) keys_configured)
    as (key & _ & Hkey).
  unfold before_post, bindM, log, emit, ret. rewrite Hkey.
  destruct (0 <? a); simpl; exists key; eexists;
    (split; [reflexivity|]); simpl; repeat split; try tally;
    intros e He; repeat (apply in_or_app; left); exact He.
Qed.

(** The debug lines written on the first pass. *)
Lemma after_post_unfold (a : nat) (status : Z) (data : json) (w : world) :
  exists w0,
    only_logged w w0 /\ state w0 = state w
    /\ after_post env b64decode images_dir absolute api_keys a status data w
       = match has_choices status data with
         | Ok true =>
             on_choices env b64decode images_dir absolute a data w0
         | Ok false => on_error api_keys a status data w0
         | Raise e => (w0, Raise e)
         end.
Proof.
  unfold after_post, bindM, lift, log, emit, ret.
  destruct (a =? 0).
  - destruct data; simpl;
      eexists; (split; [|split; [|destruct (has_choices status _) as [[]|];
                                  reflexivity]]);
      simpl; try reflexivity;
      (eexists; split; [try rewrite <- app_assoc; reflexivity | reflexivity]).
  - exists w. split; [apply only_logged_refl|]. split; [reflexivity|].
    destruct (has_choices status data) as [[]|]; reflexivity.
Qed.

(** The provider-error branch always ends in one rotation and lets the
    loop go on. *)
Lemma on_error_frame (a : nat) (status : Z) (data : json) (w : world) :
  exists w',
    catch (on_error api_keys a status data) (on_exception api_keys a) w
    = (w', Next)
    /\ posts (trace w') = posts (trace w)
    /\ rotations (trace w') = rotations (trace w) + 1.
Proof.
  unfold catch, on_error, bindM, lift.
  destruct (error_message status data) as [msg|e].
  - unfold log, emit at 1.
    match goal with
    | |- context [rotate api_keys ?w1] =>
        destruct (rotate_frame api_keys w1) as (w' & -> & Hp & Hr & _)
    end.
    exists w'. simpl in *. split; [reflexivity|].
    rewrite Hp, Hr. split; tally.
  - apply on_exception_frame.
Qed.

(** A pass whose answer is not a usable 200: one request, one rotation,
    on to the next pass. *)
Lemma attempt_fails (a : nat) (w : world) :
  (forall key, not_usable (io_post (env a) url payload key)) ->
  exists w',
    attempt env b64decode images_dir absolute url payload api_keys a w
    = (w', Next)
    /\ posts (trace w') = posts (trace w) + 1
    /\ rotations (trace w') = rotations (trace w) + 1.
Proof.
  intros Hfail. unfold attempt, catch, attempt_body, bindM.
  destruct (before_post_frame a w) as (key & w1 & -> & _ & _ & Hp & Hr & _).
  specialize (Hfail key). unfold not_usable in Hfail.
  destruct (io_post (env a) url payload key) as [e|status data].
  - unfold raise.
    destruct (on_exception_frame a e w1) as (w' & -> & Hp' & Hr').
    exists w'. split; [reflexivity|]. lia.
  - destruct (after_post_unfold a status data w1) as (w0 & Hlog & _ & ->).
    destruct (only_logged_counts _ _ Hlog) as [Hp0 Hr0].
    destruct (has_choices status data) as [[]|e]; [congruence| |].
    + pose proof (on_error_frame a status data w0) as (w' & He & Hp' & Hr').
      unfold catch in He.
      destruct (on_error api_keys a status data w0) as [w2 [o|e]];
        rewrite He; exists w'; (split; [reflexivity|]); lia.
    + destruct (on_exception_frame a e w0) as (w' & -> & Hp' & Hr').
      exists w'. split; [reflexivity|]. lia.
Qed.

(** Passes that all fail: as many requests and as many rotations as
    there are passes, then the null pair. *)
Lemma retry_loop_all_fail (attempts : list nat) :
  (forall a key, not_usable (io_post (env a) url payload key)) ->
  forall w,
  exists w',
    retry_loop env b64decode images_dir absolute url payload api_keys
               attempts w = (w', no_result)
    /\ posts (trace w') = posts (trace w) + List.length attempts
    /\ rotations (trace w') = rotations (trace w) + List.length attempts
    /\ In (Log ERROR RetriesExhausted) (trace w').
Proof.
  intros Hfail. induction attempts as [|a rest IH]; intros w; simpl.
  - eexists. split; [reflexivity|]. simpl. repeat split; try tally.
    apply in_or_app. right. now left.
  - destruct (attempt_fails a w (Hfail a)) as (w1 & -> & Hp & Hr).
    destruct (IH w1) as (w' & -> & Hp' & Hr' & Hin).
    exists w'. split; [reflexivity|]. repeat split; [lia | lia | exact Hin].
Qed.

Lemma on_exception_state (a : nat) (e : exn) (w : world) :
  state (fst (on_exception api_keys a e w))
  = rotate_to_next_api_key api_keys (state w).
Proof.
  assert (H : forall lv site,
             state (fst ((log lv site;;; rotate api_keys)%io w))
             = rotate_to_next_api_key api_keys (state w)).
  { intros lv site. unfold bindM, log, emit at 1.
    match goal with
    | |- context [rotate api_keys ?w1] =>
        destruct (rotate_frame api_keys w1) as (w' & -> & _ & _ & Hst & _)
    end.
    exact Hst. }
  unfold on_exception. destruct e; apply H.
Qed.

Lemma on_error_state (a : nat) (status : Z) (data : json) (w : world) :
  state (fst (catch (on_error api_keys a status data)
                    (on_exception api_keys a) w))
  = rotate_to_next_api_key api_keys (state w).
Proof.
  unfold catch, on_error, bindM, lift.
  destruct (error_message status data) as [msg|e].
  - unfold log, emit at 1.
    match goal with
    | |- context [rotate api_keys ?w1] =>
        destruct (rotate_frame api_keys w1) as (w' & -> & _ & _ & Hst & _)
    end.
    exact Hst.
  - apply on_exception_state.
Qed.

(** The cursor after a failed pass: one step further. *)
Lemma attempt_fails_state (a : nat) (w : world) :
  (forall key, not_usable (io_post (env a) url payload key)) ->
  state (fst (attempt env b64decode images_dir absolute url payload
                      api_keys a w))
  = rotate_to_next_api_key api_keys (state w).
Proof.
  intros Hfail. unfold attempt, catch, attempt_body, bindM.
  destruct (before_post_frame a w) as (key & w1 & -> & _ & Hst1 & _).
  specialize (Hfail key). unfold not_usable in Hfail.
  destruct (io_post (env a) url payload key) as [e|status data].
  - unfold raise. now rewrite on_exception_state, Hst1.
  - destruct (after_post_unfold a status data w1) as (w0 & _ & Hst0 & ->).
    destruct (has_choices status data) as [[]|e]; [congruence| |].
    + pose proof (on_error_state a status data w0) as Hst.
      unfold catch in Hst.
      destruct (on_error api_keys a status data w0) as [w2 [o|e]];
        rewrite Hst; congruence.
    + rewrite on_exception_state. congruence.
Qed.

(** Failed passes in front of the others: the loop goes on with what
    is left, one request and one rotation later for each of them. *)
Lemma retry_loop_failed_prefix (failed rest : list nat) :
  (forall a key, In a failed ->
                 not_usable (io_post (env a) url payload key)) ->
  forall w,
  exists w1,
    retry_loop env b64decode images_dir absolute url payload api_keys
               (failed ++ rest) w
    = retry_loop env b64decode images_dir absolute url payload api_keys
                 rest w1
    /\ posts (trace w1) = posts (trace w) + List.length failed
    /\ rotations (trace w1) = rotations (trace w) + List.length failed
    /\ state w1
       = Nat.iter (List.length failed) (rotate_to_next_api_key api_keys)
                  (state w).
Proof.
  induction failed as [|a failed IH]; intros Hfail w.
  - exists w. simpl. repeat split; lia.
  - assert (Ha : forall key, not_usable (io_post (env a) url payload key)).
    { intros key. apply Hfail. now left. }
    pose proof (attempt_fails_state a w Ha) as Hst.
    destruct (attempt_fails a w Ha) as (w1 & E & Hp & Hr).
    rewrite E in Hst. simpl in Hst.
    destruct (IH (fun a' key H => Hfail a' key (or_intror H)) w1)
      as (w2 & E2 & Hp2 & Hr2 & Hst2).
    exists w2. change ((a :: failed) ++ rest) with (a :: (failed ++ rest)).
    cbn [retry_loop]. rewrite E, E2.
    split; [reflexivity|]. cbn [List.length].
    split; [lia|]. split; [lia|].
    rewrite Hst2, Hst. symmetry. apply Nat.iter_succ_r.
Qed.

Lemma download_skip (a : nat) (v : json) (w : world) :
  Py.truthy v = false ->
  download env images_dir absolute a v w = (w, Ok None).
Proof. intros H. unfold download. now rewrite H. Qed.

Lemma save_inline_skip (a : nat) (v : json) (fmt : string) (w : world) :
  Py.truthy v = false ->
  save_inline env b64decode images_dir absolute a v fmt w = (w, Ok None).
Proof. intros H. unfold save_inline. now rewrite H. Qed.

(** A download answered with another status than 200 is logged and
    falls out of the [if]. *)
Lemma download_non200 (a : nat) (f : found) (w : world) :
  download_fails (env a) f ->
  exists w1 u,
    download env images_dir absolute a (image_url f) w = (w1, Ok None)
    /\ image_url f = JStr u
    /\ state w1 = state w
    /\ posts (trace w1) = posts (trace w)
    /\ rotations (trace w1) = rotations (trace w)
    /\ In (Log ERROR (DownloadFailed u)) (trace w1).
Proof.
  intros (u & status & body & Hu & Hne & Hget & Hst).
  unfold download. rewrite Hu. simpl.
  destruct u as [|c u]; [congruence|]. simpl.
  unfold bindM, emit, log. simpl. rewrite Hget.
  apply Z.eqb_neq in Hst. rewrite Hst. simpl.
  eexists. exists (String c u). split; [reflexivity|]. simpl.
  repeat split; try tally.
  apply in_or_app. right. now left.
Qed.

(** A failed inline save is logged and falls out of the [if]. *)
Lemma save_inline_fails (a : nat) (f : found) (w : world) :
  inline_save_fails (env a) b64decode f ->
  exists w1,
    save_inline env b64decode images_dir absolute a
                (base64_string f) (image_format f) w = (w1, Ok None)
    /\ state w1 = state w
    /\ only_logged w w1
    /\ exists site, In (Log ERROR site) (trace w1).
Proof.
  intros [Ht Hwhy]. unfold save_inline. rewrite Ht. unfold bindM.
  destruct (save_base64_image_outcome (env a) b64decode images_dir absolute
              (base64_string f) (image_format f) w)
    as (Hiff & Hfalse & _ & Hlog).
  destruct (save_base64_image (env a) b64decode images_dir absolute
              (base64_string f) (image_format f) w) as [w1 ok].
  simpl in *. apply Hiff in Hwhy. subst ok.
  destruct (Hfalse eq_refl) as (Hst & site & Hin & _).
  exists w1. repeat split; [exact Hst | exact Hlog | now exists site].
Qed.

(** How a pass ends once the body has usable [choices], when nothing
    was extracted or what was extracted could not be persisted: with the
    null pair, at once. *)
Lemma on_choices_null (a : nat) (data : json) (f : found) (w : world) :
  extract data = Ok f ->
  (Py.truthy (image_url f) = false /\ Py.truthy (base64_string f) = false)
  \/ persisting_fails (env a) b64decode f ->
  exists w',
    on_choices env b64decode images_dir absolute a data w
    = (w', Ok (Return no_result))
    /\ state w' = state w
    /\ posts (trace w') = posts (trace w)
    /\ rotations (trace w') = rotations (trace w)
    /\ In (Log INFO NoImageData) (trace w')
    /\ (persisting_fails (env a) b64decode f ->
        exists site, In (Log ERROR site) (trace w'))
    /\ (forall u, download_fails (env a) f -> image_url f = JStr u ->
                  In (Log ERROR (DownloadFailed u)) (trace w')).
Proof.
  intros Hex Hcase. unfold on_choices, bindM at 1, lift. rewrite Hex.
  assert (Hdl : exists w1,
             download env images_dir absolute a (image_url f) w = (w1, Ok None)
             /\ state w1 = state w
             /\ posts (trace w1) = posts (trace w)
             /\ rotations (trace w1) = rotations (trace w)
             /\ (download_fails (env a) f ->
                 exists u, image_url f = JStr u
                           /\ In (Log ERROR (DownloadFailed u)) (trace w1))).
  { destruct Hcase as [[Hu _] | [[Hd _] | [Hu _]]].
    - exists w. rewrite (download_skip _ _ _ Hu). repeat split.
      intros (u & s & b & E & Hne & _). rewrite E in Hu.
      destruct u; [congruence | discriminate].
    - destruct (download_non200 a f w Hd) as (w1 & u & E & Hu & H1 & H2 & H3 & H4).
      exists w1. repeat split; try assumption. intros _. now exists u.
    - exists w. rewrite (download_skip _ _ _ Hu). repeat split.
      intros (u & s & b & E & Hne & _). rewrite E in Hu.
      destruct u; [congruence | discriminate]. }
  destruct Hdl as (w1 & Edl & Hst1 & Hp1 & Hr1 & Hdlog).
  unfold bindM at 1. rewrite Edl.
  assert (Hsv : exists w2,
             save_inline env b64decode images_dir absolute a
                         (base64_string f) (image_format f) w1 = (w2, Ok None)
             /\ state w2 = state w1
             /\ only_logged w1 w2
             /\ (inline_save_fails (env a) b64decode f ->
                 exists site, In (Log ERROR site) (trace w2))).
  { assert (Hskip : Py.truthy (base64_string f) = false ->
               exists w2,
                 save_inline env b64decode images_dir absolute a
                   (base64_string f) (image_format f) w1 = (w2, Ok None)
                 /\ state w2 = state w1
                 /\ only_logged w1 w2
                 /\ (inline_save_fails (env a) b64decode f ->
                     exists site, In (Log ERROR site) (trace w2))).
    { intros Hb. exists w1. rewrite (save_inline_skip _ _ _ _ Hb).
      repeat split; [apply only_logged_refl|].
      intros [Ht _]. congruence. }
    assert (Hfail : inline_save_fails (env a) b64decode f ->
               exists w2,
                 save_inline env b64decode images_dir absolute a
                   (base64_string f) (image_format f) w1 = (w2, Ok None)
                 /\ state w2 = state w1
                 /\ only_logged w1 w2
                 /\ (inline_save_fails (env a) b64decode f ->
                     exists site, In (Log ERROR site) (trace w2))).
    { intros Hi. destruct (save_inline_fails a f w1 Hi)
        as (w2 & E & Hst & Hlog & Hsite).
      exists w2. repeat split; try assumption. now intros _. }
    destruct Hcase as [[_ Hb] | [[_ [Hb | Hi]] | [_ Hi]]]; auto. }
  destruct Hsv as (w2 & Esv & Hst2 & Hlog2 & Hslog).
  unfold bindM at 1. rewrite Esv.
  destruct (only_logged_counts _ _ Hlog2) as [Hp2 Hr2].
  unfold bindM, log, emit, ret. simpl. eexists. split; [reflexivity|]. simpl.
  split; [congruence|].
  split; [rewrite posts_app; change (posts [Log INFO NoImageData]) with 0;
          lia|].
  split; [rewrite rotations_app;
          change (rotations [Log INFO NoImageData]) with 0; lia|].
  split; [apply in_or_app; right; now left|]. split.
  - intros [[Hd [Hb | Hi]] | [Hu Hi]].
    + destruct (Hdlog Hd) as (u & _ & Hin). exists (DownloadFailed u).
      apply in_or_app. left. now apply (only_logged_In w1 w2).
    + destruct (Hslog Hi) as (site & Hin). exists site.
      apply in_or_app. now left.
    + destruct (Hslog Hi) as (site & Hin). exists site.
      apply in_or_app. now left.
  - intros u Hd Eu. destruct (Hdlog Hd) as (u' & Eu' & Hin).
    assert (u' = u) by congruence. subst u'.
    apply in_or_app. left. now apply (only_logged_In w1 w2).
Qed.

(** The same at the level of the loop: the pass that meets such a
    response is the last one, whatever passes were still to come. *)
Lemma retry_loop_null (a : nat) (rest : list nat) (data : json)
    (f : found) (w : world) :
  (forall key, io_post (env a) url payload key = PostResponse 200 data) ->
  has_choices 200 data = Ok true ->
  extract data = Ok f ->
  (Py.truthy (image_url f) = false /\ Py.truthy (base64_string f) = false)
  \/ persisting_fails (env a) b64decode f ->
  exists w',
    retry_loop env b64decode images_dir absolute url payload api_keys
               (a :: rest) w = (w', no_result)
    /\ attempt env b64decode images_dir absolute url payload api_keys a w
       = (w', Return no_result)
    /\ state w' = state w
    /\ posts (trace w') = posts (trace w) + 1
    /\ rotations (trace w') = rotations (trace w)
    /\ (persisting_fails (env a) b64decode f ->
        exists site, In (Log ERROR site) (trace w'))
    /\ (forall u, download_fails (env a) f -> image_url f = JStr u ->
                  In (Log ERROR (DownloadFailed u)) (trace w')).
Proof.
  intros Hpost Hgate Hex Hcase. simpl.
  unfold attempt, catch, attempt_body, bindM.
  destruct (before_post_frame a w) as (key & w1 & -> & _ & Hst1 & Hp & Hr & _).
  rewrite (Hpost key).
  destruct (after_post_unfold a 200 data w1) as (w0 & Hlog & Hst0 & ->).
  rewrite Hgate.
  destruct (only_logged_counts _ _ Hlog) as [Hp0 Hr0].
  destruct (on_choices_null a data f w0 Hex Hcase)
    as (w' & -> & Hst & Hp' & Hr' & _ & Herr & Hdl).
  exists w'. repeat split; try assumption; try congruence; lia.
Qed.

End Loop.

(* ------------------------------------------------------------------ *)
(** * Properties of [generate_image_openai] *)

Lemma provider_fails_not_usable (p : post_outcome) :
  provider_fails p -> not_usable p.
Proof.
  destruct p as [e|status data]; simpl; [trivial|].
  intros H. unfold has_choices. apply Z.eqb_neq in H. rewrite H.
  discriminate.
Qed.

Lemma attempts_of_length (n : Z) : List.length (attempts_of n) = Z.to_nat n.
Proof. unfold attempts_of. apply length_seq. Qed.

(** C5: with keys configured and a provider that fails on every pass
    (an exception, or a status other than 200), [max_retry_attempts]
    requests are sent, [rotate_to_next_api_key] is called once per pass,
    the last pass included, and the call returns [(None, None)]. *)
Theorem failing_provider_exhausts_retries
    (env : nat -> io) (py_repr : json -> string)
    (b64decode : string -> exc string)
    (images_dir : string) (absolute : string -> string)
    (prompt : string) (api_key : json) (model : string)
    (input_images : option (list string)) (api_base : option string)
    (api_format : option string) (max_retry_attempts : Z) (w : world) :
  client_api_keys py_repr api_key <> [] ->
  (forall a u p key, provider_fails (io_post (env a) u p key)) ->
  let run :=
    generate_image_openai env py_repr b64decode images_dir absolute
      prompt api_key model input_images api_base api_format
      max_retry_attempts w in
  snd run = no_result
  /\ posts (trace (fst run))
     = posts (trace w) + Z.to_nat max_retry_attempts
  /\ rotations (trace (fst run))
     = rotations (trace w) + Z.to_nat max_retry_attempts
  /\ In (Log ERROR RetriesExhausted) (trace (fst run)).
Proof.
  intros Hkeys Hfail. unfold generate_image_openai.
  destruct (client_api_keys py_repr api_key) as [|k keys] eqn:E;
    [congruence|].
  destruct (retry_loop_all_fail env b64decode images_dir absolute
              (build_url (mode_of api_format) model api_base)
              (build_payload (mode_of api_format) model prompt input_images)
              (k :: keys) Hkeys (attempts_of max_retry_attempts)
              (fun a key => provider_fails_not_usable _ (Hfail a _ _ key)) w)
    as (w' & -> & Hp & Hr & Hin).
  rewrite attempts_of_length in Hp, Hr. simpl. now repeat split.
Qed.

(** Two keys, a provider that always answers 500, three passes. *)
Lemma failing_provider_exhausts_retries_witness :
  let run :=
    generate_image_openai
      (fun _ => io_with (PostResponse 500 JNull) (GetRaise NetworkError))
      (fun _ => "") (fun s => Ok s) "/plugin/images" (fun p => p)
      "a cat" (JList [JStr "k1"; JStr "k2"]) "gpt-image-1" None None None
      3 fresh_world in
  snd run = no_result
  /\ posts (trace (fst run)) = 3
  /\ rotations (trace (fst run)) = 3.
Proof.
  destruct (failing_provider_exhausts_retries
              (fun _ => io_with (PostResponse 500 JNull) (GetRaise NetworkError))
              (fun _ => "") (fun s => Ok s) "/plugin/images" (fun p => p)
              "a cat" (JList [JStr "k1"; JStr "k2"]) "gpt-image-1"
              None None None 3 fresh_world)
    as (Hres & Hp & Hr & _).
  - simpl. discriminate.
  - intros a u p key. simpl. lia.
  - repeat split; assumption.
Defined.

(** C4: a 200 answer with usable [choices] in which nothing is found,
    not even through [data[0]], ends the call with [(None, None)] on the
    pass that receives it, whichever pass that is: after [k] failed
    passes, [k + 1] requests have been sent and [k] rotations asked for,
    none of them for this outcome; the cursor is where the [k] rotations
    left it and no pass is made after this one. *)
Theorem empty_response_ends_call
    (env : nat -> io) (py_repr : json -> string)
    (b64decode : string -> exc string)
    (images_dir : string) (absolute : string -> string)
    (prompt : string) (api_key : json) (model : string)
    (input_images : option (list string)) (api_base : option string)
    (api_format : option string) (max_retry_attempts : Z) (w : world)
    (k : nat) (data : json) (f : found) :
  client_api_keys py_repr api_key <> [] ->
  (Z.of_nat k < max_retry_attempts)%Z ->
  (forall a u p key, a < k -> not_usable (io_post (env a) u p key)) ->
  (forall u p key, io_post (env k) u p key = PostResponse 200 data) ->
  has_choices 200 data = Ok true ->
  extract data = Ok f ->
  Py.truthy (image_url f) = false ->
  Py.truthy (base64_string f) = false ->
  let run :=
    generate_image_openai env py_repr b64decode images_dir absolute
      prompt api_key model input_images api_base api_format
      max_retry_attempts w in
  snd run = no_result
  /\ posts (trace (fst run)) = posts (trace w) + k + 1
  /\ rotations (trace (fst run)) = rotations (trace w) + k
  /\ state (fst run)
     = Nat.iter k (rotate_to_next_api_key (client_api_keys py_repr api_key))
                (state w).
Proof.
  intros Hkeys Hlt Hfail Hpost Hgate Hex Hu Hb. unfold generate_image_openai.
  destruct (client_api_keys py_repr api_key) as [|k0 keys] eqn:E;
    [congruence|].
  unfold attempts_of.
  replace (Z.to_nat max_retry_attempts)
    with (k + S (Z.to_nat max_retry_attempts - S k)) by lia.
  rewrite seq_app. cbn [seq]. rewrite Nat.add_0_l.
  destruct (retry_loop_failed_prefix env b64decode images_dir absolute
              (build_url (mode_of api_format) model api_base)
              (build_payload (mode_of api_format) model prompt input_images)
              (k0 :: keys) Hkeys (seq 0 k)
              (k :: seq (S k) (Z.to_nat max_retry_attempts - S k))
              (fun a key H => Hfail a _ _ key (proj2 (proj1 (in_seq _ _ _) H)))
              w)
    as (w1 & -> & Hp1 & Hr1 & Hst1).
  rewrite length_seq in Hp1, Hr1, Hst1.
  destruct (retry_loop_null env b64decode images_dir absolute
              (build_url (mode_of api_format) model api_base)
              (build_payload (mode_of api_format) model prompt input_images)
              (k0 :: keys) Hkeys k
              (seq (S k) (Z.to_nat max_retry_attempts - S k)) data f w1
              (fun key => Hpost _ _ key) Hgate Hex (or_introl (conj Hu Hb)))
    as (w' & -> & _ & Hst & Hp & Hr & _).
  cbn [fst snd]. split; [reflexivity|]. split; [lia|]. split; [lia|].
  congruence.
Qed.

(** A chat answer that is plain prose, three passes allowed: on the
    first pass, and on the second after a first one answered 500. *)
Lemma empty_response_ends_call_witness :
  let first :=
    generate_image_openai
      (fun _ => io_with (PostResponse 200 (chat_response (JStr "Sorry, no.")))
                        (GetRaise NetworkError))
      (fun _ => "") (fun s => Ok s) "/plugin/images" (fun p => p)
      "a cat" (JList [JStr "k1"; JStr "k2"]) "gpt-image-1" None None None
      3 fresh_world in
  let second :=
    generate_image_openai
      (fun a => if a =? 0
                then io_with (PostResponse 500 JNull) (GetRaise NetworkError)
                else io_with
                       (PostResponse 200 (chat_response (JStr "Sorry, no.")))
                       (GetRaise NetworkError))
      (fun _ => "") (fun s => Ok s) "/plugin/images" (fun p => p)
      "a cat" (JList [JStr "k1"; JStr "k2"]) "gpt-image-1" None None None
      3 fresh_world in
  (snd first = no_result
   /\ posts (trace (fst first)) = 1
   /\ rotations (trace (fst first)) = 0
   /\ api_key_index (state (fst first)) = 0)
  /\ (snd second = no_result
      /\ posts (trace (fst second)) = 2
      /\ rotations (trace (fst second)) = 1
      /\ api_key_index (state (fst second)) = 1).
Proof.
  split.
  - destruct (empty_response_ends_call
                (fun _ => io_with
                            (PostResponse 200
                               (chat_response (JStr "Sorry, no.")))
                            (GetRaise NetworkError))
                (fun _ => "") (fun s => Ok s) "/plugin/images" (fun p => p)
                "a cat" (JList [JStr "k1"; JStr "k2"]) "gpt-image-1"
                None None None 3 fresh_world
                0 (chat_response (JStr "Sorry, no.")) nothing_found)
      as (Hres & Hp & Hr & Hst); try reflexivity.
    + simpl. discriminate.
    + intros a u p key Ha. lia.
    + split; [exact Hres|]. split; [exact Hp|]. split; [exact Hr|].
      rewrite Hst. reflexivity.
  - destruct (empty_response_ends_call
                (fun a => if a =? 0
                          then io_with (PostResponse 500 JNull)
                                       (GetRaise NetworkError)
                          else io_with
                                 (PostResponse 200
                                    (chat_response (JStr "Sorry, no.")))
                                 (GetRaise NetworkError))
                (fun _ => "") (fun s => Ok s) "/plugin/images" (fun p => p)
                "a cat" (JList [JStr "k1"; JStr "k2"]) "gpt-image-1"
                None None None 3 fresh_world
                1 (chat_response (JStr "Sorry, no.")) nothing_found)
      as (Hres & Hp & Hr & Hst); try reflexivity.
    + simpl. discriminate.
    + intros a u p key Ha. assert (a = 0) as -> by lia.
      simpl. discriminate.
    + split; [exact Hres|]. split; [exact Hp|]. split; [exact Hr|].
      rewrite Hst. reflexivity.
Defined.


(** Why the amended C1 asks for more than a failed download: when the
    content list carries an inline image and then a link, a 404 on the
    link is logged and the inline image is saved and returned. *)
Lemma failed_download_falls_back_to_inline :
  let run :=
    generate_image_openai
      (fun _ => io_with
                  (PostResponse 200
                     (chat_response
                        (JList
                           [JObj [("type", JStr "image_url");
                                  ("image_url",
                                   JObj [("url",
                                          JStr "data:image/png;base64,QUJD")])];
                            JObj [("type", JStr "image_url");
                                  ("image_url",
                                   JObj [("url",
                                          JStr "https://example.com/cat.png")])]])))
                  (GetResponse 404 ""))
      (fun _ => "") (fun s => Ok s) "/plugin/images" (fun p => p)
      "a cat" (JList [JStr "k1"; JStr "k2"]) "gpt-image-1" None None None
      3 fresh_world in
  snd run
  = (Some "file:///plugin/images/gemini_image_20260101_000000_0a1b2c3d.png",
     Some "/plugin/images/gemini_image_20260101_000000_0a1b2c3d.png")
  /\ posts (trace (fst run)) = 1
  /\ In (Log ERROR (DownloadFailed "https://example.com/cat.png"))
        (trace (fst run)).
Proof.
  vm_compute. repeat split; auto 10.
Qed.



(** C2 as stated fails: in the [contents] format a 200 answer that has
    a non-empty [candidates] list and no [choices] is not searched for
    an image; the pass is counted as a provider error and the key is
    rotated. *)
Lemma candidates_body_is_provider_error :
  let run :=
    generate_image_openai
      (fun _ => io_with (PostResponse 200 candidates_response)
                        (GetRaise NetworkError))
      (fun _ => "") (fun s => Ok s) "/plugin/images" (fun p => p)
      "a cat" (JList [JStr "k1"; JStr "k2"]) "gemini-2.0-flash"
      None (Some "https://generativelanguage.googleapis.com")
      (Some "gemini") 1 fresh_world in
  is_openai (mode_of (Some "gemini")) = false
  /\ has_choices 200 candidates_response = Ok false
  /\ snd run = no_result
  /\ rotations (trace (fst run)) = 1
  /\ In (Log WARNING (ApiError 0)) (trace (fst run))
  /\ last_saved_image (state (fst run)) = (None, None).
Proof.
  vm_compute. repeat split; auto 10.
Qed.

Lemma has_choices_dict (status : Z) (d : list (string * json)) :
  has_choices status (JObj d) = Ok true
  <-> status = 200%Z
      /\ exists c, Py.lookup "choices" d = Some c /\ Py.truthy c = true.
Proof.
  unfold has_choices. destruct (Z.eqb_spec status 200) as [->|Hne]; simpl.
  - destruct (Py.lookup "choices" d) as [c|]; simpl.
    + split.
      * intros H. split; [reflexivity|]. exists c. split; congruence.
      * intros (_ & c' & E & Ht). congruence.
    + split; [discriminate|]. intros (_ & c & E & _). discriminate.
  - split; [discriminate|]. now intros [E _].
Qed.

(** C2, amended: the provider mode selects the request body and the
    URL; the answer is read the same way in every mode. A dict body is
    searched for an image exactly when the status is 200 and its
    [choices] entry is non-empty; a body without [choices], whatever
    else it holds, makes every pass a provider error: as many requests
    and rotations as passes, then [(None, None)]. *)
Theorem response_parsing_ignores_mode
    (env : nat -> io) (py_repr : json -> string)
    (b64decode : string -> exc string)
    (images_dir : string) (absolute : string -> string)
    (prompt : string) (api_key : json) (model : string)
    (input_images : option (list string)) (api_base : option string)
    (api_format : option string) (max_retry_attempts : Z) (w : world)
    (status : Z) (d : list (string * json)) :
  (has_choices status (JObj d) = Ok true
   <-> status = 200%Z
       /\ exists c, Py.lookup "choices" d = Some c /\ Py.truthy c = true)
  /\ (client_api_keys py_repr api_key <> [] ->
      Py.lookup "choices" d = None ->
      (forall a u p key, io_post (env a) u p key = PostResponse status (JObj d)) ->
      let run :=
        generate_image_openai env py_repr b64decode images_dir absolute
          prompt api_key model input_images api_base api_format
          max_retry_attempts w in
      snd run = no_result
      /\ posts (trace (fst run))
         = posts (trace w) + Z.to_nat max_retry_attempts
      /\ rotations (trace (fst run))
         = rotations (trace w) + Z.to_nat max_retry_attempts).
Proof.
  split; [apply has_choices_dict|].
  intros Hkeys Hno Hpost. unfold generate_image_openai.
  destruct (client_api_keys py_repr api_key) as [|k keys] eqn:E;
    [congruence|].
  assert (Hfail : forall a key,
             not_usable
               (io_post (env a)
                  (build_url (mode_of api_format) model api_base)
                  (build_payload (mode_of api_format) model prompt
                                 input_images) key)).
  { intros a key. rewrite Hpost. simpl. intros H.
    apply has_choices_dict in H. destruct H as (_ & c & Hc & _).
    congruence. }
  destruct (retry_loop_all_fail env b64decode images_dir absolute
              (build_url (mode_of api_format) model api_base)
              (build_payload (mode_of api_format) model prompt input_images)
              (k :: keys) Hkeys (attempts_of max_retry_attempts) Hfail w)
    as (w' & -> & Hp & Hr & _).
  rewrite attempts_of_length in Hp, Hr. simpl. now repeat split.
Qed.

(** The [candidates] body in both modes, two passes each. *)
Lemma response_parsing_ignores_mode_witness :
  let run api_format :=
    generate_image_openai
      (fun _ => io_with (PostResponse 200 candidates_response)
                        (GetRaise NetworkError))
      (fun _ => "") (fun s => Ok s) "/plugin/images" (fun p => p)
      "a cat" (JStr "k1") "gemini-2.0-flash" None None api_format
      2 fresh_world in
  (snd (run (Some "gemini")) = no_result
   /\ rotations (trace (fst (run (Some "gemini")))) = 2)
  /\ (snd (run (Some "openai")) = no_result
      /\ rotations (trace (fst (run (Some "openai")))) = 2).
Proof.
  assert (H : forall api_format,
             let run :=
               generate_image_openai
                 (fun _ => io_with (PostResponse 200 candidates_response)
                                   (GetRaise NetworkError))
                 (fun _ => "") (fun s => Ok s) "/plugin/images" (fun p => p)
                 "a cat" (JStr "k1") "gemini-2.0-flash" None None api_format
                 2 fresh_world in
             snd run = no_result /\ rotations (trace (fst run)) = 2).
  { intros api_format.
    destruct (response_parsing_ignores_mode
                (fun _ => io_with (PostResponse 200 candidates_response)
                                  (GetRaise NetworkError))
                (fun _ => "") (fun s => Ok s) "/plugin/images" (fun p => p)
                "a cat" (JStr "k1") "gemini-2.0-flash" None None api_format
                2 fresh_world 200%Z
                [("candidates",
                  JList [JObj [("content",
                                JObj [("parts",
                                       JList [JObj [("inlineData",
                                                     JObj [("mimeType", JStr "image/png");
                                                           ("data", JStr "QUJD")])]])])]])])
      as [_ H].
    destruct H as (Hres & _ & Hr); try reflexivity.
    - simpl. discriminate.
    - split; assumption. }
  split; apply H.
Defined.

(* ------------------------------------------------------------------ *)
(** * Properties of the configuration lists and the group filter *)

Lemma strip_no_space (s : string) :
  all_chars (fun c => negb (PyStr.is_space c)) s = true -> PyStr.strip s = s.
Proof.
  intros H. unfold PyStr.strip.
  assert (Hl : PyStr.lstrip s = s).
  { destruct s as [|c s]; [reflexivity|]. simpl in *.
    apply andb_true_iff in H. destruct H as [Hc _].
    apply negb_true_iff in Hc. now rewrite Hc. }
  rewrite Hl. induction s as [|c s IH]; [reflexivity|].
  simpl in *. apply andb_true_iff in H. destruct H as [Hc Hs].
  apply negb_true_iff in Hc. rewrite Hc. simpl. rewrite IH; [reflexivity|assumption|].
  destruct s as [|c' s]; [reflexivity|]. simpl in *.
  apply andb_true_iff in Hs. destruct Hs as [Hc' _].
  apply negb_true_iff in Hc'. now rewrite Hc'.
Qed.

Lemma string_of_uint_no_space (d : Decimal.uint) :
  all_chars (fun c => negb (PyStr.is_space c)) (NilEmpty.string_of_uint d)
  = true.
Proof. induction d; simpl; try reflexivity; exact IHd. Qed.

(** The decimal text of an integer is non-empty and has nothing to
    strip. *)
Lemma of_Z_plain (n : Z) :
  PyStr.strip (PyStr.of_Z n) = PyStr.of_Z n
  /\ PyStr.truthy (PyStr.of_Z n) = true.
Proof.
  split.
  - apply strip_no_space. unfold PyStr.of_Z, NilEmpty.string_of_int.
    destruct (Z.to_int n) as [d|d]; simpl;
      apply string_of_uint_no_space.
  - unfold PyStr.of_Z, NilEmpty.string_of_int.
    destruct n as [|p|p]; simpl; [reflexivity| |reflexivity].
    pose proof (DecimalPos.Unsigned.to_uint_nonnil p) as H.
    destruct (Pos.to_uint p); [congruence | reflexivity ..].
Qed.

Lemma id_list_is_key_list (py_repr : json -> string) (value : json) :
  _normalize_id_list py_repr value = _normalize_api_keys py_repr value.
Proof. reflexivity. Qed.

Lemma split_parts_differ (sep : ascii) (s : string) :
  Forall (fun part => all_chars (differs sep) part = true)
         (PyStr.split sep s).
Proof.
  induction s as [|c s IH]; simpl; [repeat constructor|].
  destruct (Ascii.eqb c sep) eqn:Hc.
  - constructor; [reflexivity | exact IH].
  - destruct (PyStr.split sep s) as [|h t]; [repeat constructor; simpl|].
    + unfold differs. now rewrite Hc.
    + inversion IH as [|? ? Hh Ht]; subst. constructor; [|exact Ht].
      simpl. unfold differs at 1. now rewrite Hc.
Qed.

Lemma all_chars_lstrip (p : ascii -> bool) (s : string) :
  all_chars p s = true -> all_chars p (PyStr.lstrip s) = true.
Proof.
  induction s as [|c s IH]; simpl; [reflexivity|]. intros H.
  destruct (PyStr.is_space c); [|exact H].
  apply andb_true_iff in H. now apply IH.
Qed.

Lemma all_chars_rstrip (p : ascii -> bool) (s : string) :
  all_chars p s = true -> all_chars p (PyStr.rstrip s) = true.
Proof.
  induction s as [|c s IH]; simpl; [reflexivity|]. intros H.
  apply andb_true_iff in H. destruct H as [Hc Hs].
  destruct (PyStr.is_space c && PyStr.is_empty (PyStr.rstrip s));
    [reflexivity|]. simpl. now rewrite Hc, IH.
Qed.

(** X1: Every normalized group id is non-empty and stripped; normalizing
    the list again changes nothing; ids cut out of a comma-separated
    string hold no comma. *)
Theorem normalize_id_list_stable (py_repr : json -> string) (value : json)
    (s : string) :
  let ids := _normalize_id_list py_repr value in
  Forall (fun gid => gid <> "" /\ PyStr.strip gid = gid) ids
  /\ _normalize_id_list py_repr (JList (map JStr ids)) = ids
  /\ Forall (fun gid => all_chars (differs ",") gid = true)
            (_normalize_id_list py_repr (JStr s)).
Proof.
  intro ids. subst ids. rewrite !id_list_is_key_list.
  pose proof (normalized_keys_stripped py_repr value) as H.
  split; [|split].
  - eapply Forall_impl; [|exact H]. intros k [Hs Ht].
    split; [now apply truthy_nonempty | exact Hs].
  - rewrite id_list_is_key_list.
    unfold _normalize_api_keys at 1. rewrite fold_skip_null. cbn [app].
    induction H as [|k l [Hs Ht] _ IH]; [reflexivity|].
    simpl. rewrite Hs, Ht. now rewrite IH.
  - try rewrite id_list_is_key_list. unfold _normalize_api_keys.
    rewrite fold_append_if_nonempty. apply Forall_forall. intros k Hk.
    apply filter_In in Hk. destruct Hk as [Hk _].
    apply in_map_iff in Hk. destruct Hk as (part & <- & Hpart).
    pose proof (split_parts_differ "," s) as Hd.
    rewrite Forall_forall in Hd. unfold PyStr.strip.
    apply all_chars_rstrip, all_chars_lstrip. now apply Hd.
Qed.

Lemma in_list_spec (gid : string) (l : list string) :
  in_list gid l = true <-> In gid l.
Proof.
  unfold in_list. rewrite existsb_exists. split.
  - intros (x & Hx & E). apply String.eqb_eq in E. now subst.
  - intros H. exists gid. split; [exact H | apply String.eqb_refl].
Qed.

Lemma group_filter_in_group (py_repr : json -> string)
    (ids : list string) (group_id : json) :
  Py.truthy group_id = true ->
  _is_group_allowed py_repr "whitelist" ids (Ok group_id)
  = Ok (in_list (py_str py_repr group_id) ids)
  /\ _is_group_allowed py_repr "blacklist" ids (Ok group_id)
     = Ok (negb (in_list (py_str py_repr group_id) ids)).
Proof.
  intros H. unfold _is_group_allowed. simpl. rewrite H. now split.
Qed.

(** X2: Outside a group (no group id, an empty one, or an event without
    [get_group_id]) every command is allowed, whatever the filter; in a
    group the whitelist and the blacklist give opposite answers on the
    same list, and any other mode lets everything through. *)
Theorem group_filter_modes (py_repr : json -> string) (mode : string)
    (ids : list string) (get_group_id : exc json) (group_id : json) :
  group_id_of get_group_id = Ok group_id ->
  (Py.truthy group_id = false ->
     _is_group_allowed py_repr mode ids get_group_id = Ok true)
  /\ (Py.truthy group_id = true ->
      _is_group_allowed py_repr "whitelist" ids get_group_id
      = Ok (in_list (py_str py_repr group_id) ids)
      /\ _is_group_allowed py_repr "blacklist" ids get_group_id
         = Ok (negb (in_list (py_str py_repr group_id) ids))
      /\ (mode <> "whitelist" -> mode <> "blacklist" ->
          _is_group_allowed py_repr mode ids get_group_id = Ok true)).
Proof.
  intros Hg. unfold _is_group_allowed. rewrite Hg. simpl. split.
  - intros ->. reflexivity.
  - intros ->. simpl. repeat split.
    intros Hw Hb. destruct mode as [|c m]; [reflexivity|].
    change (PyStr.truthy (String c m)) with true. cbv beta iota zeta.
    apply String.eqb_neq in Hw, Hb. now rewrite Hw, Hb.
Qed.

(** A private chat under an empty whitelist, and group 42 under the
    two modes. *)
Lemma group_filter_modes_witness :
  _is_group_allowed (fun _ => "") "whitelist" [] (Raise AttributeError)
  = Ok true
  /\ _is_group_allowed (fun _ => "") "whitelist" ["42"] (Ok (JStr "42"))
     = Ok true
  /\ _is_group_allowed (fun _ => "") "blacklist" ["42"] (Ok (JStr "42"))
     = Ok false.
Proof.
  split; [|split].
  - destruct (group_filter_modes (fun _ => "") "whitelist" []
                (Raise AttributeError) JNull eq_refl) as [H _].
    apply H. reflexivity.
  - destruct (group_filter_modes (fun _ => "") "whitelist" ["42"]
                (Ok (JStr "42")) (JStr "42") eq_refl) as [_ H].
    destruct (H eq_refl) as (Hw & _ & _). exact Hw.
  - destruct (group_filter_modes (fun _ => "") "whitelist" ["42"]
                (Ok (JStr "42")) (JStr "42") eq_refl) as [_ H].
    destruct (H eq_refl) as (_ & Hb & _). exact Hb.
Defined.

(** X3: A group listed by number in the configuration is recognised whether
    the event gives its id as a number or as the decimal text: allowed
    under the whitelist, refused under the blacklist. *)
Theorem group_filter_numeric_ids (py_repr : json -> string)
    (entries : list json) (n : Z) (group_id : json) :
  In (JNum n) entries ->
  n <> 0%Z ->
  group_id = JNum n \/ group_id = JStr (PyStr.of_Z n) ->
  _is_group_allowed py_repr "whitelist"
    (_normalize_id_list py_repr (JList entries)) (Ok group_id) = Ok true
  /\ _is_group_allowed py_repr "blacklist"
       (_normalize_id_list py_repr (JList entries)) (Ok group_id) = Ok false.
Proof.
  intros Hin Hn Hg.
  destruct (of_Z_plain n) as [Hs Ht].
  assert (Hmem : in_list (PyStr.of_Z n)
                   (_normalize_id_list py_repr (JList entries)) = true).
  { apply in_list_spec. rewrite id_list_is_key_list.
    unfold _normalize_api_keys. rewrite fold_skip_null.
    apply filter_In. split; [|exact Ht].
    apply in_map_iff. exists (JNum n). split; [exact Hs|].
    apply filter_In. now split. }
  assert (Htruthy : Py.truthy group_id = true).
  { destruct Hg as [-> | ->]; simpl; [|exact Ht].
    apply negb_true_iff. now apply Z.eqb_neq. }
  assert (Hstr : py_str py_repr group_id = PyStr.of_Z n)
    by (destruct Hg as [-> | ->]; reflexivity).
  destruct (group_filter_in_group py_repr
              (_normalize_id_list py_repr (JList entries)) group_id Htruthy)
    as [Hw Hb].
  rewrite Hw, Hb, Hstr, Hmem. now split.
Qed.

(** Group 123456 listed as a number beside a textual id. *)
Lemma group_filter_numeric_ids_witness :
  _is_group_allowed (fun _ => "") "whitelist"
    (_normalize_id_list (fun _ => "") (JList [JStr " 99 "; JNum 123456]))
    (Ok (JStr (PyStr.of_Z 123456))) = Ok true.
Proof.
  apply (group_filter_numeric_ids (fun _ => "")
           [JStr " 99 "; JNum 123456] 123456 (JStr (PyStr.of_Z 123456))).
  - simpl. tauto.
  - discriminate.
  - now right.
Defined.

(* ------------------------------------------------------------------ *)
(** * Properties of the rate limit *)

Lemma dict_get_set_same {V} (k : string) (v : V) (d : list (string * V)) :
  dict_get k (dict_set k v d) = Some v.
Proof.
  induction d as [|[k' x] d IH]; simpl.
  - now rewrite String.eqb_refl.
  - destruct (String.eqb k k') eqn:E; simpl; rewrite E; [reflexivity|exact IH].
Qed.

Lemma dict_get_set_other {V} (k k' : string) (v : V)
    (d : list (string * V)) :
  k' <> k -> dict_get k' (dict_set k v d) = dict_get k' d.
Proof.
  intros Hne. induction d as [|[k0 x] d IH]; simpl.
  - apply String.eqb_neq in Hne. now rewrite Hne.
  - destruct (String.eqb k k0) eqn:E; simpl.
    + apply String.eqb_eq in E. subst k0.
      apply String.eqb_neq in Hne. now rewrite Hne.
    + destruct (String.eqb k' k0); [reflexivity | exact IH].
Qed.

Section RateLimit.

Variable py_repr : json -> string.
Variable time : Type.
Variable elapsed_ge : time -> time -> Z -> bool.

(** The entry a call works on: the stored one, or a fresh window when
    there is none or the stored one has run out. *)
Lemma rate_limit_step (self : limiter time) (v : json) (now : time) :
  (0 < rate_limit_max_calls_per_group self)%Z ->
  (0 < rate_limit_period_seconds self)%Z ->
  Py.truthy v = true ->
  exists window_start count,
    (match dict_get (py_str py_repr v) (_rate_limit_state self) with
     | Some (ws, c) =>
         if elapsed_ge now ws (rate_limit_period_seconds self)
         then (window_start, count) = (now, 0%Z)
         else (window_start, count) = (ws, c)
     | None => (window_start, count) = (now, 0%Z)
     end)
    /\ _check_and_consume_rate_limit py_repr time elapsed_ge self (Ok v) now
       = if (rate_limit_max_calls_per_group self <=? count)%Z
         then (self, Ok false)
         else (with_state self
                 (dict_set (py_str py_repr v) (window_start, (count + 1)%Z)
                           (_rate_limit_state self)),
               Ok true).
Proof.
  intros Hm Hp Hv. unfold _check_and_consume_rate_limit.
  apply Z.leb_gt in Hm, Hp. rewrite Hm, Hp. simpl. rewrite Hv. simpl.
  destruct (dict_get (py_str py_repr v) (_rate_limit_state self))
    as [[ws c]|].
  - destruct (elapsed_ge now ws (rate_limit_period_seconds self)).
    + now exists now, 0%Z.
    + now exists ws, c.
  - destruct (elapsed_ge now now (rate_limit_period_seconds self));
      now exists now, 0%Z.
Qed.

(** A call that is not for a group, or made with the limit switched
    off, is allowed and leaves the limiter as it is. *)
Lemma rate_limit_pass (self : limiter time) (g : exc json) (now : time) :
  (rate_limit_max_calls_per_group self <= 0)%Z
  \/ (rate_limit_period_seconds self <= 0)%Z
  \/ (exists v, group_id_of g = Ok v /\ Py.truthy v = false) ->
  _check_and_consume_rate_limit py_repr time elapsed_ge self g now
  = (self, Ok true).
Proof.
  unfold _check_and_consume_rate_limit.
  destruct (Z.leb_spec (rate_limit_max_calls_per_group self) 0) as [Hm|Hm];
    [reflexivity|].
  destruct (Z.leb_spec (rate_limit_period_seconds self) 0) as [Hp|Hp];
    [reflexivity|]. simpl.
  intros [H | [H | (v & -> & Hv)]]; [lia | lia |]. now rewrite Hv.
Qed.

Lemma rate_limit_by_group_id (self : limiter time) (g : exc json)
    (v : json) (now : time) :
  group_id_of g = Ok v ->
  _check_and_consume_rate_limit py_repr time elapsed_ge self g now
  = _check_and_consume_rate_limit py_repr time elapsed_ge self (Ok v) now.
Proof.
  intros H. unfold _check_and_consume_rate_limit. now rewrite H.
Qed.

Lemma rate_limit_raise (self : limiter time) (g : exc json) (e : exn)
    (now : time) :
  group_id_of g = Raise e ->
  _check_and_consume_rate_limit py_repr time elapsed_ge self g now
  = (self, Raise e)
  \/ _check_and_consume_rate_limit py_repr time elapsed_ge self g now
     = (self, Ok true).
Proof.
  intros H. unfold _check_and_consume_rate_limit. rewrite H.
  destruct (_ || _); [now right | now left].
Qed.

(** X4: A call is refused exactly when the limit is switched on, the event
    comes from a group, and that group's stored window has not run out
    and already counts the limit; a call that is not allowed leaves the
    limiter untouched, and no call touches the limits or the entry of
    another group. *)
Theorem rate_limit_refusal (self : limiter time) (g : exc json)
    (now : time) :
  let run :=
    _check_and_consume_rate_limit py_repr time elapsed_ge self g now in
  (snd run = Ok false <->
     (0 < rate_limit_max_calls_per_group self)%Z
     /\ (0 < rate_limit_period_seconds self)%Z
     /\ exists v window_start count,
          group_id_of g = Ok v /\ Py.truthy v = true
          /\ dict_get (py_str py_repr v) (_rate_limit_state self)
             = Some (window_start, count)
          /\ elapsed_ge now window_start (rate_limit_period_seconds self)
             = false
          /\ (rate_limit_max_calls_per_group self <= count)%Z)
  /\ (snd run <> Ok true -> fst run = self)
  /\ rate_limit_max_calls_per_group (fst run)
     = rate_limit_max_calls_per_group self
  /\ rate_limit_period_seconds (fst run) = rate_limit_period_seconds self
  /\ (forall v other,
        group_id_of g = Ok v -> other <> py_str py_repr v ->
        dict_get other (_rate_limit_state (fst run))
        = dict_get other (_rate_limit_state self)).
Proof.
  intro run. subst run.
  destruct (Z.leb_spec (rate_limit_max_calls_per_group self) 0) as [Hm|Hm].
  { rewrite rate_limit_pass by now left. simpl.
    repeat split; try congruence; try discriminate. intros (H & _). lia. }
  destruct (Z.leb_spec (rate_limit_period_seconds self) 0) as [Hp|Hp].
  { rewrite rate_limit_pass by (right; now left). simpl.
    repeat split; try congruence; try discriminate. intros (_ & H & _). lia. }
  destruct (group_id_of g) as [v|e] eqn:Hg.
  2:{ destruct (rate_limit_raise self g e now Hg) as [-> | ->]; simpl;
        repeat split; try congruence; try discriminate;
        intros (_ & _ & v & ws & c & H & _); discriminate. }
  rewrite (rate_limit_by_group_id self g v now Hg).
  destruct (Py.truthy v) eqn:Hv.
  2:{ rewrite rate_limit_pass
        by (right; right; exists v; now split). simpl.
      repeat split; try congruence; try discriminate.
      intros (_ & _ & v' & ws & c & H & Hv' & _). congruence. }
  destruct (rate_limit_step self v now Hm Hp Hv) as (ws & c & Hentry & ->).
  destruct (Z.leb_spec (rate_limit_max_calls_per_group self) c) as [Hc|Hc];
    simpl.
  - split; [split|now repeat split].
    + intros _. split; [exact Hm|]. split; [exact Hp|].
      destruct (dict_get (py_str py_repr v) (_rate_limit_state self))
        as [[ws0 c0]|] eqn:Eget.
      * destruct (elapsed_ge now ws0 (rate_limit_period_seconds self))
          eqn:Eel; injection Hentry as -> ->; [lia|].
        exists v, ws0, c0. now repeat split.
      * injection Hentry as -> ->. lia.
    + reflexivity.
  - split; [split|].
    + discriminate.
    + intros (_ & _ & v' & ws' & c' & Hv' & _ & Eget & Eel & Hle).
      injection Hv' as <-. rewrite Eget, Eel in Hentry.
      injection Hentry as -> ->. lia.
    + split; [congruence|]. split; [reflexivity|]. split; [reflexivity|].
      intros v' other Hv' Hne. injection Hv' as <-.
      now apply dict_get_set_other.
Qed.

Lemma rate_limit_keeps_limit (self : limiter time) (g : exc json)
    (now : time) :
  rate_limit_max_calls_per_group
    (fst (_check_and_consume_rate_limit py_repr time elapsed_ge self g now))
  = rate_limit_max_calls_per_group self.
Proof.
  unfold _check_and_consume_rate_limit.
  destruct (_ || _); [reflexivity|].
  destruct (group_id_of g) as [v|e]; [|reflexivity].
  destruct (negb (Py.truthy v)); [reflexivity|].
  destruct (match dict_get (py_str py_repr v) (_rate_limit_state self) with
            | Some entry => entry
            | None => (now, 0%Z)
            end) as [ws c].
  destruct (elapsed_ge now ws (rate_limit_period_seconds self));
    destruct (_ <=? _)%Z; reflexivity.
Qed.

Lemma rate_limit_keeps_bound (self : limiter time) (g : exc json)
    (now : time) :
  counts_bounded (rate_limit_max_calls_per_group self)
                 (_rate_limit_state self) ->
  counts_bounded
    (rate_limit_max_calls_per_group self)
    (_rate_limit_state
       (fst (_check_and_consume_rate_limit py_repr time elapsed_ge
               self g now))).
Proof.
  intros Hinv.
  destruct (Z.leb_spec (rate_limit_max_calls_per_group self) 0) as [Hm|Hm].
  { now rewrite rate_limit_pass by now left. }
  destruct (Z.leb_spec (rate_limit_period_seconds self) 0) as [Hp|Hp].
  { now rewrite rate_limit_pass by (right; now left). }
  destruct (group_id_of g) as [v|e] eqn:Hg.
  2:{ now destruct (rate_limit_raise self g e now Hg) as [-> | ->]. }
  rewrite (rate_limit_by_group_id self g v now Hg).
  destruct (Py.truthy v) eqn:Hv.
  2:{ now rewrite rate_limit_pass by (right; right; exists v; now split). }
  destruct (rate_limit_step self v now Hm Hp Hv) as (ws & c & Hentry & ->).
  destruct (Z.leb_spec (rate_limit_max_calls_per_group self) c) as [Hc|Hc];
    simpl; [exact Hinv|].
  assert (Hc0 : (0 <= c)%Z).
  { destruct (dict_get (py_str py_repr v) (_rate_limit_state self))
      as [[ws0 c0]|] eqn:Eget.
    - destruct (elapsed_ge now ws0 (rate_limit_period_seconds self));
        injection Hentry as -> ->; [lia|].
      specialize (Hinv _ _ _ Eget). lia.
    - injection Hentry as -> ->. lia. }
  intros gid ws' c' Hget.
  destruct (String.eqb_spec gid (py_str py_repr v)) as [->|Hne].
  - rewrite dict_get_set_same in Hget. injection Hget as <- <-. lia.
  - rewrite dict_get_set_other in Hget by exact Hne. now apply (Hinv gid ws').
Qed.

Lemma rate_limit_calls_keep (self : limiter time)
    (calls : list (exc json * time)) :
  counts_bounded (rate_limit_max_calls_per_group self)
                 (_rate_limit_state self) ->
  rate_limit_max_calls_per_group
    (fst (rate_limit_calls py_repr time elapsed_ge self calls))
  = rate_limit_max_calls_per_group self
  /\ counts_bounded
       (rate_limit_max_calls_per_group self)
       (_rate_limit_state
          (fst (rate_limit_calls py_repr time elapsed_ge self calls))).
Proof.
  revert self. induction calls as [|[g now] rest IH]; intros self Hinv;
    simpl; [now split|].
  pose proof (rate_limit_keeps_bound self g now Hinv) as Hstep.
  pose proof (rate_limit_keeps_limit self g now) as Hmax.
  destruct (_check_and_consume_rate_limit py_repr time elapsed_ge self g now)
    as [self' [b|e]]; simpl in *; [|now split].
  rewrite <- Hmax in Hstep. destruct (IH self' Hstep) as [Hm' Hb'].
  destruct (rate_limit_calls py_repr time elapsed_ge self' rest)
    as [self'' bs]. simpl in *. rewrite <- Hmax. now split; [congruence|].
Qed.

(** X5: Whatever calls come in, from whatever groups and at whatever
    times, no stored counter ever leaves the range from 1 to the
    limit. *)
Theorem rate_limit_counts_bounded (max_calls period : Z)
    (calls : list (exc json * time)) :
  counts_bounded max_calls
    (_rate_limit_state
       (fst (rate_limit_calls py_repr time elapsed_ge
               (fresh_limiter time max_calls period) calls))).
Proof.
  apply (rate_limit_calls_keep (fresh_limiter time max_calls period) calls).
  intros gid ws c H. discriminate H.
Qed.

Lemma limit_reached_answers (max_calls c : Z) (s n : nat) :
  (max_calls <= c)%Z ->
  map (fun i => (c + Z.of_nat i <? max_calls)%Z) (seq s n) = repeat false n.
Proof.
  intros H. revert s. induction n as [|n IH]; intros s; simpl; [reflexivity|].
  rewrite IH. f_equal. apply Z.ltb_ge. lia.
Qed.

Lemma next_answers (max_calls c : Z) (n : nat) :
  (c <? max_calls)%Z
  :: map (fun i => (c + 1 + Z.of_nat i <? max_calls)%Z) (seq 0 n)
  = map (fun i => (c + Z.of_nat i <? max_calls)%Z) (seq 0 (S n)).
Proof.
  simpl. f_equal; [f_equal; lia|].
  rewrite <- seq_shift, map_map. apply map_ext. intros i. f_equal. lia.
Qed.

(** Calls of one group inside its stored window. *)
Lemma rate_limit_within_window (v : json) (times : list time) :
  Py.truthy v = true ->
  forall (self : limiter time) (window_start : time) (count : Z),
    (0 < rate_limit_max_calls_per_group self)%Z ->
    (0 < rate_limit_period_seconds self)%Z ->
    dict_get (py_str py_repr v) (_rate_limit_state self)
    = Some (window_start, count) ->
    (forall t, In t times ->
               elapsed_ge t window_start (rate_limit_period_seconds self)
               = false) ->
    snd (rate_limit_calls py_repr time elapsed_ge self
           (map (fun t => (Ok v, t)) times))
    = map (fun i =>
             (count + Z.of_nat i <? rate_limit_max_calls_per_group self)%Z)
          (seq 0 (List.length times)).
Proof.
  intros Hv. induction times as [|t rest IH];
    intros self ws c Hm Hp Hget Hin; [reflexivity|].
  cbn [map rate_limit_calls List.length].
  destruct (rate_limit_step self v t Hm Hp Hv) as (ws' & c' & Hentry & ->).
  rewrite Hget, (Hin t (or_introl eq_refl)) in Hentry.
  injection Hentry as -> ->.
  destruct (Z.leb_spec (rate_limit_max_calls_per_group self) c) as [Hc|Hc].
  - specialize (IH self ws c Hm Hp Hget
                  (fun t' H => Hin t' (or_intror H))).
    destruct (rate_limit_calls py_repr time elapsed_ge self
                (map (fun t => (Ok v, t)) rest)) as [self' bs].
    simpl in IH. cbv beta iota. cbn [snd]. subst bs.
    rewrite !limit_reached_answers by exact Hc. reflexivity.
  - specialize (IH (with_state self
                      (dict_set (py_str py_repr v) (ws, (c + 1)%Z)
                                (_rate_limit_state self)))
                   ws (c + 1)%Z Hm Hp (dict_get_set_same _ _ _)
                   (fun t' H => Hin t' (or_intror H))).
    destruct (rate_limit_calls py_repr time elapsed_ge
                (with_state self
                   (dict_set (py_str py_repr v) (ws, (c + 1)%Z)
                             (_rate_limit_state self)))
                (map (fun t => (Ok v, t)) rest)) as [self' bs].
    simpl in IH. cbv beta iota. cbn [snd]. subst bs.
    cbn [rate_limit_max_calls_per_group with_state].
    rewrite <- next_answers. f_equal. symmetry. now apply Z.ltb_lt.
Qed.

(** X6: With the limit switched on, a group that calls repeatedly inside
    one window is allowed exactly its first [max_calls] calls and
    refused from then on. *)
Theorem rate_limit_window (max_calls period : Z) (v : json)
    (times : list time) :
  (0 < max_calls)%Z ->
  (0 < period)%Z ->
  Py.truthy v = true ->
  (forall t t', In t times -> In t' times ->
                elapsed_ge t t' period = false) ->
  snd (rate_limit_calls py_repr time elapsed_ge
         (fresh_limiter time max_calls period)
         (map (fun t => (Ok v, t)) times))
  = map (fun i => (Z.of_nat i <? max_calls)%Z) (seq 0 (List.length times)).
Proof.
  intros Hm Hp Hv Hin. destruct times as [|t rest]; [reflexivity|].
  cbn [map rate_limit_calls List.length].
  destruct (rate_limit_step (fresh_limiter time max_calls period) v t
              Hm Hp Hv) as (ws' & c' & Hentry & ->).
  simpl in Hentry. injection Hentry as -> ->.
  cbn [rate_limit_max_calls_per_group fresh_limiter].
  apply Z.leb_gt in Hm as Hm'. rewrite Hm'.
  change (_rate_limit_state (fresh_limiter time max_calls period))
    with (@nil (string * (time * Z))).
  pose proof (rate_limit_within_window v rest Hv
                (with_state (fresh_limiter time max_calls period)
                   (dict_set (py_str py_repr v) (t, (0 + 1)%Z) []))
                t (0 + 1)%Z Hm Hp (dict_get_set_same _ _ _)
                (fun t' H => Hin t' t (or_intror H) (or_introl eq_refl)))
    as Hrest.
  destruct (rate_limit_calls py_repr time elapsed_ge
              (with_state (fresh_limiter time max_calls period)
                 (dict_set (py_str py_repr v) (t, (0 + 1)%Z) []))
              (map (fun t => (Ok v, t)) rest)) as [self' bs].
  cbn [snd] in Hrest. cbv beta iota. cbn [snd]. subst bs.
  cbn [rate_limit_max_calls_per_group with_state fresh_limiter].
  cbn [seq map]. f_equal; [symmetry; now apply Z.ltb_lt|].
  rewrite <- seq_shift, map_map. apply map_ext. intros i. f_equal. lia.
Qed.

End RateLimit.

(** Limit 2 per 60 seconds; group 42 calls at seconds 100, 130 and
    159. *)
Lemma rate_limit_window_witness :
  snd (rate_limit_calls (fun _ => "") Z elapsed_ge_Z
         (fresh_limiter Z 2 60)
         (map (fun t => (Ok (JStr "42"), t)) [100; 130; 159]%Z))
  = [true; true; false].
Proof.
  apply (rate_limit_window (fun _ => "") Z elapsed_ge_Z 2 60 (JStr "42")
           [100; 130; 159]%Z); try reflexivity.
  simpl. intros t t' [<- | [<- | [<- | []]]] [<- | [<- | [<- | []]]];
    reflexivity.
Defined.

(** Three calls of group 42 under a limit of 2: the stored counter is
    within the limit. *)
Lemma rate_limit_counts_bounded_witness : (1 <= 2 <= 2)%Z.
Proof.
  apply (rate_limit_counts_bounded (fun _ => "") Z elapsed_ge_Z 2 60
           (map (fun t => (Ok (JStr "42"), t)) [100; 130; 159]%Z)
           "42" 100%Z 2%Z).
  reflexivity.
Defined.

(** Group 42 is at its limit of 2 inside its window: the third call is
    refused and changes nothing. *)
Lemma rate_limit_refusal_witness :
  _check_and_consume_rate_limit (fun _ => "") Z elapsed_ge_Z
    {| rate_limit_max_calls_per_group := 2;
       rate_limit_period_seconds := 60;
       _rate_limit_state := [("42", (100%Z, 2%Z))] |}
    (Ok (JStr "42")) 159%Z
  = ({| rate_limit_max_calls_per_group := 2;
        rate_limit_period_seconds := 60;
        _rate_limit_state := [("42", (100%Z, 2%Z))] |}, Ok false).
Proof.
  pose proof (rate_limit_refusal (fun _ => "") Z elapsed_ge_Z
                {| rate_limit_max_calls_per_group := 2;
                   rate_limit_period_seconds := 60;
                   _rate_limit_state := [("42", (100%Z, 2%Z))] |}
                (Ok (JStr "42")) 159%Z) as (Hiff & Hsame & _).
  destruct (_check_and_consume_rate_limit (fun _ => "") Z elapsed_ge_Z _ _ _)
    as [self' r]. simpl in Hiff, Hsame.
  assert (Hr : r = Ok false).
  { apply Hiff. split; [reflexivity|]. split; [reflexivity|].
    exists (JStr "42"), 100%Z, 2%Z. repeat split. discriminate. }
  rewrite Hr in *. f_equal. apply Hsame. discriminate.
Defined.

(* ------------------------------------------------------------------ *)
(** * Properties of the global override layer *)

Section GlobalOverrides.

Import GlobalConfig.

Variable py_repr : json -> string.
Variable int_of_str : string -> option Z.

Lemma when_present_inv (P : plugin -> Prop) (plugin_config : json)
    (key : string) (assign : json -> plugin -> plugin) :
  (forall v s, P s -> P (assign v s)) ->
  forall s, P s -> P (fst (when_present plugin_config key assign s)).
Proof.
  intros Hassign s Hs. unfold when_present.
  destruct (Py.contains key plugin_config) as [[]|]; simpl; try exact Hs.
  destruct (Py.getitem key plugin_config); simpl; [now apply Hassign|exact Hs].
Qed.

Lemma seq_step_inv (P : plugin -> Prop) (a b : step) :
  (forall s, P s -> P (fst (a s))) ->
  (forall s, P s -> P (fst (b s))) ->
  forall s, P s -> P (fst (seq_step a b s)).
Proof.
  intros Ha Hb s Hs. unfold seq_step. specialize (Ha s Hs).
  destruct (a s) as [s' [u|e]]; simpl in *; [now apply Hb | exact Ha].
Qed.

(** Whatever holds of the plugin and is kept by each of the five
    assignments holds after the overrides, however far they got. *)
Lemma overrides_inv (P : plugin -> Prop) (plugin_config : json) :
  (forall v s, P s -> P (set_model_name py_repr v s)) ->
  (forall v s, P s -> P (set_api_keys py_repr v s)) ->
  (forall v s, P s -> P (set_api_base py_repr v s)) ->
  (forall v s, P s -> P (set_max_retry_attempts int_of_str v s)) ->
  (forall v s, P s -> P (set_api_format py_repr v s)) ->
  forall s, P s -> P (fst (overrides py_repr int_of_str plugin_config s)).
Proof.
  intros H1 H2 H3 H4 H5. unfold overrides.
  repeat (apply seq_step_inv; [now apply when_present_inv|]).
  now apply when_present_inv.
Qed.

(** X7: The global overrides are applied at most once: after a call the
    loaded flag is set, also when the lookup or an override failed, and
    every later call returns the plugin as it finds it. *)
Theorem global_config_loaded_once (first later : exc json)
    (self : plugin) :
  _global_config_loaded
    (_load_global_config py_repr int_of_str first self) = true
  /\ _load_global_config py_repr int_of_str later
       (_load_global_config py_repr int_of_str first self)
     = _load_global_config py_repr int_of_str first self.
Proof.
  assert (H : _global_config_loaded
                (_load_global_config py_repr int_of_str first self) = true).
  { unfold _load_global_config.
    destruct (_global_config_loaded self) eqn:E; [exact E|].
    destruct first; reflexivity. }
  split; [exact H|].
  unfold _load_global_config at 1. now rewrite H.
Qed.

(** X8: What the overrides cannot break: the format stays the local one or
    becomes one of the two known names, and a model name, a base URL
    and keys that were non-empty stay non-empty. *)
Theorem global_config_keeps_valid (global_get : exc json) (self : plugin) :
  let loaded := _load_global_config py_repr int_of_str global_get self in
  (api_format loaded = api_format self
   \/ api_format loaded = "openai" \/ api_format loaded = "gemini")
  /\ (model_name self <> "" -> model_name loaded <> "")
  /\ (openai_api_base self <> "" -> openai_api_base loaded <> "")
  /\ (openai_api_keys loaded = openai_api_keys self
      \/ Forall (fun k => k <> "") (openai_api_keys loaded)).
Proof.
  intro loaded. subst loaded.
  set (P := fun s : plugin =>
              (api_format s = api_format self
               \/ api_format s = "openai" \/ api_format s = "gemini")
              /\ (model_name self <> "" -> model_name s <> "")
              /\ (openai_api_base self <> "" -> openai_api_base s <> "")
              /\ (openai_api_keys s = openai_api_keys self
                  \/ Forall (fun k => k <> "") (openai_api_keys s))).
  assert (Hor : forall v cur, cur <> "" -> stripped_or py_repr v cur <> "").
  { intros v cur Hcur. unfold stripped_or.
    destruct (PyStr.truthy _) eqn:E; [now apply truthy_nonempty | exact Hcur]. }
  assert (HP : P (_load_global_config py_repr int_of_str global_get self)).
  { unfold _load_global_config.
    destruct (_global_config_loaded self).
    { unfold P. repeat split; auto. }
    assert (Hmark : forall s, P s -> P (mark_loaded s)) by (intros s Hs; exact Hs).
    destruct global_get as [plugin_config|e]; apply Hmark.
    2:{ unfold P. repeat split; auto. }
    apply overrides_inv.
    - intros v s (Hf & Hm & Hb & Hk). unfold P. simpl. repeat split; auto.
    - intros v s (Hf & Hm & Hb & Hk). unfold P. simpl. repeat split; auto.
      right. eapply Forall_impl; [|apply (normalized_keys_stripped py_repr v)].
      intros k [_ Ht]. now apply truthy_nonempty.
    - intros v s (Hf & Hm & Hb & Hk). unfold P. simpl. repeat split; auto.
    - intros v s Hs. unfold set_max_retry_attempts.
      destruct (py_int int_of_str v); [|exact Hs].
      destruct Hs as (Hf & Hm & Hb & Hk). unfold P. simpl. repeat split; auto.
    - intros v s Hs. unfold set_api_format.
      destruct (String.eqb _ "openai") eqn:E1; simpl.
      + apply String.eqb_eq in E1. destruct Hs as (Hf & Hm & Hb & Hk).
        unfold P. simpl. repeat split; auto.
      + destruct (String.eqb _ "gemini") eqn:E2; [|exact Hs].
        apply String.eqb_eq in E2. destruct Hs as (Hf & Hm & Hb & Hk).
        unfold P. simpl. repeat split; auto.
    - unfold P. repeat split; auto. }
  exact HP.
Qed.

End GlobalOverrides.

(** A global layer with a blank model name and an unknown format: both
    local values stay. *)
Lemma global_config_keeps_valid_witness :
  let self :=
    GlobalConfig.mkPlugin ["k1"] "https://api.openai.com" "openai"
                          "gpt-image-1" 3 false in
  let loaded :=
    GlobalConfig._load_global_config (fun _ => "") (fun _ => None)
      (Ok (JObj [("model_name", JStr "  "); ("api_format", JStr "bogus")]))
      self in
  GlobalConfig.model_name loaded <> ""
  /\ GlobalConfig.openai_api_base loaded <> "".
Proof.
  intros self loaded.
  destruct (global_config_keeps_valid (fun _ => "") (fun _ => None)
              (Ok (JObj [("model_name", JStr "  ");
                         ("api_format", JStr "bogus")])) self)
    as (_ & Hm & Hb & _).
  split; [apply Hm | apply Hb]; discriminate.
Defined.

(* ------------------------------------------------------------------ *)
(** * Properties of the cleanup sweep *)

Lemma filter_twice {A} (p q : A -> bool) (l : list A) :
  filter q (filter p l) = filter (fun x => p x && q x) l.
Proof.
  induction l as [|x l IH]; simpl; [reflexivity|].
  destruct (p x); simpl; [|exact IH].
  destruct (q x); now rewrite IH.
Qed.

Lemma sweep_is_filter (env : io) (pat : string * string)
    (todo kept : list file) (logs : list event) :
  fst (sweep env pat todo kept logs)
  = kept
    ++ filter (fun f => negb (glob_match pat (f_name f)
                              && Z.ltb (f_mtime f) (io_now env - retention)
                              && io_unlink_ok env (f_name f))) todo.
Proof.
  revert kept logs. induction todo as [|f todo IH]; intros kept logs; simpl.
  - now rewrite app_nil_r.
  - destruct (glob_match pat (f_name f)); simpl.
    + destruct (Z.ltb (f_mtime f) (io_now env - retention)); simpl.
      * destruct (io_unlink_ok env (f_name f)); simpl; rewrite IH;
          [reflexivity | now rewrite <- app_assoc].
      * rewrite IH. now rewrite <- app_assoc.
    + rewrite IH. now rewrite <- app_assoc.
Qed.

Lemma sweeps_are_filter (env : io) (pats : list (string * string)) :
  forall (l : list file) (logs : list event),
    fst (fold_left (fun acc pat => sweep env pat (fst acc) [] (snd acc))
                   pats (l, logs))
    = filter (fun f => negb (existsb (fun pat => glob_match pat (f_name f)) pats
                             && Z.ltb (f_mtime f) (io_now env - retention)
                             && io_unlink_ok env (f_name f))) l.
Proof.
  induction pats as [|pat pats IH]; intros l logs; simpl.
  - induction l as [|f l IHl]; simpl; [reflexivity | now rewrite <- IHl].
  - destruct (sweep env pat l [] logs) as [kept logs'] eqn:E.
    pose proof (sweep_is_filter env pat l [] logs) as Hs.
    rewrite E in Hs. simpl in Hs. subst kept. simpl fst. simpl snd.
    rewrite IH, filter_twice. apply filter_ext. intros f.
    destruct (glob_match pat (f_name f)); simpl;
      destruct (existsb _ pats); simpl;
      destruct (Z.ltb (f_mtime f) (io_now env - retention)); simpl;
      try reflexivity;
      destruct (io_unlink_ok env (f_name f)); reflexivity.
Qed.

(** X9: [cleanup_old_images] deletes exactly the files that carry one of
    the six known names, were modified more than fifteen minutes before
    now, and can be unlinked; every other file stays, in its place, a
    file of exactly fifteen minutes included. It never raises and never
    touches the state; without an images directory it does nothing. *)
Theorem cleanup_removes_only_stale (env : io) (w : world) :
  snd (cleanup_old_images env w) = Ok tt
  /\ state (fst (cleanup_old_images env w)) = state w
  /\ (dir_exists w = false -> cleanup_old_images env w = (w, Ok tt))
  /\ (dir_exists w = true ->
      files (fst (cleanup_old_images env w))
      = filter (fun f => negb (swept env f)) (files w)
      /\ (forall f, In f (files w) ->
                    (io_now env - f_mtime f <= retention)%Z ->
                    In f (files (fst (cleanup_old_images env w))))
      /\ (forall f, In f (files w) ->
                    existsb (fun pat => glob_match pat (f_name f))
                            image_patterns = false ->
                    In f (files (fst (cleanup_old_images env w))))).
Proof.
  destruct (cleanup_frame env w) as (fs & logs & E & _).
  split; [now rewrite E|]. split; [now rewrite E|]. split.
  - intros Hd. unfold cleanup_old_images. now rewrite Hd.
  - intros Hd.
    assert (Hf : files (fst (cleanup_old_images env w))
                 = filter (fun f => negb (swept env f)) (files w)).
    { unfold cleanup_old_images. rewrite Hd. cbn [negb].
      pose proof (sweeps_are_filter env image_patterns (files w) []) as Hs.
      destruct (fold_left _ image_patterns (files w, [])) as [fs' logs'].
      simpl in *. exact Hs. }
    split; [exact Hf|]. rewrite Hf. split.
    + intros f Hin Hage. apply filter_In. split; [exact Hin|].
      unfold swept. apply negb_true_iff.
      assert (Hnew : Z.ltb (f_mtime f) (io_now env - retention) = false)
        by (apply Z.ltb_ge; lia).
      rewrite Hnew. now rewrite andb_false_r.
    + intros f Hin Hname. apply filter_In. split; [exact Hin|].
      unfold swept. now rewrite Hname.
Qed.

(** A saved image of sixteen minutes goes, one of fourteen minutes and
    a stray file stay. *)
Lemma cleanup_removes_only_stale_witness :
  files (fst (cleanup_old_images
                (io_with (PostRaise NetworkError) (GetRaise NetworkError))
                {| state := init_state; dir_exists := true;
                   files :=
                     [mkFile "gemini_image_20251231_234400_aaaaaaaa.png"
                             (1767225600 - 960) "old";
                      mkFile "openai_image_20251231_234600_bbbbbbbb.png"
                             (1767225600 - 840) "new";
                      mkFile "notes.txt" 0 "stray"];
                   trace := [] |}))
  = [mkFile "openai_image_20251231_234600_bbbbbbbb.png"
            (1767225600 - 840) "new";
     mkFile "notes.txt" 0 "stray"].
Proof.
  destruct (cleanup_removes_only_stale
              (io_with (PostRaise NetworkError) (GetRaise NetworkError))
              {| state := init_state; dir_exists := true;
                 files :=
                   [mkFile "gemini_image_20251231_234400_aaaaaaaa.png"
                           (1767225600 - 960) "old";
                    mkFile "openai_image_20251231_234600_bbbbbbbb.png"
                           (1767225600 - 840) "new";
                    mkFile "notes.txt" 0 "stray"];
                 trace := [] |})
    as (_ & _ & _ & H).
  destruct (H eq_refl) as (Hf & _). rewrite Hf. reflexivity.
Defined.

(* ------------------------------------------------------------------ *)
(** * More properties of the request builder *)

(** X10: In the [contents] format the body holds one user block whose parts
    are the bare prompt followed by one inline part per reference image,
    in order, each declared [image/png]; an image given without a
    [data:image/] prefix is sent as it is, and a data-image URI is sent
    without everything up to its first comma. *)
Theorem format_b_request (mode model prompt : string)
    (input_images : option (list string)) :
  is_openai mode = false ->
  build_payload mode model prompt input_images
  = JObj [("model", JStr model);
          ("contents",
           JList [JObj [("role", JStr "user");
                        ("parts",
                         JList (JObj [("text", JStr prompt)]
                                :: map inline_part
                                       (images_of input_images)))]])]
  /\ (forall img,
        PyStr.startswith "data:image/" img = false ->
        inline_part img
        = JObj [("inline_data",
                 JObj [("mime_type", JStr "image/png");
                       ("data", JStr img)])])
  /\ (forall fmt payload,
        all_chars fmt_char fmt = true ->
        inline_part (data_uri fmt payload)
        = JObj [("inline_data",
                 JObj [("mime_type", JStr "image/png");
                       ("data", JStr payload)])]).
Proof.
  intros Hmode. unfold build_payload. rewrite Hmode.
  rewrite fold_append_map. split; [reflexivity|]. split.
  - intros img H. unfold inline_part, as_data_url. now rewrite H.
  - intros fmt payload Hf. unfold inline_part, as_data_url.
    change (PyStr.startswith "data:image/" (data_uri fmt payload))
      with (PyStr.startswith "" (fmt ++ ";base64," ++ payload)%string).
    assert (Hpre : PyStr.startswith "" (fmt ++ ";base64," ++ payload)%string
                   = true)
      by (unfold PyStr.startswith; destruct (fmt ++ _)%string; reflexivity).
    rewrite Hpre. unfold PyStr.split1, data_uri.
    rewrite <- append_assoc.
    rewrite cut_app_nosep
      by (rewrite all_chars_app; simpl; apply fmt_char_differs;
          [simpl; tauto | exact Hf]).
    reflexivity.
Qed.

(** A bare payload holding a comma, and a JPEG data URI. *)
Lemma format_b_request_witness :
  build_payload (mode_of (Some "Gemini")) "gemini-2.0-flash" "a cat"
                (Some ["QUJD,REVG"; "data:image/jpeg;base64,QQ=="])
  = JObj [("model", JStr "gemini-2.0-flash");
          ("contents",
           JList [JObj [("role", JStr "user");
                        ("parts",
                         JList [JObj [("text", JStr "a cat")];
                                JObj [("inline_data",
                                       JObj [("mime_type", JStr "image/png");
                                             ("data", JStr "QUJD,REVG")])];
                                JObj [("inline_data",
                                       JObj [("mime_type", JStr "image/png");
                                             ("data", JStr "QQ==")])]])]])].
Proof.
  destruct (format_b_request (mode_of (Some "Gemini")) "gemini-2.0-flash"
              "a cat" (Some ["QUJD,REVG"; "data:image/jpeg;base64,QQ=="])
              eq_refl) as (Hp & Hbare & Huri).
  rewrite Hp. simpl map.
  rewrite (Hbare "QUJD,REVG" eq_refl).
  change "data:image/jpeg;base64,QQ==" with (data_uri "jpeg" "QQ==").
  rewrite (Huri "jpeg" "QQ==" eq_refl). reflexivity.
Defined.

Lemma rstrip_char_app (ch : ascii) (b : string) :
  PyStr.rstrip_char ch (b ++ String ch "")%string = PyStr.rstrip_char ch b.
Proof.
  induction b as [|c b IH]; simpl.
  - now rewrite Ascii.eqb_refl.
  - now rewrite IH.
Qed.

Lemma rstrip_char_idempotent (ch : ascii) (b : string) :
  PyStr.rstrip_char ch (PyStr.rstrip_char ch b) = PyStr.rstrip_char ch b.
Proof.
  induction b as [|c b IH]; [reflexivity|]. simpl.
  destruct (Ascii.eqb c ch) eqn:Hc; simpl.
  - destruct (PyStr.rstrip_char ch b) eqn:Hr; simpl; [reflexivity|].
    rewrite Hc. simpl in IH. simpl. now rewrite IH.
  - rewrite Hc. simpl. now rewrite IH.
Qed.

(** X11: The request URL does not depend on slashes at the end of the
    configured base; in the [messages] format it is the base followed
    by [/v1/chat/completions]; in the [contents] format a base that
    already names [v1beta] is used as it is, the model left out, and any
    other base gets the [v1beta] model path. *)
Theorem request_url_shape (mode model base : string) :
  base <> "" ->
  let base_url := PyStr.rstrip_char "/" base in
  build_url mode model (Some (base ++ "/")%string)
  = build_url mode model (Some base)
  /\ (is_openai mode = true ->
      build_url mode model (Some base)
      = (base_url ++ "/v1/chat/completions")%string)
  /\ (is_openai mode = false ->
      PyStr.contains "v1beta" base_url = true ->
      build_url mode model (Some base) = base_url)
  /\ (is_openai mode = false ->
      PyStr.contains "v1beta" base_url = false ->
      build_url mode model (Some base)
      = (base_url ++ "/v1beta/models/" ++ model ++ ":generateContent")%string).
Proof.
  intros Hne base_url. subst base_url. unfold build_url.
  assert (Ht : PyStr.truthy base = true) by (destruct base; [congruence|reflexivity]).
  assert (Ht' : PyStr.truthy (base ++ "/")%string = true)
    by (destruct base; reflexivity).
  rewrite Ht, Ht', rstrip_char_app.
  split; [reflexivity|]. split; [|split].
  - intros ->. reflexivity.
  - intros -> ->. reflexivity.
  - intros -> ->. reflexivity.
Qed.

(** A Gemini endpoint given in full, with a slash at its end. *)
Lemma request_url_shape_witness :
  build_url (mode_of (Some "gemini")) "gemini-2.0-flash"
    (Some "https://host/v1beta/models/m:generateContent/")
  = "https://host/v1beta/models/m:generateContent".
Proof.
  destruct (request_url_shape (mode_of (Some "gemini")) "gemini-2.0-flash"
              "https://host/v1beta/models/m:generateContent/")
    as (_ & _ & H & _); [discriminate|].
  apply H; reflexivity.
Defined.

(* ------------------------------------------------------------------ *)
(** * The [data[0]] fallback *)

(** X12: The [data] entry of the body is looked at only when the message
    content gave neither a URL nor a payload; then the first element of
    [data] decides: its [url] if it has one, else its [b64_json] with
    format [png], else nothing. *)
Theorem data_fallback_precedence (d : list (string * json)) (f : found) :
  (Py.truthy (image_url f) = true \/ Py.truthy (base64_string f) = true ->
     data_fallback (JObj d) f = Ok f)
  /\ (Py.truthy (image_url f) = false ->
      Py.truthy (base64_string f) = false ->
      (Py.lookup "data" d = None -> data_fallback (JObj d) f = Ok f)
      /\ (forall v, Py.lookup "data" d = Some v -> Py.truthy v = false ->
                    data_fallback (JObj d) f = Ok f)
      /\ (forall item0 rest,
            Py.lookup "data" d = Some (JList (JObj item0 :: rest)) ->
            (forall u, Py.lookup "url" item0 = Some u ->
                       data_fallback (JObj d) f = Ok (set_url u f))
            /\ (forall b, Py.lookup "url" item0 = None ->
                          Py.lookup "b64_json" item0 = Some b ->
                          data_fallback (JObj d) f
                          = Ok {| image_url := image_url f;
                                  image_format := "png";
                                  base64_string := b |})
            /\ (Py.lookup "url" item0 = None ->
                Py.lookup "b64_json" item0 = None ->
                data_fallback (JObj d) f = Ok f))).
Proof.
  unfold data_fallback. split.
  - intros [H | H]; rewrite H; simpl; [reflexivity|].
    now rewrite andb_false_r.
  - intros Hu Hb. rewrite Hu, Hb. simpl. split; [|split].
    + intros ->. reflexivity.
    + intros v -> Hv. simpl. now rewrite Hv.
    + intros item0 rest ->. simpl. split; [|split].
      * intros u ->. reflexivity.
      * intros b -> ->. reflexivity.
      * intros -> ->. reflexivity.
Qed.

(** An images-style body under an empty chat content: the [url] of
    [data[0]] wins over its [b64_json]. *)
Lemma data_fallback_precedence_witness :
  data_fallback
    (JObj [("choices", JList [JObj []]);
           ("data", JList [JObj [("b64_json", JStr "QUJD");
                                 ("url", JStr "https://x/y.png")]])])
    nothing_found
  = Ok (set_url (JStr "https://x/y.png") nothing_found).
Proof.
  destruct (data_fallback_precedence
              [("choices", JList [JObj []]);
               ("data", JList [JObj [("b64_json", JStr "QUJD");
                                     ("url", JStr "https://x/y.png")]])]
              nothing_found) as [_ H].
  destruct (H eq_refl eq_refl) as (_ & _ & H').
  destruct (H' [("b64_json", JStr "QUJD"); ("url", JStr "https://x/y.png")]
               [] eq_refl) as (Hurl & _).
  apply Hurl. reflexivity.
Defined.

(* ------------------------------------------------------------------ *)
(** * One pass of the loop, event by event *)

Lemma sent_keys_app (a b : list event) :
  sent_keys (a ++ b) = sent_keys a ++ sent_keys b.
Proof. unfold sent_keys. apply flat_map_app. Qed.

Lemma sleeps_app (a b : list event) : sleeps (a ++ b) = sleeps a ++ sleeps b.
Proof. unfold sleeps. apply flat_map_app. Qed.

Lemma logs_silent (l : list event) :
  forallb is_log l = true -> sent_keys l = [] /\ sleeps l = [].
Proof.
  induction l as [|e l IH]; simpl; [now split|].
  intros H. apply andb_true_iff in H. destruct H as [He Hl].
  destruct (IH Hl) as [Hk Hs]. destruct e; try discriminate.
  unfold sent_keys, sleeps in *. simpl. now split.
Qed.

Lemma only_logged_silent (w w' : world) :
  only_logged w w' ->
  sent_keys (trace w') = sent_keys (trace w)
  /\ sleeps (trace w') = sleeps (trace w).
Proof.
  intros (logs & -> & Hl). destruct (logs_silent _ Hl) as [Hk Hs].
  now rewrite sent_keys_app, sleeps_app, Hk, Hs, !app_nil_r.
Qed.

Ltac read_trace :=
  unfold posts, rotations, sent_keys, sleeps; simpl;
  repeat rewrite filter_app; repeat rewrite flat_map_app;
  repeat rewrite length_app; simpl; repeat rewrite app_nil_r;
  try reflexivity; try lia.

Section Pass.

Variable env : nat -> io.
Variable b64decode : string -> exc string.
Variable images_dir : string.
Variable absolute : string -> string.
Variable url : string.
Variable payload : json.
Variable api_keys : list string.

Hypothesis keys_configured : api_keys <> [].

Lemma rotate_precise (w : world) :
  exists w',
    rotate api_keys w = (w', Ok tt)
    /\ posts (trace w') = posts (trace w)
    /\ rotations (trace w') = rotations (trace w) + 1
    /\ sent_keys (trace w') = sent_keys (trace w)
    /\ sleeps (trace w') = sleeps (trace w)
    /\ state w' = rotate_to_next_api_key api_keys (state w)
    /\ files w' = files w.
Proof.
  unfold rotate, bindM, emit, modify_state, log, ret. simpl.
  destruct (1 <? List.length api_keys); simpl; eexists;
    (split; [reflexivity|]); simpl; repeat split; read_trace.
Qed.

Lemma on_exception_precise (a : nat) (e : exn) (w : world) :
  exists w',
    on_exception api_keys a e w = (w', Next)
    /\ posts (trace w') = posts (trace w)
    /\ rotations (trace w') = rotations (trace w) + 1
    /\ sent_keys (trace w') = sent_keys (trace w)
    /\ sleeps (trace w') = sleeps (trace w)
    /\ state w' = rotate_to_next_api_key api_keys (state w)
    /\ files w' = files w.
Proof.
  assert (H : forall lv site,
             exists w',
               fst ((log lv site;;; rotate api_keys)%io w) = w'
               /\ posts (trace w') = posts (trace w)
               /\ rotations (trace w') = rotations (trace w) + 1
               /\ sent_keys (trace w') = sent_keys (trace w)
               /\ sleeps (trace w') = sleeps (trace w)
               /\ state w' = rotate_to_next_api_key api_keys (state w)
               /\ files w' = files w).
  { intros lv site. unfold bindM, log, emit at 1.
    match goal with
    | |- context [rotate api_keys ?w1] =>
        destruct (rotate_precise w1)
          as (w' & -> & Hp & Hr & Hk & Hs & Hst & Hf)
    end.
    exists w'. simpl in *. split; [reflexivity|].
    rewrite Hp, Hr, Hk, Hs, Hst, Hf. repeat split; read_trace. }
  unfold on_exception.
  destruct e;
    match goal with
    | |- context [(log ?lv ?site;;; rotate api_keys)%io w] =>
        destruct (H lv site) as (w' & <- & Hrest)
    end; eexists; (split; [reflexivity|]); exact Hrest.
Qed.

Lemma before_post_precise (a : nat) (w : world) :
  exists key w1,
    before_post url api_keys a w = (w1, Ok key)
    /\ get_next_api_key api_keys (state w) = Ok key
    /\ posts (trace w1) = posts (trace w) + 1
    /\ rotations (trace w1) = rotations (trace w)
    /\ sent_keys (trace w1) = sent_keys (trace w) ++ [key]
    /\ sleeps (trace w1)
       = sleeps (trace w) ++ (if 0 <? a then [backoff a] else [])
    /\ state w1 = state w
    /\ files w1 = files w
    /\ dir_exists w1 = dir_exists w.
Proof.
  destruct (get_next_api_key_nonempty api_keys (state w) keys_configured)
    as (key & _ & Hkey).
  unfold before_post, bindM, log, emit, ret. rewrite Hkey.
  destruct (0 <? a); simpl; exists key; eexists;
    (split; [reflexivity|]); simpl; repeat split; read_trace.
Qed.

Lemma after_post_precise (a : nat) (status : Z) (data : json) (w : world) :
  exists w0,
    only_logged w w0 /\ state w0 = state w /\ files w0 = files w
    /\ dir_exists w0 = dir_exists w
    /\ after_post env b64decode images_dir absolute api_keys a status data w
       = match has_choices status data with
         | Ok true =>
             on_choices env b64decode images_dir absolute a data w0
         | Ok false => on_error api_keys a status data w0
         | Raise e => (w0, Raise e)
         end.
Proof.
  unfold after_post, bindM, lift, log, emit, ret.
  destruct (a =? 0).
  - destruct data; simpl; eexists;
      (split; [|split; [|split; [|split;
         [|destruct (has_choices status _) as [[]|]; reflexivity]]]]);
      simpl; try reflexivity;
      (eexists; split; [try rewrite <- app_assoc; reflexivity | reflexivity]).
  - exists w. split; [apply only_logged_refl|]. repeat split.
    destruct (has_choices status data) as [[]|]; reflexivity.
Qed.

(** A pass that reaches the search for an image. *)
Lemma attempt_reaches_choices (a : nat) (data : json) (w : world) :
  (forall key, io_post (env a) url payload key = PostResponse 200 data) ->
  has_choices 200 data = Ok true ->
  exists w0,
    attempt env b64decode images_dir absolute url payload api_keys a w
    = catch (on_choices env b64decode images_dir absolute a data)
            (on_exception api_keys a) w0
    /\ posts (trace w0) = posts (trace w) + 1
    /\ rotations (trace w0) = rotations (trace w)
    /\ state w0 = state w
    /\ files w0 = files w
    /\ dir_exists w0 = dir_exists w.
Proof.
  intros Hpost Hgate. unfold attempt, catch at 1, attempt_body, bindM.
  destruct (before_post_precise a w)
    as (key & w1 & -> & _ & Hp & Hr & _ & _ & Hst & Hf & Hd).
  rewrite (Hpost key).
  destruct (after_post_precise a 200 data w1)
    as (w0 & Hlog & Hst0 & Hf0 & Hd0 & ->).
  rewrite Hgate. destruct (only_logged_counts _ _ Hlog) as [Hp0 Hr0].
  exists w0. split; [reflexivity|]. repeat split; congruence.
Qed.

(** A pass whose search or saving raises ends like any failed pass:
    one rotation, on to the next pass. *)
Lemma attempt_raises_in_choices (a : nat) (data : json) (w w0 w1 : world)
    (e : exn) :
  attempt env b64decode images_dir absolute url payload api_keys a w
  = catch (on_choices env b64decode images_dir absolute a data)
          (on_exception api_keys a) w0 ->
  on_choices env b64decode images_dir absolute a data w0 = (w1, Raise e) ->
  posts (trace w1) = posts (trace w0) ->
  rotations (trace w1) = rotations (trace w0) ->
  state w1 = state w0 ->
  exists w',
    attempt env b64decode images_dir absolute url payload api_keys a w
    = (w', Next)
    /\ posts (trace w') = posts (trace w0)
    /\ rotations (trace w') = rotations (trace w0) + 1
    /\ state w' = rotate_to_next_api_key api_keys (state w0).
Proof.
  intros -> Hch Hp Hr Hst. unfold catch. rewrite Hch.
  destruct (on_exception_precise a e w1)
    as (w' & -> & Hp' & Hr' & _ & _ & Hst' & _).
  exists w'. split; [reflexivity|]. repeat split; congruence.
Qed.

End Pass.

(* ------------------------------------------------------------------ *)
(** * How a pass with an image reference ends *)

Section Outcomes.

Variable env : nat -> io.
Variable b64decode : string -> exc string.
Variable images_dir : string.
Variable absolute : string -> string.
Variable url : string.
Variable payload : json.
Variable api_keys : list string.

Hypothesis keys_configured : api_keys <> [].

Lemma download_saved (a : nat) (u body : string) (w : world) :
  u <> "" ->
  io_get (env a) u = GetResponse 200 body ->
  io_mkdir_ok (env a) = true ->
  io_write_ok (env a) = true ->
  let image_path := path_of images_dir (openai_name (env a)) in
  exists w1,
    download env images_dir absolute a (JStr u) w
    = (w1, Ok (Some (Some (file_url_of absolute image_path),
                     Some image_path)))
    /\ state w1
       = update_saved_image (file_url_of absolute image_path) image_path
                            (state w)
    /\ In (mkFile (openai_name (env a)) (io_now (env a)) body) (files w1)
    /\ posts (trace w1) = posts (trace w)
    /\ rotations (trace w1) = rotations (trace w).
Proof.
  intros Hu Hget Hmk Hwr image_path. subst image_path.
  unfold download. destruct u as [|c u]; [congruence|].
  cbn [Py.truthy PyStr.truthy PyStr.is_empty negb].
  unfold bindM at 1, emit at 1. rewrite Hget. cbn [Z.eqb Pos.eqb].
  unfold bindM at 1, mkdir. rewrite Hmk. simpl state. simpl files. simpl trace.
  unfold bindM at 1.
  match goal with
  | |- context [cleanup_old_images (env a) ?w1] =>
      destruct (cleanup_frame (env a) w1) as (fs & logs & -> & Hlogs)
  end.
  unfold bindM, write_file, modify_state, log, emit, ret. rewrite Hwr.
  simpl. eexists. split; [reflexivity|]. simpl.
  destruct (only_logs_counts _ Hlogs) as [Hp Hr].
  split; [reflexivity|]. split; [apply in_or_app; right; now left|].
  rewrite !posts_app, !rotations_app, Hp, Hr.
  unfold posts, rotations. simpl. lia.
Qed.

Lemma download_raises (a : nat) (v : json) (w : world) :
  download_breaks (env a) v ->
  exists w1 e,
    download env images_dir absolute a v w = (w1, Raise e)
    /\ state w1 = state w
    /\ posts (trace w1) = posts (trace w)
    /\ rotations (trace w1) = rotations (trace w).
Proof.
  intros [Ht Hwhy]. unfold download. rewrite Ht.
  destruct v as [| | |u| |];
    try (exists w, TypeError; now repeat split).
  unfold bindM at 1, emit at 1.
  destruct Hwhy as [[x Hget] | (body & Hget & Hio)]; rewrite Hget.
  - unfold raise. eexists. exists x. split; [reflexivity|].
    simpl. repeat split; read_trace.
  - cbn [Z.eqb Pos.eqb]. unfold bindM at 1, mkdir.
    destruct (io_mkdir_ok (env a)) eqn:Hmk.
    + destruct Hio as [Hio | Hwr]; [discriminate|].
      simpl state. simpl files. simpl trace. unfold bindM at 1.
      match goal with
      | |- context [cleanup_old_images (env a) ?w1] =>
          destruct (cleanup_frame (env a) w1) as (fs & logs & -> & Hlogs)
      end.
      unfold bindM, write_file. rewrite Hwr.
      eexists. exists OSError. split; [reflexivity|]. simpl.
      destruct (only_logs_counts _ Hlogs) as [Hp Hr].
      split; [reflexivity|].
      rewrite !posts_app, !rotations_app, Hp, Hr.
      unfold posts, rotations. simpl. lia.
    + eexists. exists OSError. split; [reflexivity|]. simpl.
      repeat split; read_trace.
Qed.

(** X13: A 200 answer whose image URL downloads with a 200 and whose bytes
    can be written ends the call on that pass: the bytes are in a new
    [openai_image_*.png] file, the pair returned is its [file://] URL
    and its path, and the saved-image record holds the same pair. One
    request, no rotation, the cursor unmoved; an inline payload found
    beside the URL is not used. *)
Theorem download_success_ends_call (a : nat) (rest : list nat)
    (data : json) (f : found) (u body : string) (w : world) :
  (forall key, io_post (env a) url payload key = PostResponse 200 data) ->
  has_choices 200 data = Ok true ->
  extract data = Ok f ->
  image_url f = JStr u ->
  u <> "" ->
  io_get (env a) u = GetResponse 200 body ->
  io_mkdir_ok (env a) = true ->
  io_write_ok (env a) = true ->
  let run :=
    retry_loop env b64decode images_dir absolute url payload api_keys
               (a :: rest) w in
  let image_path := path_of images_dir (openai_name (env a)) in
  snd run = (Some (file_url_of absolute image_path), Some image_path)
  /\ last_saved_image (state (fst run)) = snd run
  /\ In (mkFile (openai_name (env a)) (io_now (env a)) body)
        (files (fst run))
  /\ api_key_index (state (fst run)) = api_key_index (state w)
  /\ posts (trace (fst run)) = posts (trace w) + 1
  /\ rotations (trace (fst run)) = rotations (trace w).
Proof.
  intros Hpost Hgate Hex Hurl Hu Hget Hmk Hwr run image_path.
  destruct (attempt_reaches_choices env b64decode images_dir absolute url
              payload api_keys keys_configured a data w Hpost Hgate)
    as (w0 & Hatt & Hp0 & Hr0 & Hst0 & _).
  destruct (download_saved a u body w0 Hu Hget Hmk Hwr)
    as (w1 & Hdl & Hst1 & Hin & Hp1 & Hr1).
  assert (Hrun : run = (w1, (Some (file_url_of absolute image_path),
                             Some image_path))).
  { subst run image_path. cbn [retry_loop]. rewrite Hatt.
    unfold catch, on_choices, bindM at 1, lift. rewrite Hex.
    unfold bindM at 1. rewrite Hurl, Hdl. reflexivity. }
  rewrite Hrun. simpl. rewrite Hst1. simpl.
  repeat split; try assumption; try lia. now rewrite Hst0.
Qed.

(** X14: A pass whose download raises (the request fails, the URL is no
    string, or the bytes of a 200 answer cannot be put on disk) is
    handled as an exception: one request, one rotation, the saved-image
    record untouched, and the loop goes on with the passes that are
    left. *)
Theorem download_exception_retries (a : nat) (rest : list nat)
    (data : json) (f : found) (w : world) :
  (forall key, io_post (env a) url payload key = PostResponse 200 data) ->
  has_choices 200 data = Ok true ->
  extract data = Ok f ->
  download_breaks (env a) (image_url f) ->
  exists w',
    attempt env b64decode images_dir absolute url payload api_keys a w
    = (w', Next)
    /\ retry_loop env b64decode images_dir absolute url payload api_keys
                  (a :: rest) w
       = retry_loop env b64decode images_dir absolute url payload api_keys
                    rest w'
    /\ posts (trace w') = posts (trace w) + 1
    /\ rotations (trace w') = rotations (trace w) + 1
    /\ state w' = rotate_to_next_api_key api_keys (state w).
Proof.
  intros Hpost Hgate Hex Hbreak.
  destruct (attempt_reaches_choices env b64decode images_dir absolute url
              payload api_keys keys_configured a data w Hpost Hgate)
    as (w0 & Hatt & Hp0 & Hr0 & Hst0 & _).
  destruct (download_raises a (image_url f) w0 Hbreak)
    as (w1 & e & Hdl & Hst1 & Hp1 & Hr1).
  assert (Hch : on_choices env b64decode images_dir absolute a data w0
                = (w1, Raise e)).
  { unfold on_choices, bindM at 1, lift. rewrite Hex.
    unfold bindM at 1. now rewrite Hdl. }
  destruct (attempt_raises_in_choices env b64decode images_dir absolute url
              payload api_keys a data w w0 w1 e Hatt Hch Hp1 Hr1 Hst1)
    as (w' & Ew' & Hp' & Hr' & Hst').
  exists w'. split; [exact Ew'|]. split.
  - cbn [retry_loop]. now rewrite Ew'.
  - repeat split; congruence.
Qed.

(** X15: A 200 answer whose [choices] cannot be read as the code expects
    (the first choice is no dict, or its [message] is no dict, or
    anything else that raises during the search) is not an empty answer:
    the pass counts as an exception, with one rotation, and the loop
    goes on. *)
Theorem unreadable_choice_retries (a : nat) (rest : list nat)
    (data : json) (e : exn) (w : world) :
  (forall key, io_post (env a) url payload key = PostResponse 200 data) ->
  has_choices 200 data = Ok true ->
  extract data = Raise e ->
  exists w',
    attempt env b64decode images_dir absolute url payload api_keys a w
    = (w', Next)
    /\ retry_loop env b64decode images_dir absolute url payload api_keys
                  (a :: rest) w
       = retry_loop env b64decode images_dir absolute url payload api_keys
                    rest w'
    /\ posts (trace w') = posts (trace w) + 1
    /\ rotations (trace w') = rotations (trace w) + 1
    /\ state w' = rotate_to_next_api_key api_keys (state w).
Proof.
  intros Hpost Hgate Hex.
  destruct (attempt_reaches_choices env b64decode images_dir absolute url
              payload api_keys keys_configured a data w Hpost Hgate)
    as (w0 & Hatt & Hp0 & Hr0 & Hst0 & _).
  assert (Hch : on_choices env b64decode images_dir absolute a data w0
                = (w0, Raise e)).
  { unfold on_choices, bindM, lift. now rewrite Hex. }
  destruct (attempt_raises_in_choices env b64decode images_dir absolute url
              payload api_keys a data w w0 w0 e Hatt Hch
              eq_refl eq_refl eq_refl)
    as (w' & Ew' & Hp' & Hr' & Hst').
  exists w'. split; [exact Ew'|]. split.
  - cbn [retry_loop]. now rewrite Ew'.
  - repeat split; congruence.
Qed.

(** X16: A 200 answer with an inline payload and no URL, a directory that
    can be made, a payload that decodes and a file that can be written:
    the call ends on that pass with the pair of the new
    [gemini_image_*] file, whose extension is the format found, and the
    saved-image record holds that pair. *)
Theorem inline_success_ends_call (a : nat) (rest : list nat)
    (data : json) (f : found) (image_data : string) (w : world) :
  (forall key, io_post (env a) url payload key = PostResponse 200 data) ->
  has_choices 200 data = Ok true ->
  extract data = Ok f ->
  Py.truthy (image_url f) = false ->
  Py.truthy (base64_string f) = true ->
  io_mkdir_ok (env a) = true ->
  decode_payload b64decode (base64_string f) = Ok image_data ->
  io_write_ok (env a) = true ->
  let run :=
    retry_loop env b64decode images_dir absolute url payload api_keys
               (a :: rest) w in
  let image_path :=
    path_of images_dir (gemini_name (env a) (image_format f)) in
  snd run = (Some (file_url_of absolute image_path), Some image_path)
  /\ last_saved_image (state (fst run)) = snd run
  /\ In (mkFile (gemini_name (env a) (image_format f)) (io_now (env a))
                image_data)
        (files (fst run))
  /\ posts (trace (fst run)) = posts (trace w) + 1
  /\ rotations (trace (fst run)) = rotations (trace w).
Proof.
  intros Hpost Hgate Hex Hu Hb Hmk Hdec Hwr run image_path.
  destruct (attempt_reaches_choices env b64decode images_dir absolute url
              payload api_keys keys_configured a data w Hpost Hgate)
    as (w0 & Hatt & Hp0 & Hr0 & Hst0 & _).
  destruct (save_base64_image_outcome (env a) b64decode images_dir absolute
              (base64_string f) (image_format f) w0)
    as (Hiff & _ & Htrue & Hlog).
  destruct (save_base64_image (env a) b64decode images_dir absolute
              (base64_string f) (image_format f) w0) as [w1 ok] eqn:Hsave.
  simpl in Hiff, Htrue, Hlog.
  assert (Hok : ok = true).
  { destruct ok; [reflexivity|]. exfalso.
    destruct Hiff as [Hiff _].
    destruct (Hiff eq_refl) as [H | [[x H] | H]]; congruence. }
  subst ok. destruct (Htrue eq_refl) as (bytes & Hbytes & Hin & Hrec).
  assert (bytes = image_data) by congruence. subst bytes.
  destruct (only_logged_counts _ _ Hlog) as [Hp1 Hr1].
  assert (Hrun : run
                 = (fst (log INFO Base64Succeeded w1),
                    (Some (file_url_of absolute image_path),
                     Some image_path))).
  { subst run image_path. cbn [retry_loop]. rewrite Hatt.
    unfold catch, on_choices, bindM at 1, lift. rewrite Hex.
    unfold bindM at 1.
    rewrite (download_skip env images_dir absolute a _ w0 Hu).
    unfold bindM at 1, save_inline. rewrite Hb. unfold bindM at 1.
    rewrite Hsave.
    unfold bindM, log, emit, ret, get_saved_image_info. simpl.
    now rewrite Hrec. }
  rewrite Hrun. unfold log, emit. simpl.
  repeat split; try assumption.
  - rewrite posts_app. change (posts [Log INFO Base64Succeeded]) with 0. lia.
  - rewrite rotations_app.
    change (rotations [Log INFO Base64Succeeded]) with 0. lia.
Qed.

End Outcomes.

(** The cat picture downloads; two more passes were allowed. *)
Lemma download_success_ends_call_witness :
  let run :=
    retry_loop
      (fun _ => io_with
                  (PostResponse 200
                     (chat_response (JStr "https://example.com/cat.png")))
                  (GetResponse 200 "PNG bytes"))
      (fun s => Ok s) "/plugin/images" (fun p => p)
      "https://api.openai.com/v1/chat/completions" JNull ["k1"; "k2"]
      [0; 1; 2] fresh_world in
  snd run
  = (Some "file:///plugin/images/openai_image_20260101_000000_0a1b2c3d.png",
     Some "/plugin/images/openai_image_20260101_000000_0a1b2c3d.png")
  /\ posts (trace (fst run)) = 1.
Proof.
  destruct (download_success_ends_call
              (fun _ => io_with
                          (PostResponse 200
                             (chat_response
                                (JStr "https://example.com/cat.png")))
                          (GetResponse 200 "PNG bytes"))
              (fun s => Ok s) "/plugin/images" (fun p => p)
              "https://api.openai.com/v1/chat/completions" JNull
              ["k1"; "k2"] ltac:(discriminate) 0 [1; 2]
              (chat_response (JStr "https://example.com/cat.png"))
              (set_url (JStr "https://example.com/cat.png") nothing_found)
              "https://example.com/cat.png" "PNG bytes" fresh_world)
    as (Hres & _ & _ & _ & Hp & _); try reflexivity; try discriminate.
  split; [exact Hres | exact Hp].
Defined.

(** The image host cannot be reached on the first of three passes. *)
Lemma download_exception_retries_witness :
  exists w',
    attempt
      (fun _ => io_with
                  (PostResponse 200
                     (chat_response (JStr "https://example.com/cat.png")))
                  (GetRaise NetworkError))
      (fun s => Ok s) "/plugin/images" (fun p => p)
      "https://api.openai.com/v1/chat/completions" JNull ["k1"; "k2"]
      0 fresh_world
    = (w', Next)
    /\ rotations (trace w') = 1.
Proof.
  destruct (download_exception_retries
              (fun _ => io_with
                          (PostResponse 200
                             (chat_response
                                (JStr "https://example.com/cat.png")))
                          (GetRaise NetworkError))
              (fun s => Ok s) "/plugin/images" (fun p => p)
              "https://api.openai.com/v1/chat/completions" JNull
              ["k1"; "k2"] ltac:(discriminate) 0 [1; 2]
              (chat_response (JStr "https://example.com/cat.png"))
              (set_url (JStr "https://example.com/cat.png") nothing_found)
              fresh_world)
    as (w' & Hatt & _ & _ & Hr & _); try reflexivity.
  - split; [reflexivity|]. left. now exists NetworkError.
  - exists w'. split; [exact Hatt | exact Hr].
Defined.

(** A body whose first choice has [message: null]. *)
Lemma unreadable_choice_retries_witness :
  exists w',
    attempt
      (fun _ => io_with
                  (PostResponse 200
                     (JObj [("choices",
                             JList [JObj [("message", JNull)]])]))
                  (GetRaise NetworkError))
      (fun s => Ok s) "/plugin/images" (fun p => p)
      "https://api.openai.com/v1/chat/completions" JNull ["k1"; "k2"]
      0 fresh_world
    = (w', Next)
    /\ rotations (trace w') = 1.
Proof.
  destruct (unreadable_choice_retries
              (fun _ => io_with
                          (PostResponse 200
                             (JObj [("choices",
                                     JList [JObj [("message", JNull)]])]))
                          (GetRaise NetworkError))
              (fun s => Ok s) "/plugin/images" (fun p => p)
              "https://api.openai.com/v1/chat/completions" JNull
              ["k1"; "k2"] ltac:(discriminate) 0 [1; 2]
              (JObj [("choices", JList [JObj [("message", JNull)]])])
              AttributeError fresh_world)
    as (w' & Hatt & _ & _ & Hr & _); try reflexivity.
  exists w'. split; [exact Hatt | exact Hr].
Defined.

(** A JPEG data URI as the whole chat content. *)
Lemma inline_success_ends_call_witness :
  let run :=
    retry_loop
      (fun _ => io_with
                  (PostResponse 200
                     (chat_response (JStr "data:image/jpeg;base64,QQ==")))
                  (GetRaise NetworkError))
      (fun s => Ok s) "/plugin/images" (fun p => p)
      "https://api.openai.com/v1/chat/completions" JNull ["k1"; "k2"]
      [0; 1; 2] fresh_world in
  snd run
  = (Some "file:///plugin/images/gemini_image_20260101_000000_0a1b2c3d.jpeg",
     Some "/plugin/images/gemini_image_20260101_000000_0a1b2c3d.jpeg")
  /\ posts (trace (fst run)) = 1.
Proof.
  destruct (inline_success_ends_call
              (fun _ => io_with
                          (PostResponse 200
                             (chat_response
                                (JStr "data:image/jpeg;base64,QQ==")))
                          (GetRaise NetworkError))
              (fun s => Ok s) "/plugin/images" (fun p => p)
              "https://api.openai.com/v1/chat/completions" JNull
              ["k1"; "k2"] ltac:(discriminate) 0 [1; 2]
              (chat_response (JStr "data:image/jpeg;base64,QQ=="))
              (set_base64 "jpeg" "QQ==" nothing_found) "QQ==" fresh_world)
    as (Hres & _ & _ & Hp & _); try reflexivity.
  split; [exact Hres | exact Hp].
Defined.

(* ------------------------------------------------------------------ *)
(** * Keys and delays over a run of failed passes *)

Section Rotation.

Variable env : nat -> io.
Variable b64decode : string -> exc string.
Variable images_dir : string.
Variable absolute : string -> string.
Variable url : string.
Variable payload : json.
Variable api_keys : list string.

Hypothesis keys_configured : api_keys <> [].
Hypothesis always_fails :
  forall a key, not_usable (io_post (env a) url payload key).

Lemma on_error_precise (a : nat) (status : Z) (data : json) (w : world) :
  exists w',
    catch (on_error api_keys a status data) (on_exception api_keys a) w
    = (w', Next)
    /\ sent_keys (trace w') = sent_keys (trace w)
    /\ sleeps (trace w') = sleeps (trace w)
    /\ state w' = rotate_to_next_api_key api_keys (state w).
Proof.
  unfold catch, on_error, bindM, lift.
  destruct (error_message status data) as [msg|e].
  - unfold log, emit at 1.
    match goal with
    | |- context [rotate api_keys ?w1] =>
        destruct (rotate_precise api_keys w1)
          as (w' & -> & _ & _ & Hk & Hs & Hst & _)
    end.
    exists w'. simpl in *. split; [reflexivity|].
    rewrite Hk, Hs, Hst. repeat split; read_trace.
  - destruct (on_exception_precise api_keys a e w)
      as (w' & -> & _ & _ & Hk & Hs & Hst & _).
    exists w'. now repeat split.
Qed.

Lemma attempt_fails_precise (a : nat) (w : world) :
  exists key w',
    attempt env b64decode images_dir absolute url payload api_keys a w
    = (w', Next)
    /\ get_next_api_key api_keys (state w) = Ok key
    /\ sent_keys (trace w') = sent_keys (trace w) ++ [key]
    /\ sleeps (trace w')
       = sleeps (trace w) ++ (if 0 <? a then [backoff a] else [])
    /\ state w' = rotate_to_next_api_key api_keys (state w).
Proof.
  unfold attempt, catch, attempt_body, bindM.
  destruct (before_post_precise url api_keys keys_configured a w)
    as (key & w1 & -> & Hkey & _ & _ & Hk & Hs & Hst & _).
  pose proof (always_fails a key) as Hfail. unfold not_usable in Hfail.
  exists key.
  destruct (io_post (env a) url payload key) as [e|status data].
  - unfold raise.
    destruct (on_exception_precise api_keys a e w1)
      as (w' & -> & _ & _ & Hk' & Hs' & Hst' & _).
    exists w'. repeat split; congruence.
  - destruct (after_post_precise env b64decode images_dir absolute api_keys
                a status data w1) as (w0 & Hlog & Hst0 & _ & _ & ->).
    destruct (only_logged_silent _ _ Hlog) as [Hk0 Hs0].
    destruct (has_choices status data) as [[]|e]; [congruence| |].
    + pose proof (on_error_precise a status data w0)
        as (w' & He & Hk' & Hs' & Hst').
      unfold catch in He.
      destruct (on_error api_keys a status data w0) as [w2 [o|e]];
        rewrite He; exists w'; repeat split; congruence.
    + destruct (on_exception_precise api_keys a e w0)
        as (w' & -> & _ & _ & Hk' & Hs' & Hst' & _).
      exists w'. repeat split; congruence.
Qed.

Lemma rotated_cursor (st : ImageGeneratorState) (i : nat) :
  (api_key_index (rotate_to_next_api_key api_keys st) + i)
  mod List.length api_keys
  = (api_key_index st + S i) mod List.length api_keys.
Proof.
  unfold rotate_to_next_api_key.
  destruct (Nat.ltb_spec 1 (List.length api_keys)) as [H|H]; simpl.
  - rewrite Nat.Div0.add_mod_idemp_l. f_equal. lia.
  - assert (HK : List.length api_keys = 1).
    { destruct api_keys as [|k [|k' l]]; simpl in *; [congruence|lia|lia]. }
    rewrite HK. now rewrite !Nat.mod_1_r.
Qed.

Lemma retry_loop_fail_trace (attempts : list nat) :
  forall w,
  exists w',
    retry_loop env b64decode images_dir absolute url payload api_keys
               attempts w = (w', no_result)
    /\ sent_keys (trace w')
       = sent_keys (trace w)
         ++ map (fun i => nth ((api_key_index (state w) + i)
                               mod List.length api_keys) api_keys "")
                (seq 0 (List.length attempts))
    /\ sleeps (trace w')
       = sleeps (trace w)
         ++ map backoff (filter (fun a => 0 <? a) attempts).
Proof.
  induction attempts as [|a rest IH]; intros w; simpl.
  - eexists. split; [reflexivity|]. simpl. split; read_trace.
  - destruct (attempt_fails_precise a w)
      as (key & w1 & -> & Hkey & Hk & Hs & Hst).
    destruct (IH w1) as (w' & -> & Hk' & Hs').
    exists w'. split; [reflexivity|]. split.
    + rewrite Hk', Hk, <- app_assoc. f_equal. simpl. f_equal.
      * destruct (get_next_api_key_nonempty api_keys (state w)
                    keys_configured) as (k & Hnth & Hk0).
        rewrite Nat.add_0_r. rewrite (nth_error_nth _ _ _ Hnth). congruence.
      * rewrite <- seq_shift, map_map. apply map_ext. intros i.
        rewrite Hst. now rewrite rotated_cursor.
    + rewrite Hs', Hs, <- app_assoc. f_equal.
      destruct (0 <? a); reflexivity.
Qed.

End Rotation.



(** X17: With a provider that fails on every pass, the passes take the keys
    in turn, starting from the key under the cursor and wrapping round
    at the end of the list: pass [i] is sent with the key at
    [(cursor + i) mod N]. With a single key every pass uses it. *)
Theorem failed_passes_take_keys_in_turn
    (env : nat -> io) (py_repr : json -> string)
    (b64decode : string -> exc string)
    (images_dir : string) (absolute : string -> string)
    (prompt : string) (api_key : json) (model : string)
    (input_images : option (list string)) (api_base : option string)
    (api_format : option string) (max_retry_attempts : Z) (w : world) :
  let api_keys := client_api_keys py_repr api_key in
  api_keys <> [] ->
  (forall a u p key, provider_fails (io_post (env a) u p key)) ->
  sent_keys
    (trace (fst (generate_image_openai env py_repr b64decode images_dir
                   absolute prompt api_key model input_images api_base
                   api_format max_retry_attempts w)))
  = sent_keys (trace w)
    ++ map (fun i => nth ((api_key_index (state w) + i)
                          mod List.length api_keys) api_keys "")
           (seq 0 (Z.to_nat max_retry_attempts)).
Proof.
  intros api_keys Hkeys Hfail. subst api_keys.
  unfold generate_image_openai.
  destruct (client_api_keys py_repr api_key) as [|k keys] eqn:E;
    [congruence|].
  destruct (retry_loop_fail_trace env b64decode images_dir absolute
              (build_url (mode_of api_format) model api_base)
              (build_payload (mode_of api_format) model prompt input_images)
              (k :: keys) Hkeys
              (fun a key => provider_fails_not_usable _ (Hfail a _ _ key))
              (attempts_of max_retry_attempts) w)
    as (w' & -> & Hk & _).
  rewrite attempts_of_length in Hk. exact Hk.
Qed.

(** Three keys, the cursor on the second, five failed passes. *)
Lemma failed_passes_take_keys_in_turn_witness :
  sent_keys
    (trace (fst (generate_image_openai
                   (fun _ => io_with (PostRaise NetworkError)
                                     (GetRaise NetworkError))
                   (fun _ => "") (fun s => Ok s) "/plugin/images"
                   (fun p => p) "a cat"
                   (JList [JStr "k1"; JStr "k2"; JStr "k3"]) "gpt-image-1"
                   None None None 5
                   {| state := {| last_saved_image := (None, None);
                                  api_key_index := 1 |};
                      dir_exists := false; files := []; trace := [] |})))
  = ["k2"; "k3"; "k1"; "k2"; "k3"].
Proof.
  apply (failed_passes_take_keys_in_turn
           (fun _ => io_with (PostRaise NetworkError) (GetRaise NetworkError))
           (fun _ => "") (fun s => Ok s) "/plugin/images" (fun p => p)
           "a cat" (JList [JStr "k1"; JStr "k2"; JStr "k3"]) "gpt-image-1"
           None None None 5
           {| state := {| last_saved_image := (None, None);
                          api_key_index := 1 |};
              dir_exists := false; files := []; trace := [] |}).
  - simpl. discriminate.
  - intros a u p key. exact I.
Defined.



(* ------------------------------------------------------------------ *)
(** * Where an embedded reference starts and ends *)

Lemma plus_none_stops (acc : ascii -> bool) (s : string) :
  Re.match_here [Re.mkItem acc Re.Plus] s = None -> stops_at acc s.
Proof.
  destruct s as [|c s]; [exact (fun _ => I)|]. rewrite match_here_plus.
  cbn [stops_at]. destruct (acc c); [|reflexivity].
  destruct (Re.match_here [Re.mkItem acc Re.Plus] s); intros H;
    [discriminate H|].
  cbn [Re.match_here option_map] in H. discriminate H.
Qed.

(** A pattern that ends in a greedy class takes every character the
    class accepts. *)
Lemma match_here_ends_greedy (acc : ascii -> bool) (r0 : Re.regex) :
  forall s m,
    Re.match_here (r0 ++ [Re.mkItem acc Re.Plus]) s = Some m ->
    exists rest, s = (m ++ rest)%string /\ stops_at acc rest.
Proof.
  induction r0 as [|[acc' q] r0 IH]; intros s m H.
  - cbn [app] in H. revert m H.
    induction s as [|c s IHs]; intros m H; rewrite match_here_plus in H;
      [discriminate|].
    destruct (acc c) eqn:Hc; [|discriminate].
    destruct (Re.match_here [Re.mkItem acc Re.Plus] s) as [m'|] eqn:Hm.
    + injection H as <-. destruct (IHs _ eq_refl) as (rest & -> & Hstop).
      now exists rest.
    + simpl in H. injection H as <-. exists s. split; [reflexivity|].
      now apply plus_none_stops.
  - cbn [app] in H. destruct q.
    + simpl in H. destruct s as [|c s']; [discriminate|].
      destruct (acc' c); [|discriminate].
      destruct (Re.match_here (r0 ++ [Re.mkItem acc Re.Plus]) s')
        as [m'|] eqn:Hm; [|discriminate].
      injection H as <-. destruct (IH _ _ Hm) as (rest & -> & Hstop).
      now exists rest.
    + simpl in H. destruct s as [|c s']; [now apply IH|].
      destruct (acc' c); [|now apply IH].
      destruct (Re.match_here (r0 ++ [Re.mkItem acc Re.Plus]) s')
        as [m'|] eqn:Hm; [|now apply IH].
      injection H as <-. destruct (IH _ _ Hm) as (rest & -> & Hstop).
      now exists rest.
    + revert m H. induction s as [|c s' IHs]; intros m H;
        rewrite match_here_plus in H; [discriminate|].
      destruct (acc' c); [|discriminate].
      destruct (Re.match_here
                  (Re.mkItem acc' Re.Plus :: r0 ++ [Re.mkItem acc Re.Plus]) s')
        as [m'|].
      * injection H as <-. destruct (IHs _ eq_refl) as (rest & -> & Hstop).
        now exists rest.
      * destruct (Re.match_here (r0 ++ [Re.mkItem acc Re.Plus]) s')
          as [m'|] eqn:Hm; [|discriminate].
        injection H as <-. destruct (IH _ _ Hm) as (rest & -> & Hstop).
        now exists rest.
Qed.

(** What [search] finds is the leftmost occurrence, and with a pattern
    that ends in a greedy class it runs as far as the class allows. *)
Lemma search_leftmost_greedy (acc : ascii -> bool) (r0 : Re.regex)
    (s m : string) :
  Re.search (r0 ++ [Re.mkItem acc Re.Plus]) s = Some m ->
  exists pre post,
    s = (pre ++ m ++ post)%string
    /\ stops_at acc post
    /\ forall pre' m' post',
         s = (pre' ++ m' ++ post')%string ->
         matches (r0 ++ [Re.mkItem acc Re.Plus]) m' ->
         String.length pre <= String.length pre'.
Proof.
  set (r := r0 ++ [Re.mkItem acc Re.Plus]).
  assert (Hhere : forall s0 m0,
             Re.match_here r s0 = Some m0 ->
             exists pre post,
               s0 = (pre ++ m0 ++ post)%string /\ stops_at acc post
               /\ forall pre' m' post',
                    s0 = (pre' ++ m' ++ post')%string -> matches r m' ->
                    String.length pre <= String.length pre').
  { intros s0 m0 H0.
    destruct (match_here_ends_greedy acc r0 _ _ H0) as (rest & -> & Hstop).
    exists EmptyString, rest. repeat split; [exact Hstop|].
    intros; simpl; lia. }
  induction s as [|c s IH]; simpl.
  - destruct (Re.match_here r "") as [m0|] eqn:Hm; [|discriminate].
    intros E. injection E as <-. now apply Hhere.
  - destruct (Re.match_here r (String c s)) as [m0|] eqn:Hm.
    + intros E. injection E as <-. now apply Hhere.
    + intros E. destruct (IH E) as (pre & post & -> & Hstop & Hleft).
      exists (String c pre), post. repeat split; [exact Hstop|].
      intros pre' m' post' E' Hmat. destruct pre' as [|c' pre'].
      * simpl in E'.
        destruct (match_here_complete _ _ Hmat post') as [m'' Hm''].
        rewrite <- E' in Hm''. congruence.
      * simpl in E'. injection E' as _ E'. simpl.
        apply le_n_S. now apply (Hleft pre' m' post').
Qed.

(** X19: An http(s) URL picked out of running text is the first one in the
    text and ends where the text ends or just before the first
    whitespace or closing parenthesis after it; an embedded data-image
    URI is the first one and its payload ends just before the first
    character outside the base64 alphabet. *)
Theorem embedded_reference_boundaries (content : string) (f : found) :
  let text := PyStr.strip content in
  PyStr.startswith "data:image/" text = false ->
  starts_http text = false ->
  (forall u,
     Re.search _DATA_URL_PATTERN text = None ->
     Re.search _HTTP_URL_PATTERN text = Some u ->
     image_url (extract_from_string content f) = JStr u
     /\ exists pre post,
          text = (pre ++ u ++ post)%string
          /\ match post with
             | EmptyString => True
             | String c _ => PyStr.is_space c = true \/ c = ")"%char
             end
          /\ forall pre' m' post',
               text = (pre' ++ m' ++ post')%string ->
               matches _HTTP_URL_PATTERN m' ->
               String.length pre <= String.length pre')
  /\ (forall candidate,
        Re.search _DATA_URL_PATTERN text = Some candidate ->
        exists fmt payload pre post,
          candidate = data_uri fmt payload
          /\ base64_string (extract_from_string content f) = JStr payload
          /\ image_format (extract_from_string content f) = fmt
          /\ text = (pre ++ candidate ++ post)%string
          /\ stops_at b64_char post
          /\ forall pre' m' post',
               text = (pre' ++ m' ++ post')%string ->
               matches _DATA_URL_PATTERN m' ->
               String.length pre <= String.length pre').
Proof.
  intros text Ha Hb. unfold extract_from_string. fold text.
  fold (starts_http text). rewrite Ha, Hb. split.
  - intros u Hc Hd. rewrite Hc, Hd. split; [reflexivity|].
    change _HTTP_URL_PATTERN
      with ((Re.lit "http" ++ [Re.mkItem (Ascii.eqb "s") Re.Opt]
             ++ Re.lit "://") ++ [Re.mkItem url_char Re.Plus]) in Hd.
    destruct (search_leftmost_greedy _ _ _ _ Hd)
      as (pre & post & E & Hstop & Hleft).
    exists pre, post. split; [exact E|]. split; [|exact Hleft].
    destruct post as [|c post]; [exact I|]. simpl in Hstop.
    unfold url_char in Hstop. apply negb_false_iff in Hstop.
    apply orb_true_iff in Hstop. destruct Hstop as [H|H]; [now left|].
    right. now apply Ascii.eqb_eq in H.
  - intros candidate Hc. rewrite Hc.
    destruct (search_sound _ _ _ Hc) as [Hmat _].
    destruct (data_url_pattern_shape _ Hmat)
      as (fmt & payload & E & _ & Hfa & _ & _).
    change _DATA_URL_PATTERN
      with ((Re.lit "data:image/" ++ [Re.mkItem mime_char Re.Plus]
             ++ Re.lit ";base64,") ++ [Re.mkItem b64_char Re.Plus]) in Hc.
    destruct (search_leftmost_greedy _ _ _ _ Hc)
      as (pre & post & Et & Hstop & Hleft).
    exists fmt, payload, pre, post.
    unfold try_data_url. rewrite E at 2 3.
    rewrite parse_data_url_ok
      by (apply (all_chars_impl mime_char);
          [exact mime_char_fmt_char | exact Hfa]).
    simpl. repeat split; assumption.
Qed.

(** A Markdown link: the URL stops before the closing parenthesis. *)
Lemma embedded_reference_boundaries_witness :
  image_url
    (extract_from_string "Here it is: ![cat](https://x/y.png) enjoy"
                         nothing_found)
  = JStr "https://x/y.png".
Proof.
  destruct (embedded_reference_boundaries
              "Here it is: ![cat](https://x/y.png) enjoy" nothing_found
              eq_refl eq_refl) as [H _].
  apply (H "https://x/y.png" eq_refl eq_refl).
Defined.

(* ------------------------------------------------------------------ *)
(** * One reference at most from a string content *)

Lemma try_data_url_on_nothing (text : string) :
  image_url (try_data_url text nothing_found) = JNull.
Proof.
  unfold try_data_url. destruct (parse_data_url text) as [[fmt p]|];
    reflexivity.
Qed.

Lemma string_content_one_slot (content : string) :
  image_url (extract_from_string content nothing_found) = JNull
  \/ base64_string (extract_from_string content nothing_found) = JNull.
Proof.
  unfold extract_from_string.
  destruct (PyStr.startswith "data:image/" (PyStr.strip content));
    [left; apply try_data_url_on_nothing|].
  destruct (_ || _); [now right|].
  destruct (Re.search _DATA_URL_PATTERN (PyStr.strip content));
    [left; apply try_data_url_on_nothing|].
  destruct (Re.search _HTTP_URL_PATTERN (PyStr.strip content)); now right.
Qed.

(** X20: When the message content is a string, the search never comes back
    with both a URL and an inline payload, the [data[0]] fallback
    included. *)
Theorem string_content_gives_one_reference (content : string)
    (d : list (string * json)) (f : found) :
  data_fallback (JObj d) (extract_from_string content nothing_found) = Ok f ->
  Py.truthy (image_url f) = false \/ Py.truthy (base64_string f) = false.
Proof.
  pose proof (string_content_one_slot content) as Hone.
  set (f0 := extract_from_string content nothing_found) in *.
  unfold data_fallback.
  destruct (Py.truthy (image_url f0)) eqn:Hu.
  - simpl. intros E. injection E as <-. right.
    destruct Hone as [H|H]; [rewrite H in Hu; discriminate | now rewrite H].
  - destruct (Py.truthy (base64_string f0)) eqn:Hb; simpl.
    + intros E. injection E as <-. now left.
    + destruct (Py.lookup "data" d) as [v|]; simpl;
        [|intros E; injection E as <-; now left].
      destruct (Py.truthy v);
        [|intros E; injection E as <-; now left].
      destruct (Py.getitem0 v) as [item0|]; simpl; [|discriminate].
      destruct (Py.contains "url" item0) as [[]|]; simpl; [| |discriminate].
      * destruct (Py.getitem "url" item0) as [u|]; simpl; [|discriminate].
        intros E. injection E as <-. right. exact Hb.
      * destruct (Py.contains "b64_json" item0) as [[]|]; simpl;
          [| |discriminate].
        -- destruct (Py.getitem "b64_json" item0) as [b|]; simpl;
             [|discriminate].
           intros E. injection E as <-. left. exact Hu.
        -- intros E. injection E as <-. now left.
Qed.

(** A text holding both a data URI and a link: the data URI is taken,
    the link is not. *)
Lemma string_content_gives_one_reference_witness :
  Py.truthy
    (image_url
       (extract_from_string
          "data:image/png;base64,QUJD or https://x/y.png" nothing_found))
  = false
  \/ Py.truthy
       (base64_string
          (extract_from_string
             "data:image/png;base64,QUJD or https://x/y.png" nothing_found))
     = false.
Proof.
  apply (string_content_gives_one_reference
           "data:image/png;base64,QUJD or https://x/y.png" []
           (extract_from_string
              "data:image/png;base64,QUJD or https://x/y.png" nothing_found)).
  reflexivity.
Defined.

(* ------------------------------------------------------------------ *)
(** * The description of a text command *)

Lemma cut_none (sep : ascii) (s : string) :
  all_chars (differs sep) s = true -> PyStr.cut sep s = None.
Proof.
  induction s as [|c s IH]; simpl; [reflexivity|]. intros H.
  apply andb_true_iff in H. destruct H as [Hc Hs].
  unfold differs in Hc. apply negb_true_iff in Hc.
  now rewrite Hc, (IH Hs).
Qed.

(** X21: An explicit argument is used as it is. Without one, the description
    is what follows the first space of the stripped message, stripped
    again; a message without a space after stripping, such as the bare
    command name, gives the empty description. *)
Theorem description_after_first_space (explicit message_str : string) :
  (explicit <> "" -> description_from explicit message_str = explicit)
  /\ (explicit = "" ->
      PyStr.strip (description_from explicit message_str)
      = description_from explicit message_str
      /\ (all_chars (differs " ") (PyStr.strip message_str) = true ->
          description_from explicit message_str = "")
      /\ (forall command rest,
            PyStr.strip message_str = (command ++ " " ++ rest)%string ->
            all_chars (differs " ") command = true ->
            description_from explicit message_str = PyStr.strip rest)).
Proof.
  unfold description_from. split.
  - intros H. destruct explicit; [congruence|reflexivity].
  - intros ->. simpl PyStr.truthy. cbv iota. unfold PyStr.split1.
    split; [|split].
    + destruct (PyStr.cut " " (PyStr.strip message_str)) as [[h t]|];
        [apply strip_idempotent | reflexivity].
    + intros H. now rewrite (cut_none _ _ H).
    + intros command rest E H. rewrite E.
      rewrite (cut_app_nosep " " command (" " ++ rest) H). reflexivity.
Qed.

(** A command with its description, and the bare command. *)
Lemma description_after_first_space_witness :
  description_from "" "  draw   a small cat  " = "a small cat"
  /\ description_from "" " draw " = "".
Proof.
  split.
  - destruct (description_after_first_space "" "  draw   a small cat  ")
      as [_ H].
    destruct (H eq_refl) as (_ & _ & Hd).
    apply (Hd "draw" "  a small cat"); reflexivity.
  - destruct (description_after_first_space "" " draw ") as [_ H].
    destruct (H eq_refl) as (_ & Hn & _).
    apply Hn. reflexivity.
Defined.

(* ------------------------------------------------------------------ *)
(** * From the configured keys to the loop *)

(** X22: The key list [_normalize_api_keys] builds goes through the key
    preparation of [generate_image_openai] unchanged; when it is empty
    the call returns [(None, None)] at once: nothing is sent, no
    rotation is asked for and the state stays as it was. *)
Theorem normalized_keys_reach_client
    (env : nat -> io) (py_repr : json -> string)
    (b64decode : string -> exc string)
    (images_dir : string) (absolute : string -> string)
    (prompt : string) (value : json) (model : string)
    (input_images : option (list string)) (api_base : option string)
    (api_format : option string) (max_retry_attempts : Z) (w : world) :
  let keys := _normalize_api_keys py_repr value in
  let run :=
    generate_image_openai env py_repr b64decode images_dir absolute
      prompt (JList (map JStr keys)) model input_images api_base api_format
      max_retry_attempts w in
  client_api_keys py_repr (JList (map JStr keys)) = keys
  /\ (keys = [] ->
      snd run = no_result
      /\ posts (trace (fst run)) = posts (trace w)
      /\ rotations (trace (fst run)) = rotations (trace w)
      /\ state (fst run) = state w).
Proof.
  intros keys run. subst keys run.
  split; [apply client_api_keys_of_normalized|].
  intros E. unfold generate_image_openai.
  rewrite client_api_keys_of_normalized, E. simpl.
  repeat split; read_trace.
Qed.

(** A configuration whose key entry holds blanks and commas only. *)
Lemma normalized_keys_reach_client_witness :
  let run :=
    generate_image_openai
      (fun _ => io_with (PostRaise NetworkError) (GetRaise NetworkError))
      (fun _ => "") (fun s => Ok s) "/plugin/images" (fun p => p)
      "a cat" (JList (map JStr (_normalize_api_keys (fun _ => "")
                                                    (JStr " , ,, "))))
      "gpt-image-1" None None None 3 fresh_world in
  snd run = no_result /\ posts (trace (fst run)) = 0.
Proof.
  destruct (normalized_keys_reach_client
              (fun _ => io_with (PostRaise NetworkError)
                                (GetRaise NetworkError))
              (fun _ => "") (fun s => Ok s) "/plugin/images" (fun p => p)
              "a cat" (JStr " , ,, ") "gpt-image-1" None None None 3
              fresh_world) as [_ H].
  destruct (H eq_refl) as (Hres & Hp & _). split; [exact Hres | exact Hp].
Defined.
